(** * Recurring-event expansion of the events-calendar module

    The method [generateRecurringEvents] documented in
    [src/events-calendar/README.md] turns a base event carrying a
    recurrence rule into the occurrences that start inside a query range.
    This development embeds the method, the data it reads and the library
    calls it makes, and proves properties of the embedding.

    The method is embedded twice.  On values, a [Date] is its time value
    and an event is a record; this is the model in which the occurrences
    are studied.  On the heap (module [OnHeap]), dates, documents and
    arrays are objects behind references; this is the model in which what
    a call changes is studied.  The second is shown to compute what the
    first does.

    Two more pieces of the repository are embedded: the range query
    [findEventsInRange] of the same README, which calls the method for
    each recurring base event of a user, and the countdown service of
    [timers/countdown] with the routes of its controller (module
    [Timers]).

    Conventions of the embedding.
    - The time value of a JavaScript [Date] is an integer number of
      milliseconds since 1970-01-01T00:00:00Z.  Comparing two dates with
      [<=] or [>=] compares these numbers.  Invalid dates (time value NaN)
      appear in the heap model only.
    - All calendar arithmetic is done in UTC.
    - [new mongoose.Types.ObjectId()] is library code; it is modelled as a
      supply of identifiers that never hands out the same one twice.
    - The README excerpt of [generateRecurringEvents] ends with the loop;
      the array [events] the loop fills is taken as the method's result
      (the caller spreads that result into its own list).
    - The loop is given fuel; [OutOfFuel] stands for a loop that has not
      been left yet. *)

From Stdlib Require Import ZArith Lia Bool List Sorted.
From stdpp Require Import base list strings gmap.

Local Open Scope Z_scope.

(** ** Data model *)

(** [RecurrenceFrequency]: 'daily', 'weekly', 'monthly'. *)
Inductive RecurrenceFrequency := DAILY | WEEKLY | MONTHLY.

(** [export enum DayOfWeek { MONDAY = 1, ..., SUNDAY = 7 }]. *)
Inductive DayOfWeek :=
  MONDAY | TUESDAY | WEDNESDAY | THURSDAY | FRIDAY | SATURDAY | SUNDAY.

Definition dayNumber (d : DayOfWeek) : Z :=
  match d with
  | MONDAY => 1 | TUESDAY => 2 | WEDNESDAY => 3 | THURSDAY => 4
  | FRIDAY => 5 | SATURDAY => 6 | SUNDAY => 7
  end.

#[global] Instance DayOfWeek_eq_dec : EqDecision DayOfWeek.
Proof. solve_decision. Defined.

(** Time value of a [Date], in milliseconds since the epoch. *)
Definition Date := Z.

(** A [mongoose.Types.ObjectId], seen as a number. *)
Definition ObjectId := N.

(** [interface RecurrencePattern].  A field that a JavaScript object may
    lack is an [option]. *)
Record RecurrencePattern := {
  frequency : RecurrenceFrequency;
  interval : option Z;
  daysOfWeek : option (list DayOfWeek);
  endDate : option Date;
  maxOccurrences : option Z
}.

(** An event document of the calendar; an occurrence is a plain object
    with the same fields. *)
Record EventsCalendar := {
  _id : ObjectId;
  userId : ObjectId;
  title : string;
  description : string;
  location : string;
  category : string;
  color : string;
  startDate : Date;
  duration : Z;
  recurrence : option RecurrencePattern;
  isRecurringInstance : bool;
  parentEventId : option ObjectId
}.

(** ** Calendar arithmetic on time values (UTC) *)

Definition msPerSecond : Z := 1000.
Definition msPerMinute : Z := 60000.
Definition msPerHour : Z := 3600000.
Definition msPerDay : Z := 86400000.

Definition isLeapYear (y : Z) : bool :=
  (y mod 4 =? 0) && (negb (y mod 100 =? 0) || (y mod 400 =? 0)).

Definition daysInMonth (y m : Z) : Z :=
  if m =? 2 then (if isLeapYear y then 29 else 28)
  else if (m =? 4) || (m =? 6) || (m =? 9) || (m =? 11) then 30 else 31.

(** Days from 0000-03-01 to March 1st of year [Y] (years run March to
    February, so that the leap day is the last day of its year). *)
Definition marchYearDays (Y : Z) : Z :=
  let era := Y / 400 in
  let yoe := Y - era * 400 in
  era * 146097 + yoe * 365 + yoe / 4 - yoe / 100.

(** Day number (days since 1970-01-01) of the civil date [y]-[m]-[d]. *)
Definition daysFromCivil (y m d : Z) : Z :=
  let Y := if m <=? 2 then y - 1 else y in
  let mp := if m <=? 2 then m + 9 else m - 3 in
  marchYearDays Y + (153 * mp + 2) / 5 + d - 1 - 719468.

(** Civil date (year, month 1..12, day 1..31) of a day number. *)
Definition civilFromDays (z : Z) : Z * Z * Z :=
  let z := z + 719468 in
  let era := z / 146097 in
  let doe := z - era * 146097 in
  let yoe := (doe - doe / 1460 + doe / 36524 - doe / 146096) / 365 in
  let doy := doe - (365 * yoe + yoe / 4 - yoe / 100) in
  let mp := (5 * doy + 2) / 153 in
  let d := doy - (153 * mp + 2) / 5 + 1 in
  let m := if mp <? 10 then mp + 3 else mp - 9 in
  (yoe + era * 400 + (if m <=? 2 then 1 else 0), m, d).

(** Day number of the first day of the month with index
    [M = 12 * y + (m - 1)]. *)
Definition firstOfMonth (M : Z) : Z :=
  daysFromCivil (M / 12) (M mod 12 + 1) 1.

(** [Date.UTC(y, m - 1, d, hh, mm, ss)], with [m] counted from 1. *)
Definition utc (y m d hh mm ss : Z) : Date :=
  daysFromCivil y m d * msPerDay + hh * msPerHour + mm * msPerMinute
  + ss * msPerSecond.

(** [date.getUTCDay()]: 0 is Sunday, ..., 6 is Saturday; 1970-01-01 was a
    Thursday. *)
Definition getUTCDay (t : Date) : Z := (t / msPerDay + 4) mod 7.

Definition weekdayOf (t : Date) : DayOfWeek :=
  match getUTCDay t with
  | 1 => MONDAY | 2 => TUESDAY | 3 => WEDNESDAY | 4 => THURSDAY
  | 5 => FRIDAY | 6 => SATURDAY | _ => SUNDAY
  end.

Definition addDays (t : Date) (n : Z) : Date := t + n * msPerDay.

(** [t] moved [k] months ahead, same time of day, same day of the month;
    when the target month is shorter, its last day. *)
Definition addMonths (t : Date) (k : Z) : Date :=
  let '(y, m, d) := civilFromDays (t / msPerDay) in
  let M := 12 * y + (m - 1) + k in
  let y' := M / 12 in
  let m' := M mod 12 + 1 in
  let d' := Z.min d (daysInMonth y' m') in
  daysFromCivil y' m' d' * msPerDay + t mod msPerDay.

(** ** The two helper methods

    [shouldCreateOccurrence] and [getNextOccurrenceDate] are called by
    [generateRecurringEvents] but their bodies are not part of the
    sources at hand.  The expander below takes them as parameters; the
    module [Helpers] gives the instances described by the
    specification. *)

Module Helpers.

(** Modelled from the spec: the defaulting of [interval], missing from
    the sources ("default 1 if absent/non-positive"). *)
Definition effectiveInterval (r : RecurrencePattern) : Z :=
  match interval r with
  | Some n => if 0 <? n then n else 1
  | None => 1
  end.

(** Modelled from the spec: the body of [shouldCreateOccurrence], missing
    from the sources.  Step 3a of the algorithm: for a daily rule every
    cursor position is a candidate; for a weekly rule the cursor is a
    candidate when its weekday is in [daysOfWeek]; for a weekly rule
    without [daysOfWeek] the cursor only ever stands on a date reached by
    whole weeks from the seed (see [getNextOccurrenceDate]), which has
    the seed's weekday, so every position is a candidate.

    For a monthly rule every position is a candidate as well.  The method
    is called with the cursor and the rule, not with the seed, so it has
    no day of the month to compare the cursor's with; the cursor stands on
    a date reached by whole months from the seed.  The clamp policy that
    results, [getNextOccurrenceDate] stepping from the cursor, is: when a
    month lacks the day, the cursor moves to the last day of that month
    and goes on from there (31 January, 29 February, 29 March, ...), so
    that after a shorter month the occurrences keep the clamped day where
    step 3a, comparing with the seed's day, would return to the 31st. *)
Definition shouldCreateOccurrence (d : Date) (r : RecurrencePattern) : bool :=
  match frequency r with
  | DAILY => true
  | WEEKLY =>
      match daysOfWeek r with
      | Some (day :: days) => bool_decide (weekdayOf d ∈ day :: days)
      | _ => true
      end
  | MONTHLY => true
  end.

(** Modelled from the spec: the body of [getNextOccurrenceDate], missing
    from the sources.  Step 3c of the algorithm: a daily rule advances by
    [interval] days; a weekly rule with [daysOfWeek] advances day by day
    and, on leaving a week (the enum's weeks run Monday to Sunday), skips
    [interval - 1] further weeks; a weekly rule without [daysOfWeek]
    advances by [interval] weeks; a monthly rule advances by [interval]
    months from the cursor's own day of the month, clamped to the last
    day of a shorter month.  The interval is the defaulted one. *)
Definition getNextOccurrenceDate (d : Date) (r : RecurrencePattern) : Date :=
  let n := effectiveInterval r in
  match frequency r with
  | DAILY => addDays d n
  | WEEKLY =>
      match daysOfWeek r with
      | Some (_ :: _) =>
          let d1 := addDays d 1 in
          match weekdayOf d1 with
          | MONDAY => addDays d1 (7 * (n - 1))
          | _ => d1
          end
      | _ => addDays d (7 * n)
      end
  | MONTHLY => addMonths d n
  end.

End Helpers.

(** ** The ObjectId supply

    [new mongoose.Types.ObjectId()] returns an identifier that was never
    returned before.  The state of the supply is the number of
    identifiers issued so far, and the identifier issued is that
    number. *)

Definition ObjectIdGen := N.

Definition newObjectId (g : ObjectIdGen) : ObjectId * ObjectIdGen :=
  (g, N.succ g).

(** ** The expander *)

(** Ways a call can end: it returns a value, it throws a [TypeError]
    (reading a property of [undefined]), or the fuel given to the model
    of its [while] loop is used up. *)
Inductive Outcome (A : Type) : Type :=
| Returned (a : A)
| TypeError
| OutOfFuel.

Arguments Returned {A} a.
Arguments TypeError {A}.
Arguments OutOfFuel {A}.

(** [while (cond) { body }] on a state, with fuel. *)
Fixpoint while {S : Type} (fuel : nat) (cond : S -> bool) (body : S -> S)
    (st : S) : option S :=
  if cond st then
    match fuel with
    | O => None
    | S fuel' => while fuel' cond body (body st)
    end
  else Some st.

(** The local variables of [generateRecurringEvents] that the loop
    changes, and the ObjectId supply. *)
Record LoopState := {
  currentDate : Date;
  occurrenceCount : Z;
  events : list EventsCalendar;
  idGen : ObjectIdGen
}.

(** [{ ...baseEvent.toObject(), _id: id, startDate: new Date(currentDate),
       isRecurringInstance: true, parentEventId: baseEvent._id }] *)
Definition occurrenceEvent (baseEvent : EventsCalendar) (id : ObjectId)
    (current : Date) : EventsCalendar :=
  {| _id := id;
     userId := userId baseEvent;
     title := title baseEvent;
     description := description baseEvent;
     location := location baseEvent;
     category := category baseEvent;
     color := color baseEvent;
     startDate := current;
     duration := duration baseEvent;
     recurrence := recurrence baseEvent;
     isRecurringInstance := true;
     parentEventId := Some (_id baseEvent) |}.

(** [recurrence.endDate || rangeEnd]: a [Date] object is truthy. *)
Definition maxDateOf (r : RecurrencePattern) (rangeEnd : Date) : Date :=
  match endDate r with
  | Some e => e
  | None => rangeEnd
  end.

(** [recurrence.maxOccurrences || 100]: [undefined] and [0] are falsy. *)
Definition maxOccurrencesOf (r : RecurrencePattern) : Z :=
  match maxOccurrences r with
  | Some n => if n =? 0 then 100 else n
  | None => 100
  end.

Section Expander.

Variable shouldCreateOccurrence : Date -> RecurrencePattern -> bool.
Variable getNextOccurrenceDate : Date -> RecurrencePattern -> Date.

(** [currentDate <= maxDate && currentDate <= rangeEnd &&
     occurrenceCount < maxOccurrences] *)
Definition loopCondition (maxDate rangeEnd : Date) (maxOcc : Z)
    (st : LoopState) : bool :=
  (currentDate st <=? maxDate) && (currentDate st <=? rangeEnd)
  && (occurrenceCount st <? maxOcc).

(** The statements guarded by [currentDate >= rangeStart]. *)
Definition createOccurrence (baseEvent : EventsCalendar)
    (r : RecurrencePattern) (rangeStart : Date) (st : LoopState)
    : LoopState :=
  if rangeStart <=? currentDate st then
    if shouldCreateOccurrence (currentDate st) r then
      let '(id, g) := newObjectId (idGen st) in
      {| currentDate := currentDate st;
         occurrenceCount := occurrenceCount st + 1;
         events := events st ++ [occurrenceEvent baseEvent id (currentDate st)];
         idGen := g |}
    else st
  else st.

(** One turn of the loop: the guarded statements, then
    [currentDate = this.getNextOccurrenceDate(currentDate, recurrence)]. *)
Definition loopBody (baseEvent : EventsCalendar) (r : RecurrencePattern)
    (rangeStart : Date) (st : LoopState) : LoopState :=
  let st1 := createOccurrence baseEvent r rangeStart st in
  {| currentDate := getNextOccurrenceDate (currentDate st1) r;
     occurrenceCount := occurrenceCount st1;
     events := events st1;
     idGen := idGen st1 |}.

(** The state on entering the loop. *)
Definition initialState (baseEvent : EventsCalendar) (g : ObjectIdGen)
    : LoopState :=
  {| currentDate := startDate baseEvent;
     occurrenceCount := 0;
     events := [];
     idGen := g |}.

(** [generateRecurringEvents(baseEvent, rangeStart, rangeEnd)], started
    with the ObjectId supply in state [g]; it returns the occurrences
    and the state of the supply after the call. *)
Definition generateRecurringEvents (fuel : nat) (baseEvent : EventsCalendar)
    (rangeStart rangeEnd : Date) (g : ObjectIdGen)
    : Outcome (list EventsCalendar * ObjectIdGen) :=
  match recurrence baseEvent with
  | None => TypeError
  | Some r =>
      let maxDate := maxDateOf r rangeEnd in
      let maxOcc := maxOccurrencesOf r in
      match while fuel (loopCondition maxDate rangeEnd maxOcc)
              (loopBody baseEvent r rangeStart) (initialState baseEvent g)
      with
      | Some st => Returned (events st, idGen st)
      | None => OutOfFuel
      end
  end.

End Expander.

(** The dates the cursor can stand on: those reached from the seed by
    repeated calls of [getNextOccurrenceDate]. *)
Definition reachedFrom (getNextOccurrenceDate : Date -> RecurrencePattern -> Date)
    (r : RecurrencePattern) (seed d : Date) : Prop :=
  exists k : nat, d = Nat.iter k (fun c => getNextOccurrenceDate c r) seed.

(** What the loop keeps true of the occurrences pushed so far, [g] and
    [g'] being the states of the ObjectId supply at the call and now. *)
Definition isOccurrenceOf
    (shouldCreateOccurrence : Date -> RecurrencePattern -> bool)
    (getNextOccurrenceDate : Date -> RecurrencePattern -> Date)
    (baseEvent : EventsCalendar) (r : RecurrencePattern)
    (g g' : ObjectIdGen) (o : EventsCalendar) : Prop :=
  o = occurrenceEvent baseEvent (_id o) (startDate o)
  /\ (g <= _id o < g')%N
  /\ reachedFrom getNextOccurrenceDate r (startDate baseEvent) (startDate o)
  /\ shouldCreateOccurrence (startDate o) r = true.

(** The candidates of a rule's own timeline that lie before [limit]:
    the cursor positions, from [cursor] on, that the candidate test
    accepts. *)
Fixpoint candidatesBefore
    (shouldCreateOccurrence : Date -> RecurrencePattern -> bool)
    (getNextOccurrenceDate : Date -> RecurrencePattern -> Date)
    (fuel : nat) (r : RecurrencePattern) (cursor limit : Date) : list Date :=
  match fuel with
  | O => []
  | S fuel' =>
      if cursor <? limit then
        (if shouldCreateOccurrence cursor r then [cursor] else [])
        ++ candidatesBefore shouldCreateOccurrence getNextOccurrenceDate
             fuel' r (getNextOccurrenceDate cursor r) limit
      else []
  end.

(** An occurrence with its id blanked. *)
Definition withoutId (o : EventsCalendar) : EventsCalendar :=
  {| _id := 0%N;
     userId := userId o;
     title := title o;
     description := description o;
     location := location o;
     category := category o;
     color := color o;
     startDate := startDate o;
     duration := duration o;
     recurrence := recurrence o;
     isRecurringInstance := isRecurringInstance o;
     parentEventId := parentEventId o |}.

(** The expander with the helpers as the specification describes them. *)
Abbreviation expand :=
  (generateRecurringEvents Helpers.shouldCreateOccurrence
     Helpers.getNextOccurrenceDate).

(** ** Sample events

    The weekly meeting of the README (every Monday and Wednesday from
    2024-01-15T09:00:00Z, at most 20 occurrences), and a daily stand-up
    capped at three occurrences. *)

Module Samples.

Definition weeklyRule : RecurrencePattern :=
  {| frequency := WEEKLY;
     interval := Some 1;
     daysOfWeek := Some [MONDAY; WEDNESDAY];
     endDate := None;
     maxOccurrences := Some 20 |}.

Definition teamMeeting : EventsCalendar :=
  {| _id := 7%N;
     userId := 1%N;
     title := "Team Meeting";
     description := "Weekly team sync";
     location := "";
     category := "Meeting";
     color := "";
     startDate := utc 2024 1 15 9 0 0;
     duration := 60;
     recurrence := Some weeklyRule;
     isRecurringInstance := false;
     parentEventId := None |}.

Definition dailyRule : RecurrencePattern :=
  {| frequency := DAILY;
     interval := Some 1;
     daysOfWeek := None;
     endDate := None;
     maxOccurrences := Some 3 |}.

Definition dailyStandup : EventsCalendar :=
  {| _id := 8%N;
     userId := 1%N;
     title := "Standup";
     description := "";
     location := "";
     category := "Meeting";
     color := "";
     startDate := utc 2024 1 15 9 0 0;
     duration := 15;
     recurrence := Some dailyRule;
     isRecurringInstance := false;
     parentEventId := None |}.

Definition monthlyRule : RecurrencePattern :=
  {| frequency := MONTHLY;
     interval := Some 1;
     daysOfWeek := None;
     endDate := Some (utc 2024 12 31 23 59 59);
     maxOccurrences := None |}.

Definition monthlyAllHands : EventsCalendar :=
  {| _id := 5%N;
     userId := 1%N;
     title := "Monthly All Hands";
     description := "";
     location := "";
     category := "";
     color := "";
     startDate := utc 2024 1 1 16 0 0;
     duration := 120;
     recurrence := Some monthlyRule;
     isRecurringInstance := false;
     parentEventId := None |}.

Definition uncappedRule : RecurrencePattern :=
  {| frequency := DAILY;
     interval := Some 1;
     daysOfWeek := None;
     endDate := None;
     maxOccurrences := None |}.

Definition dailyReminder : EventsCalendar :=
  {| _id := 6%N;
     userId := 1%N;
     title := "Reminder";
     description := "";
     location := "";
     category := "";
     color := "";
     startDate := utc 2024 1 15 9 0 0;
     duration := 5;
     recurrence := Some uncappedRule;
     isRecurringInstance := false;
     parentEventId := None |}.

(** [new Date("2024-01-01")] and [new Date("2024-01-31")]: a date-only
    string denotes midnight UTC. *)
Definition january1st : Date := utc 2024 1 1 0 0 0.
Definition january31st : Date := utc 2024 1 31 0 0 0.

Definition january17th : Date := utc 2024 1 17 0 0 0.
Definition endOfJanuary : Date := utc 2024 1 31 23 59 59.
Definition endOfYear : Date := utc 2024 12 31 23 59 59.
Definition midsummer2025 : Date := utc 2025 6 30 0 0 0.

(** The state of the ObjectId supply after the sample events were
    stored. *)
Definition supply : ObjectIdGen := 9%N.

Definition january20th : Date := utc 2024 1 20 0 0 0.

(** An event without a recurrence rule. *)
Definition checkup : EventsCalendar :=
  {| _id := 4%N;
     userId := 1%N;
     title := "Checkup";
     description := "";
     location := "";
     category := "";
     color := "";
     startDate := utc 2024 1 18 11 0 0;
     duration := 45;
     recurrence := None;
     isRecurringInstance := false;
     parentEventId := None |}.

End Samples.

(** ** The expander on the JavaScript heap

    To speak about what a call changes, the objects are put on a heap:
    a [Date] is an object whose time value can be overwritten, the base
    event is a document that refers to its start date and to its rule,
    the rule refers to its end date, and the method receives references.
    The heap is a list of cells; a reference is an index; [new] appends a
    cell. *)

Module OnHeap.

(** A reference is an index into the heap. *)
Abbreviation loc := nat.

(** The recurrence sub-document. *)
Record RuleObject := {
  ruleFrequency : RecurrenceFrequency;
  ruleInterval : option Z;
  ruleDaysOfWeek : option (list DayOfWeek);
  ruleEndDate : option loc;
  ruleMaxOccurrences : option Z
}.

(** An event document, or the plain object of an occurrence. *)
Record EventObject := {
  objId : ObjectId;
  objUserId : ObjectId;
  objTitle : string;
  objDescription : string;
  objLocation : string;
  objCategory : string;
  objColor : string;
  objStartDate : loc;
  objDuration : Z;
  objRecurrence : option loc;
  objIsRecurringInstance : bool;
  objParentEventId : option ObjectId
}.

(** The objects on the heap.  The time value of a [Date] is [None] when
    the date is invalid (NaN). *)
Inductive Cell :=
| DateObject (time : option Z)
| Rule (r : RuleObject)
| Event (e : EventObject)
| Array (items : list loc).

(** What a call can change: the heap and the ObjectId supply. *)
Record Runtime := {
  heap : list Cell;
  objectIds : ObjectIdGen
}.

(** A computation that may change the runtime, and may throw. *)
Definition Js (A : Type) : Type := Runtime -> Outcome (A * Runtime).

Definition ret {A : Type} (a : A) : Js A := fun rt => Returned (a, rt).

Definition bind {A B : Type} (m : Js A) (k : A -> Js B) : Js B :=
  fun rt =>
    match m rt with
    | Returned (a, rt') => k a rt'
    | TypeError => TypeError
    | OutOfFuel => OutOfFuel
    end.

Definition throw {A : Type} : Js A := fun _ => TypeError.

Notation "'let*' x := m 'in' k" := (bind m (fun x => k))
  (at level 10, x name, m at level 100, k at level 200).

(** [new ...]: the object goes into a new cell at the end of the heap. *)
Definition alloc (c : Cell) : Js loc :=
  fun rt =>
    Returned (length (heap rt),
              {| heap := heap rt ++ [c]; objectIds := objectIds rt |}).

(** Overwriting the object behind a reference. *)
Definition store (l : loc) (c : Cell) : Js unit :=
  fun rt =>
    Returned (tt, {| heap := <[l := c]> (heap rt); objectIds := objectIds rt |}).

(** [new mongoose.Types.ObjectId()] *)
Definition freshObjectId : Js ObjectId :=
  fun rt =>
    let '(id, g) := newObjectId (objectIds rt) in
    Returned (id, {| heap := heap rt; objectIds := g |}).

(** The time value behind a reference; NaN when there is no valid date. *)
Definition timeOf (rt : Runtime) (l : loc) : option Z :=
  match heap rt !! l with
  | Some (DateObject t) => t
  | _ => None
  end.

(** [a <= b] on time values: false as soon as one of them is NaN. *)
Definition leqTime (a b : option Z) : bool :=
  match a, b with
  | Some x, Some y => x <=? y
  | _, _ => false
  end.

(** Reading the fields of the document behind a reference. *)
Definition readEvent (l : loc) : Js EventObject :=
  fun rt =>
    match heap rt !! l with
    | Some (Event e) => Returned (e, rt)
    | _ => TypeError
    end.

Definition readRule (l : loc) : Js RuleObject :=
  fun rt =>
    match heap rt !! l with
    | Some (Rule r) => Returned (r, rt)
    | _ => TypeError
    end.

(** [new Date(d)]: a new object with the time value of [d]. *)
Definition newDate (d : loc) : Js loc :=
  fun rt => alloc (DateObject (timeOf rt d)) rt.

(** [array.push(x)] *)
Definition push (array x : loc) : Js unit :=
  fun rt =>
    match heap rt !! array with
    | Some (Array items) => store array (Array (items ++ [x])) rt
    | _ => TypeError
    end.

(** [while (cond) { body }] on local variables [L] and the runtime. *)
Fixpoint whileJs {L : Type} (fuel : nat) (cond : L -> Runtime -> bool)
    (body : L -> Js L) (locals : L) : Js L :=
  fun rt =>
    if cond locals rt then
      match fuel with
      | O => OutOfFuel
      | S fuel' =>
          match body locals rt with
          | Returned (locals', rt') => whileJs fuel' cond body locals' rt'
          | TypeError => TypeError
          | OutOfFuel => OutOfFuel
          end
      end
    else Returned (locals, rt).

(** The local variables that the loop assigns. *)
Record Locals := {
  currentDateRef : loc;
  count : Z
}.

Section Expander.

(** The helpers receive the cursor and the rule by reference. *)
Variable shouldCreateOccurrence : loc -> loc -> Js bool.
Variable getNextOccurrenceDate : loc -> loc -> Js loc.

Definition loopCondition (maxDate rangeEnd : loc) (maxOcc : Z)
    (locals : Locals) (rt : Runtime) : bool :=
  leqTime (timeOf rt (currentDateRef locals)) (timeOf rt maxDate)
  && leqTime (timeOf rt (currentDateRef locals)) (timeOf rt rangeEnd)
  && (count locals <? maxOcc).

(** [{ ...baseEvent.toObject(), _id: new mongoose.Types.ObjectId(),
       startDate: new Date(currentDate), isRecurringInstance: true,
       parentEventId: baseEvent._id }], then [events.push(...)].
    [toObject()] hands out the fields of the document; references kept
    in them are shared here, where the library would copy. *)
Definition pushOccurrence (events baseEvent : loc) (locals : Locals)
    : Js Locals :=
  let* fields := readEvent baseEvent in
  let* id := freshObjectId in
  let* start := newDate (currentDateRef locals) in
  let* base := readEvent baseEvent in
  let* occurrenceEvent :=
    alloc (Event {| objId := id;
                    objUserId := objUserId fields;
                    objTitle := objTitle fields;
                    objDescription := objDescription fields;
                    objLocation := objLocation fields;
                    objCategory := objCategory fields;
                    objColor := objColor fields;
                    objStartDate := start;
                    objDuration := objDuration fields;
                    objRecurrence := objRecurrence fields;
                    objIsRecurringInstance := true;
                    objParentEventId := Some (objId base) |}) in
  let* _ := push events occurrenceEvent in
  ret {| currentDateRef := currentDateRef locals; count := count locals + 1 |}.

Definition loopBody (events baseEvent recurrence rangeStart : loc)
    (locals : Locals) : Js Locals :=
  let* locals1 :=
    (fun rt =>
       if leqTime (timeOf rt rangeStart) (timeOf rt (currentDateRef locals))
       then
         (let* should := shouldCreateOccurrence (currentDateRef locals) recurrence in
          if should then pushOccurrence events baseEvent locals
          else ret locals) rt
       else ret locals rt) in
  let* next := getNextOccurrenceDate (currentDateRef locals1) recurrence in
  ret {| currentDateRef := next; count := count locals1 |}.

(** [generateRecurringEvents(baseEvent, rangeStart, rangeEnd)]; the
    result is the reference to the array [events]. *)
Definition generateRecurringEvents (fuel : nat)
    (baseEvent rangeStart rangeEnd : loc) : Js loc :=
  let* events := alloc (Array []) in
  let* base := readEvent baseEvent in
  let* currentDate := newDate (objStartDate base) in
  match objRecurrence base with
  | None => throw
  | Some recurrence =>
      let* rule := readRule recurrence in
      let maxDate :=
        match ruleEndDate rule with
        | Some e => e
        | None => rangeEnd
        end in
      let maxOcc :=
        match ruleMaxOccurrences rule with
        | Some n => if n =? 0 then 100 else n
        | None => 100
        end in
      let* _ :=
        whileJs fuel (loopCondition maxDate rangeEnd maxOcc)
          (loopBody events baseEvent recurrence rangeStart)
          {| currentDateRef := currentDate; count := 0 |} in
      ret events
  end.

End Expander.

(** A helper call may overwrite the date it is given and may create
    objects; it leaves every other object alone. *)
Definition touchesOnly {A : Type} (cursor : loc) (m : Js A) : Prop :=
  forall rt a rt',
    m rt = Returned (a, rt') ->
    (length (heap rt) <= length (heap rt'))%nat
    /\ forall l : loc,
         (l < length (heap rt))%nat -> l <> cursor ->
         heap rt' !! l = heap rt !! l.

(** The date a helper hands back is the one it was given or a new one. *)
Definition returnsCursorOrNew (cursor : loc) (m : Js loc) : Prop :=
  forall rt l rt',
    m rt = Returned (l, rt') -> l = cursor \/ (length (heap rt) <= l)%nat.

(** The rule behind a reference as a value, its end date read off the
    heap; [None] when the reference is not to a rule with a valid end
    date, if it has one. *)
Definition loadRule (rt : Runtime) (l : loc) : option RecurrencePattern :=
  match heap rt !! l with
  | Some (Rule r) =>
      match ruleEndDate r with
      | Some e =>
          match timeOf rt e with
          | Some t =>
              Some {| frequency := ruleFrequency r;
                      interval := ruleInterval r;
                      daysOfWeek := ruleDaysOfWeek r;
                      endDate := Some t;
                      maxOccurrences := ruleMaxOccurrences r |}
          | None => None
          end
      | None =>
          Some {| frequency := ruleFrequency r;
                  interval := ruleInterval r;
                  daysOfWeek := ruleDaysOfWeek r;
                  endDate := None;
                  maxOccurrences := ruleMaxOccurrences r |}
      end
  | _ => None
  end.

(** An event object as a value, given its start time and its rule. *)
Definition eventValue (e : EventObject) (t : Date)
    (r : option RecurrencePattern) : EventsCalendar :=
  {| _id := objId e;
     userId := objUserId e;
     title := objTitle e;
     description := objDescription e;
     location := objLocation e;
     category := objCategory e;
     color := objColor e;
     startDate := t;
     duration := objDuration e;
     recurrence := r;
     isRecurringInstance := objIsRecurringInstance e;
     parentEventId := objParentEventId e |}.

(** The event behind a reference as a value, its start date and its
    rule read off the heap. *)
Definition loadEvent (rt : Runtime) (l : loc) : option EventsCalendar :=
  match heap rt !! l with
  | Some (Event e) =>
      match timeOf rt (objStartDate e) with
      | Some t =>
          match objRecurrence e with
          | Some rl =>
              match loadRule rt rl with
              | Some r => Some (eventValue e t (Some r))
              | None => None
              end
          | None => Some (eventValue e t None)
          end
      | None => None
      end
  | _ => None
  end.


(** A helper given as a function on time values and rules, as a method
    on references: it reads the date and the rule off the heap.  The next
    date is handed back as a new object. *)
Definition liftShould (f : Date -> RecurrencePattern -> bool)
    (cursor rule : loc) : Js bool :=
  fun rt =>
    match timeOf rt cursor, loadRule rt rule with
    | Some t, Some r => Returned (f t r, rt)
    | _, _ => TypeError
    end.

Definition liftNext (f : Date -> RecurrencePattern -> Date)
    (cursor rule : loc) : Js loc :=
  fun rt =>
    match timeOf rt cursor, loadRule rt rule with
    | Some t, Some r => alloc (DateObject (Some (f t r))) rt
    | _, _ => TypeError
    end.


(** The helpers of the specification, on references. *)
Definition shouldCreateOccurrenceRef : loc -> loc -> Js bool :=
  liftShould Helpers.shouldCreateOccurrence.

Definition getNextOccurrenceDateRef : loc -> loc -> Js loc :=
  liftNext Helpers.getNextOccurrenceDate.


(** Every object of [rt] that is not an array is still there in [rt']. *)
Definition keepsObjects (rt rt' : Runtime) : Prop :=
  forall (l : loc) c,
    heap rt !! l = Some c -> (forall items, c <> Array items) ->
    heap rt' !! l = Some c.

(** The array behind [array] holds references to the events [evs]. *)
Definition holdsEvents (rt : Runtime) (array : loc)
    (evs : list EventsCalendar) : Prop :=
  exists items,
    heap rt !! array = Some (Array items)
    /\ Forall2 (fun l o => loadEvent rt l = Some o) items evs.

(** How the state of the loop on the heap and the state of the loop on
    values correspond. *)
Definition corresponds (array baseEvent recurrence rangeStart rangeEnd maxDate : loc)
    (ev : EventsCalendar) (r : RecurrencePattern) (tStart tEnd : Date)
    (locals : Locals) (rt : Runtime) (st : LoopState) : Prop :=
  loadEvent rt baseEvent = Some ev
  /\ (exists e, heap rt !! baseEvent = Some (Event e)
               /\ objRecurrence e = Some recurrence)
  /\ loadRule rt recurrence = Some r
  /\ timeOf rt rangeStart = Some tStart
  /\ timeOf rt rangeEnd = Some tEnd
  /\ timeOf rt maxDate = Some (maxDateOf r tEnd)
  /\ timeOf rt (currentDateRef locals) = Some (currentDate st)
  /\ count locals = occurrenceCount st
  /\ objectIds rt = idGen st
  /\ holdsEvents rt array (events st).

(** A heap holding the weekly meeting of the README, the two dates of
    the query, and nothing else. *)
Definition sampleHeap : list Cell :=
  [ DateObject (Some (utc 2024 1 15 9 0 0));
    Rule {| ruleFrequency := WEEKLY;
            ruleInterval := Some 1;
            ruleDaysOfWeek := Some [MONDAY; WEDNESDAY];
            ruleEndDate := None;
            ruleMaxOccurrences := Some 20 |};
    Event {| objId := 7%N;
             objUserId := 1%N;
             objTitle := "Team Meeting";
             objDescription := "Weekly team sync";
             objLocation := "";
             objCategory := "Meeting";
             objColor := "";
             objStartDate := 0%nat;
             objDuration := 60;
             objRecurrence := Some 1%nat;
             objIsRecurringInstance := false;
             objParentEventId := None |};
    DateObject (Some (utc 2024 1 1 0 0 0));
    DateObject (Some (utc 2024 1 31 23 59 59)) ].

Definition sampleRuntime : Runtime :=
  {| heap := sampleHeap; objectIds := 9%N |}.

End OnHeap.

(** ** The range query

    [findEventsInRange(userId, startDate, endDate)] of the README loads
    the user's base events and gathers, in their order, the instances of
    the recurring ones and the single events that start inside the
    range.  Like [generateRecurringEvents], the excerpt stops short of its
    [return]; the array [allEvents] it fills is taken as the result.  The
    two dates are called [rangeStart] and [rangeEnd] here, [startDate]
    and [endDate] being fields. *)

(** [find({ userId, isRecurringInstance: { $ne: true } })] on the
    collection, a list of documents in storage order. *)
Definition findBaseEvents (collection : list EventsCalendar) (user : ObjectId)
    : list EventsCalendar :=
  List.filter
    (fun event => (userId event =? user)%N && negb (isRecurringInstance event))
    collection.

(** [event.startDate >= startDate && event.startDate <= endDate] *)
Definition startsInRange (event : EventsCalendar) (rangeStart rangeEnd : Date)
    : bool :=
  (rangeStart <=? startDate event) && (startDate event <=? rangeEnd).

Section Query.

Variable shouldCreateOccurrence : Date -> RecurrencePattern -> bool.
Variable getNextOccurrenceDate : Date -> RecurrencePattern -> Date.

(** [for (const event of baseEvents) { ... }], from the array [allEvents]
    and the ObjectId supply [g] as they stand. *)
Fixpoint forEachBaseEvent (fuel : nat) (baseEvents : list EventsCalendar)
    (rangeStart rangeEnd : Date) (allEvents : list EventsCalendar)
    (g : ObjectIdGen) : Outcome (list EventsCalendar * ObjectIdGen) :=
  match baseEvents with
  | [] => Returned (allEvents, g)
  | event :: rest =>
      match recurrence event with
      | Some _ =>
          match generateRecurringEvents shouldCreateOccurrence
                  getNextOccurrenceDate fuel event rangeStart rangeEnd g with
          | Returned (recurringEvents, g') =>
              forEachBaseEvent fuel rest rangeStart rangeEnd
                (allEvents ++ recurringEvents) g'
          | TypeError => TypeError
          | OutOfFuel => OutOfFuel
          end
      | None =>
          if startsInRange event rangeStart rangeEnd then
            forEachBaseEvent fuel rest rangeStart rangeEnd
              (allEvents ++ [event]) g
          else
            forEachBaseEvent fuel rest rangeStart rangeEnd allEvents g
      end
  end.

(** [findEventsInRange(userId, startDate, endDate)]; [fuel] is what each
    call of [generateRecurringEvents] gets. *)
Definition findEventsInRange (fuel : nat) (collection : list EventsCalendar)
    (user : ObjectId) (rangeStart rangeEnd : Date) (g : ObjectIdGen)
    : Outcome (list EventsCalendar * ObjectIdGen) :=
  forEachBaseEvent fuel (findBaseEvents collection user) rangeStart rangeEnd
    [] g.

End Query.

(** Where a returned event can come from: it is a single event of the
    user as stored, starting in the range, or it is an instance made from
    a recurring base event of the user. *)
Definition fromCalendar (collection : list EventsCalendar) (user : ObjectId)
    (rangeStart rangeEnd : Date) (o : EventsCalendar) : Prop :=
  (In o collection
   /\ userId o = user
   /\ isRecurringInstance o = false
   /\ recurrence o = None
   /\ rangeStart <= startDate o <= rangeEnd)
  \/ (exists base r,
        In base collection
        /\ userId base = user
        /\ isRecurringInstance base = false
        /\ recurrence base = Some r
        /\ o = occurrenceEvent base (_id o) (startDate o)
        /\ rangeStart <= startDate o <= rangeEnd).

(** What a recurring base event can contribute at most: its cap, or
    nothing when the cap is negative. *)
Definition contributionBound (event : EventsCalendar) : Z :=
  match recurrence event with
  | Some r => Z.max 0 (maxOccurrencesOf r)
  | None => 1
  end.

(** The number of turns that surely suffices for one base event when
    every turn moves the cursor at least [step] ahead. *)
Definition turnsFor (step : Z) (rangeEnd : Date) (event : EventsCalendar)
    : nat :=
  match recurrence event with
  | Some r =>
      Z.to_nat ((Z.min rangeEnd (maxDateOf r rangeEnd) - startDate event)
                / step + 1)
  | None => O
  end.

(** A calendar with the three sample events of one user, an event of
    another user, and a stored instance. *)
Module Calendar.

Definition dentist : EventsCalendar :=
  {| _id := 4%N;
     userId := 1%N;
     title := "Dentist";
     description := "";
     location := "";
     category := "";
     color := "";
     startDate := utc 2024 1 18 11 0 0;
     duration := 45;
     recurrence := None;
     isRecurringInstance := false;
     parentEventId := None |}.

Definition conference : EventsCalendar :=
  {| _id := 3%N;
     userId := 1%N;
     title := "Conference";
     description := "";
     location := "";
     category := "";
     color := "";
     startDate := utc 2024 3 5 9 0 0;
     duration := 480;
     recurrence := None;
     isRecurringInstance := false;
     parentEventId := None |}.

Definition someoneElses : EventsCalendar :=
  {| _id := 2%N;
     userId := 2%N;
     title := "Private";
     description := "";
     location := "";
     category := "";
     color := "";
     startDate := utc 2024 1 20 9 0 0;
     duration := 30;
     recurrence := None;
     isRecurringInstance := false;
     parentEventId := None |}.

Definition storedInstance : EventsCalendar :=
  {| _id := 1%N;
     userId := 1%N;
     title := "Team Meeting";
     description := "";
     location := "";
     category := "";
     color := "";
     startDate := utc 2024 1 16 9 0 0;
     duration := 60;
     recurrence := None;
     isRecurringInstance := true;
     parentEventId := Some 7%N |}.

Definition collection : list EventsCalendar :=
  [ storedInstance; someoneElses; conference; dentist;
    Samples.monthlyAllHands; Samples.teamMeeting ].

End Calendar.

(** ** Countdown timers

    The service of [timers/countdown] ([CountdownService]) keeps
    countdown documents in a collection, registers a timeout per running
    countdown with the scheduler, and tells the timer gateway to emit
    each new status.  Its operations are embedded as functions on a world
    made of the collection, the scheduler registry, the messages emitted
    so far and the ObjectId supply.  The registry is library code: its
    two calls are parameters that may throw.  The time [new Date()] reads
    is an argument, [now].  A request is taken to run from its query to
    its response without another request in between.

    The methods are embedded in two layers.  The first takes the user id
    and the countdown id as ObjectIds, which is what the queries are made
    with.  The second (module [OnStrings]) takes them as the strings the
    controller passes, and starts with the parse. *)

Module Timers.

(** [enum TimerStatus] of [timer.interface.ts]. *)
Inductive TimerStatus := RUNNING | PAUSED | STOPPED | FINISHED.

#[global] Instance TimerStatus_eq_dec : EqDecision TimerStatus.
Proof. solve_decision. Defined.

(** A [Countdown] document; [null] and [undefined] are [None].  The
    [createdAt] and [updatedAt] stamps of [timestamps: true] are left
    out. *)
Record Countdown := {
  _id : ObjectId;
  userId : ObjectId;
  status : TimerStatus;
  name : string;
  description : option string;
  startedAt : option Date;
  pausedState : option TimerStatus;
  interruptions : option Z;
  duration : Z;
  remainingTime : Z
}.

(** [CreateCountdownDto] *)
Record CreateCountdownDto := {
  dtoName : string;
  dtoDescription : option string;
  dtoDuration : Z
}.

(** How a request ends. *)
Inductive Response (A : Type) : Type :=
| Done (a : A)
| NotFoundException
| NullDereference
| SchedulerThrew.

Arguments Done {A} a.
Arguments NotFoundException {A}.
Arguments NullDereference {A}.
Arguments SchedulerThrew {A}.

(** [server.to(`${type}:${timer._id}`).emit('status', timer)]: the room,
    given by the type and the id, and the document sent. *)
Record StatusMessage := {
  roomType : string;
  roomId : ObjectId;
  payload : Countdown
}.

(** The fields that [pause] assigns. *)
Definition paused (c : Countdown) (remaining : Z) : Countdown :=
  {| _id := _id c; userId := userId c; status := PAUSED; name := name c;
     description := description c; startedAt := startedAt c;
     pausedState := Some PAUSED; interruptions := interruptions c;
     duration := duration c; remainingTime := remaining |}.

(** The fields that [start] assigns. *)
Definition started (c : Countdown) (now : Date) : Countdown :=
  {| _id := _id c; userId := userId c; status := RUNNING; name := name c;
     description := description c; startedAt := Some now;
     pausedState := pausedState c; interruptions := interruptions c;
     duration := duration c; remainingTime := remainingTime c |}.

(** The fields that [resume] assigns. *)
Definition resumed (c : Countdown) (now : Date) : Countdown :=
  {| _id := _id c; userId := userId c; status := RUNNING; name := name c;
     description := description c; startedAt := Some now;
     pausedState := None; interruptions := interruptions c;
     duration := duration c; remainingTime := remainingTime c |}.

(** The fields that [stop] assigns. *)
Definition stopped (c : Countdown) : Countdown :=
  {| _id := _id c; userId := userId c; status := STOPPED; name := name c;
     description := description c; startedAt := None;
     pausedState := None; interruptions := interruptions c;
     duration := duration c; remainingTime := duration c |}.

(** [new this.countdownModel({ ...dto, userId, status: STOPPED,
     remainingTime: dto.duration })] with the schema's defaults. *)
Definition created (id user : ObjectId) (dto : CreateCountdownDto)
    : Countdown :=
  {| _id := id; userId := user; status := STOPPED; name := dtoName dto;
     description := dtoDescription dto; startedAt := None;
     pausedState := None; interruptions := None;
     duration := dtoDuration dto; remainingTime := dtoDuration dto |}.

Section Service.

(** [SchedulerRegistry]: its state, and its two calls, [None] when they
    throw. *)
Variable Registry : Type.
Variable addTimeout : ObjectId -> Z -> Registry -> option Registry.
Variable deleteTimeout : ObjectId -> Registry -> option Registry.

Record World := {
  countdowns : gmap N Countdown;
  registry : Registry;
  emitted : list StatusMessage;
  objectIds : ObjectIdGen
}.

(** [countdown.save()] *)
Definition save (c : Countdown) (w : World) : World :=
  {| countdowns := <[_id c := c]> (countdowns w);
     registry := registry w;
     emitted := emitted w;
     objectIds := objectIds w |}.

(** [this.timerGateway.emitStatus(timer, 'countdown')] *)
Definition emitStatus (c : Countdown) (w : World) : World :=
  {| countdowns := countdowns w;
     registry := registry w;
     emitted := emitted w
                ++ [{| roomType := "countdown"; roomId := _id c;
                       payload := c |}];
     objectIds := objectIds w |}.

Definition withRegistry (r : Registry) (w : World) : World :=
  {| countdowns := countdowns w;
     registry := r;
     emitted := emitted w;
     objectIds := objectIds w |}.

(** [findOne(userId, id)] from its query on, that is, once
    [new Types.ObjectId(id)] and [new Types.ObjectId(userId)] have made
    ObjectIds of the two strings: the document with that id and that
    owner; [None] where the method throws [NotFoundException].  The method
    as called, on the strings, is [OnStrings.findOne] below; so for the
    other methods of this section. *)
Definition findOne (user id : ObjectId) (w : World) : option Countdown :=
  match countdowns w !! id with
  | Some c => if decide (userId c = user) then Some c else None
  | None => None
  end.

(** The common tail of [start] and [resume]:
    [addTimeout(id, duration)], then [emitStatus]. *)
Definition scheduleAndEmit (updated : Countdown) (w : World)
    : Response Countdown * World :=
  match addTimeout (_id updated) (duration updated) (registry w) with
  | Some r => (Done updated, emitStatus updated (withRegistry r w))
  | None => (SchedulerThrew, w)
  end.

(** The common tail of [pause] and [stop]: [deleteTimeout(id)], then
    [emitStatus]. *)
Definition unscheduleAndEmit (updated : Countdown) (w : World)
    : Response Countdown * World :=
  match deleteTimeout (_id updated) (registry w) with
  | Some r => (Done updated, emitStatus updated (withRegistry r w))
  | None => (SchedulerThrew, w)
  end.

(** [create(userId, createCountdownDto)] *)
Definition create (user : ObjectId) (dto : CreateCountdownDto) (w : World)
    : Response Countdown * World :=
  let '(id, g) := newObjectId (objectIds w) in
  let countdown := created id user dto in
  let w1 := {| countdowns := <[id := countdown]> (countdowns w);
               registry := registry w;
               emitted := emitted w;
               objectIds := g |} in
  (Done countdown, emitStatus countdown w1).

(** [start(userId, id)] *)
Definition start (user id : ObjectId) (now : Date) (w : World)
    : Response Countdown * World :=
  match findOne user id w with
  | None => (NotFoundException, w)
  | Some countdown =>
      if decide (status countdown = RUNNING) then (Done countdown, w)
      else
        let updated := started countdown now in
        scheduleAndEmit updated (save updated w)
  end.

(** [pause(userId, id)] *)
Definition pause (user id : ObjectId) (now : Date) (w : World)
    : Response Countdown * World :=
  match findOne user id w with
  | None => (NotFoundException, w)
  | Some countdown =>
      if decide (status countdown = RUNNING) then
        match startedAt countdown with
        | None => (NullDereference, w)
        | Some since =>
            let updated :=
              paused countdown (duration countdown - (now - since)) in
            unscheduleAndEmit updated (save updated w)
        end
      else (Done countdown, w)
  end.

(** [resume(userId, id)] *)
Definition resume (user id : ObjectId) (now : Date) (w : World)
    : Response Countdown * World :=
  match findOne user id w with
  | None => (NotFoundException, w)
  | Some countdown =>
      if decide (status countdown = PAUSED) then
        let updated := resumed countdown now in
        scheduleAndEmit updated (save updated w)
      else (Done countdown, w)
  end.

(** [stop(userId, id)] *)
Definition stop (user id : ObjectId) (w : World)
    : Response Countdown * World :=
  match findOne user id w with
  | None => (NotFoundException, w)
  | Some countdown =>
      if decide (status countdown = STOPPED) then (Done countdown, w)
      else
        let updated := stopped countdown in
        unscheduleAndEmit updated (save updated w)
  end.

(** [delete(userId, id)]: [deleteOne({ _id: countdown._id })]. *)
Definition delete (user id : ObjectId) (w : World)
    : Response unit * World :=
  match findOne user id w with
  | None => (NotFoundException, w)
  | Some countdown =>
      (Done tt,
       {| countdowns := base.delete (_id countdown) (countdowns w);
          registry := registry w;
          emitted := emitted w;
          objectIds := objectIds w |})
  end.

(** [findAll(userId)]: the documents of that owner.  The order in which
    the database lists them is not modelled; the list is used as a set. *)
Definition findAll (user : ObjectId) (w : World) : list Countdown :=
  filter (fun c => userId c = user) (snd <$> map_to_list (countdowns w)).

(** The routes of [CountdownController], each with the user of the
    request's token. *)
Inductive Request :=
| PostCreate (user : ObjectId) (dto : CreateCountdownDto)
| GetAll (user : ObjectId)
| GetOne (user id : ObjectId)
| PostStart (user id : ObjectId) (now : Date)
| PostPause (user id : ObjectId) (now : Date)
| PostResume (user id : ObjectId) (now : Date)
| PostStop (user id : ObjectId)
| DeleteOne (user id : ObjectId).

(** What a route sends back. *)
Inductive Body :=
| OneCountdown (c : Countdown)
| Countdowns (cs : list Countdown)
| NoBody.

Definition respond {A : Type} (body : A -> Body)
    (result : Response A * World) : Response Body * World :=
  (match fst result with
   | Done a => Done (body a)
   | NotFoundException => NotFoundException
   | NullDereference => NullDereference
   | SchedulerThrew => SchedulerThrew
   end, snd result).

(** The controller: each route calls the service method of its name. *)
Definition handle (q : Request) (w : World) : Response Body * World :=
  match q with
  | PostCreate user dto => respond OneCountdown (create user dto w)
  | GetAll user => (Done (Countdowns (findAll user w)), w)
  | GetOne user id =>
      match findOne user id w with
      | Some c => (Done (OneCountdown c), w)
      | None => (NotFoundException, w)
      end
  | PostStart user id now => respond OneCountdown (start user id now w)
  | PostPause user id now => respond OneCountdown (pause user id now w)
  | PostResume user id now => respond OneCountdown (resume user id now w)
  | PostStop user id => respond OneCountdown (stop user id w)
  | DeleteOne user id => respond (fun _ => NoBody) (delete user id w)
  end.

(** The user a request comes from. *)
Definition requester (q : Request) : ObjectId :=
  match q with
  | PostCreate user _ | GetAll user | GetOne user _ | PostStart user _ _
  | PostPause user _ _ | PostResume user _ _ | PostStop user _
  | DeleteOne user _ => user
  end.

(** The world after a sequence of requests, and the responses, first
    request first. *)
Fixpoint handleAll (qs : list Request) (w : World)
    : list (Response Body) * World :=
  match qs with
  | [] => ([], w)
  | q :: rest =>
      let '(r, w1) := handle q w in
      let '(rs, w2) := handleAll rest w1 in
      (r :: rs, w2)
  end.

(** The id a request names, if it names one. *)
Definition target (q : Request) : option ObjectId :=
  match q with
  | PostCreate _ _ | GetAll _ => None
  | GetOne _ id | PostStart _ id _ | PostPause _ id _ | PostResume _ id _
  | PostStop _ id | DeleteOne _ id => Some id
  end.

(** The same request, sent at another time. *)
Definition atTime (now : Date) (q : Request) : Request :=
  match q with
  | PostStart user id _ => PostStart user id now
  | PostPause user id _ => PostPause user id now
  | PostResume user id _ => PostResume user id now
  | _ => q
  end.

(** The updates the four methods save, each with the test that lets it
    through. *)
Inductive Updated (c : Countdown) : Countdown -> Prop :=
| UpdatedByStart now :
    status c <> RUNNING -> Updated c (started c now)
| UpdatedByPause since now :
    status c = RUNNING -> startedAt c = Some since ->
    Updated c (paused c (duration c - (now - since)))
| UpdatedByResume now :
    status c = PAUSED -> Updated c (resumed c now)
| UpdatedByStop :
    status c <> STOPPED -> Updated c (stopped c).

(** What a request for one countdown comes to, whichever of the four
    updates it asks for: nothing is found; or the document is returned
    as it is; or [pause] meets a missing start time; or the update is
    saved, and then either the scheduler throws or the new status is
    emitted. *)
Inductive Served (user id : ObjectId) (w : World)
    : Response Countdown * World -> Prop :=
| ServedNotFound :
    findOne user id w = None ->
    Served user id w (NotFoundException, w)
| ServedAsIs c :
    findOne user id w = Some c ->
    Served user id w (Done c, w)
| ServedNull c :
    findOne user id w = Some c ->
    status c = RUNNING -> startedAt c = None ->
    Served user id w (NullDereference, w)
| ServedThrew c c' :
    findOne user id w = Some c ->
    Updated c c' ->
    Served user id w (SchedulerThrew, save c' w)
| ServedDone c c' r :
    findOne user id w = Some c ->
    Updated c c' ->
    Served user id w (Done c', emitStatus c' (withRegistry r (save c' w))).

(** What the operations keep true of a stored countdown: a running one
    has a start time, a paused one is marked as paused, a stopped one has
    no start time and its whole duration left. *)
Definition consistent (c : Countdown) : Prop :=
  (status c = RUNNING -> startedAt c <> None)
  /\ (status c = PAUSED -> pausedState c = Some PAUSED)
  /\ (status c = STOPPED ->
      startedAt c = None /\ pausedState c = None
      /\ remainingTime c = duration c).

(** What they keep true of the world: documents are stored under their
    id, their ids were issued by the supply, and each is consistent. *)
Definition wellFormed (w : World) : Prop :=
  forall id c,
    countdowns w !! id = Some c ->
    _id c = id /\ (id < objectIds w)%N /\ consistent c.

End Service.

Arguments countdowns {Registry} w.
Arguments registry {Registry} w.
Arguments emitted {Registry} w.
Arguments objectIds {Registry} w.
Arguments save {Registry} c w.
Arguments emitStatus {Registry} c w.
Arguments withRegistry {Registry} r w.
Arguments findOne {Registry} user id w.
Arguments findAll {Registry} user w.
Arguments scheduleAndEmit {Registry} addTimeout updated w.
Arguments unscheduleAndEmit {Registry} deleteTimeout updated w.
Arguments create {Registry} user dto w.
Arguments start {Registry} addTimeout user id now w.
Arguments pause {Registry} deleteTimeout user id now w.
Arguments resume {Registry} addTimeout user id now w.
Arguments stop {Registry} deleteTimeout user id w.
Arguments delete {Registry} user id w.
Arguments respond {Registry A} body result.
Arguments handle {Registry} addTimeout deleteTimeout q w.
Arguments handleAll {Registry} addTimeout deleteTimeout qs w.
Arguments wellFormed {Registry} w.
Arguments Served {Registry} user id w result.

(** *** The ids as they arrive

    The controller hands the service two strings, [req.user.userId] and
    the route parameter [:id]; the service makes an ObjectId of each with
    [new Types.ObjectId(...)] where it builds its query or its document.
    That constructor is library code: it is a parameter here, [None]
    where it throws [BSONError].  In every method the strings are used
    for that and for nothing else. *)
Module OnStrings.

(** How a call on strings ends: the constructor throws, or the method
    goes on with the ObjectIds. *)
Inductive Answer (A : Type) : Type :=
| BSONError
| Responded (r : Response A).

Arguments BSONError {A}.
Arguments Responded {A} r.

Section Parsing.

Variable Registry : Type.
Variable addTimeout : ObjectId -> Z -> Registry -> option Registry.
Variable deleteTimeout : ObjectId -> Registry -> option Registry.
Variable parseObjectId : string -> option ObjectId.

(** [{ _id: new Types.ObjectId(id), userId: new Types.ObjectId(userId) }],
    the filter of [findOne], its properties evaluated in that order. *)
Definition filterOf (user id : string) : option (ObjectId * ObjectId) :=
  match parseObjectId id with
  | Some idParsed =>
      match parseObjectId user with
      | Some userParsed => Some (userParsed, idParsed)
      | None => None
      end
  | None => None
  end.

(** [findOne(userId, id)] *)
Definition findOne (user id : string) (w : World Registry)
    : Answer Countdown :=
  match filterOf user id with
  | Some (userParsed, idParsed) =>
      match Timers.findOne userParsed idParsed w with
      | Some c => Responded (Done c)
      | None => Responded NotFoundException
      end
  | None => BSONError
  end.

(** The methods that begin with [await this.findOne(userId, id)]. *)
Definition afterFindOne {A : Type} (user id : string)
    (method : ObjectId -> ObjectId -> World Registry
              -> Response A * World Registry)
    (w : World Registry) : Answer A * World Registry :=
  match filterOf user id with
  | Some (userParsed, idParsed) =>
      (Responded (fst (method userParsed idParsed w)),
       snd (method userParsed idParsed w))
  | None => (BSONError, w)
  end.

(** [start(userId, id)] *)
Definition start (user id : string) (now : Date) (w : World Registry)
    : Answer Countdown * World Registry :=
  afterFindOne user id
    (fun userParsed idParsed =>
       Timers.start addTimeout userParsed idParsed now) w.

(** [pause(userId, id)] *)
Definition pause (user id : string) (now : Date) (w : World Registry)
    : Answer Countdown * World Registry :=
  afterFindOne user id
    (fun userParsed idParsed =>
       Timers.pause deleteTimeout userParsed idParsed now) w.

(** [resume(userId, id)] *)
Definition resume (user id : string) (now : Date) (w : World Registry)
    : Answer Countdown * World Registry :=
  afterFindOne user id
    (fun userParsed idParsed =>
       Timers.resume addTimeout userParsed idParsed now) w.

(** [stop(userId, id)] *)
Definition stop (user id : string) (w : World Registry)
    : Answer Countdown * World Registry :=
  afterFindOne user id (Timers.stop deleteTimeout) w.

(** [delete(userId, id)] *)
Definition delete (user id : string) (w : World Registry)
    : Answer unit * World Registry :=
  afterFindOne user id Timers.delete w.

(** [create(userId, createCountdownDto)]: the constructor is called in
    the argument of [new this.countdownModel(...)], before a document
    exists. *)
Definition create (user : string) (dto : CreateCountdownDto)
    (w : World Registry) : Answer Countdown * World Registry :=
  match parseObjectId user with
  | Some userParsed =>
      (Responded (fst (Timers.create userParsed dto w)),
       snd (Timers.create userParsed dto w))
  | None => (BSONError, w)
  end.

(** [findAll(userId)] *)
Definition findAll (user : string) (w : World Registry)
    : Answer (list Countdown) :=
  match parseObjectId user with
  | Some userParsed => Responded (Done (Timers.findAll userParsed w))
  | None => BSONError
  end.

(** The routes of [CountdownController], with [req.user.userId] and the
    route parameter as they come. *)
Inductive Request :=
| PostCreate (user : string) (dto : CreateCountdownDto)
| GetAll (user : string)
| GetOne (user id : string)
| PostStart (user id : string) (now : Date)
| PostPause (user id : string) (now : Date)
| PostResume (user id : string) (now : Date)
| PostStop (user id : string)
| DeleteOne (user id : string).

Definition answer {A : Type} (body : A -> Body)
    (result : Answer A * World Registry) : Answer Body * World Registry :=
  (match fst result with
   | BSONError => BSONError
   | Responded r => Responded (fst (respond body (r, snd result)))
   end, snd result).

(** The controller: each route calls the service method of its name. *)
Definition handle (q : Request) (w : World Registry)
    : Answer Body * World Registry :=
  match q with
  | PostCreate user dto => answer OneCountdown (create user dto w)
  | GetAll user => answer Countdowns (findAll user w, w)
  | GetOne user id => answer OneCountdown (findOne user id w, w)
  | PostStart user id now => answer OneCountdown (start user id now w)
  | PostPause user id now => answer OneCountdown (pause user id now w)
  | PostResume user id now => answer OneCountdown (resume user id now w)
  | PostStop user id => answer OneCountdown (stop user id w)
  | DeleteOne user id => answer (fun _ => NoBody) (delete user id w)
  end.

(** The user a request comes from, and the id it names, as strings. *)
Definition requester (q : Request) : string :=
  match q with
  | PostCreate user _ | GetAll user | GetOne user _ | PostStart user _ _
  | PostPause user _ _ | PostResume user _ _ | PostStop user _
  | DeleteOne user _ => user
  end.

Definition target (q : Request) : option string :=
  match q with
  | PostCreate _ _ | GetAll _ => None
  | GetOne _ id | PostStart _ id _ | PostPause _ id _ | PostResume _ id _
  | PostStop _ id | DeleteOne _ id => Some id
  end.

End Parsing.

Arguments findOne {Registry} parseObjectId user id w.
Arguments findAll {Registry} parseObjectId user w.
Arguments create {Registry} parseObjectId user dto w.
Arguments start {Registry} addTimeout parseObjectId user id now w.
Arguments pause {Registry} deleteTimeout parseObjectId user id now w.
Arguments resume {Registry} addTimeout parseObjectId user id now w.
Arguments stop {Registry} deleteTimeout parseObjectId user id w.
Arguments delete {Registry} parseObjectId user id w.
Arguments handle {Registry} addTimeout deleteTimeout parseObjectId q w.

(** A constructor that accepts the strings of 24 hexadecimal digits and
    reads them as a number. *)
Definition hexDigit (a : Ascii.ascii) : option N :=
  let n := Ascii.N_of_ascii a in
  if (48 <=? n)%N && (n <=? 57)%N then Some (n - 48)%N
  else if (97 <=? n)%N && (n <=? 102)%N then Some (n - 87)%N
  else if (65 <=? n)%N && (n <=? 70)%N then Some (n - 55)%N
  else None.

Fixpoint hexValue (s : string) (value : N) : option N :=
  match s with
  | EmptyString => Some value
  | String a rest =>
      match hexDigit a with
      | Some digit => hexValue rest (16 * value + digit)%N
      | None => None
      end
  end.

Definition hexObjectId (s : string) : option ObjectId :=
  if Nat.eqb (String.length s) 24 then hexValue s 0%N else None.

End OnStrings.

(** A registry that remembers the names it holds, refuses a name twice
    and refuses to delete a name it does not hold. *)
Definition namesAdd (name : ObjectId) (ms : Z) (names : gset N)
    : option (gset N) :=
  if decide (name ∈ names) then None else Some ({[name]} ∪ names).

Definition namesDelete (name : ObjectId) (names : gset N)
    : option (gset N) :=
  if decide (name ∈ names) then Some (names ∖ {[name]}) else None.

Definition emptyWorld : World (gset N) :=
  {| countdowns := ∅; registry := ∅; emitted := []; objectIds := 0%N |}.

Definition workout : CreateCountdownDto :=
  {| dtoName := "Workout Countdown";
     dtoDescription := Some "Countdown for my daily workout routine";
     dtoDuration := 300000 |}.

(** A countdown of five minutes is created by user 1, started at one
    second and paused a minute later. *)
Definition session : list Request :=
  [ PostCreate 1%N workout; PostStart 1%N 0%N 1000;
    PostPause 1%N 0%N 61000 ].

Definition pausedWorkout : World (gset N) :=
  snd (handleAll namesAdd namesDelete session emptyWorld).

Definition pausedCountdown : Countdown :=
  paused (started (created 0%N 1%N workout) 1000) 240000.

End Timers.

(** ** Lemmas on the calendar *)

Ltac eval_closed_tests :=
  repeat match goal with
  | |- context [if ?c then _ else _] =>
      let v := eval vm_compute in c in
      lazymatch v with
      | true => change c with true
      | false => change c with false
      end; cbv iota
  end.

Ltac split_tests :=
  repeat match goal with
  | |- context [?a =? ?b] => destruct (Z.eqb_spec a b)
  | |- context [?a <=? ?b] => destruct (Z.leb_spec a b)
  | |- context [?a <? ?b] => destruct (Z.ltb_spec a b)
  end; cbn [orb andb negb].

Lemma marchYearDays_succ Y :
  marchYearDays (Y + 1)
  = marchYearDays Y + 365 + (if isLeapYear (Y + 1) then 1 else 0).
Proof.
  unfold marchYearDays, isLeapYear.
  split_tests; Z.div_mod_to_equations; lia.
Qed.

Lemma daysInMonth_bounds y m : 28 <= daysInMonth y m <= 31.
Proof.
  unfold daysInMonth.
  destruct (m =? 2); [destruct (isLeapYear y); lia |].
  destruct ((m =? 4) || (m =? 6) || (m =? 9) || (m =? 11)); lia.
Qed.

Lemma daysFromCivil_day y m d :
  daysFromCivil y m d = daysFromCivil y m 1 + (d - 1).
Proof. unfold daysFromCivil. lia. Qed.

(** The first of the following month comes [daysInMonth] days after the
    first of a month. *)
Lemma daysFromCivil_next_month y m :
  1 <= m <= 12 ->
  daysFromCivil (if m =? 12 then y + 1 else y) (if m =? 12 then 1 else m + 1) 1
  = daysFromCivil y m 1 + daysInMonth y m.
Proof.
  intros Hm.
  pose proof (marchYearDays_succ (y - 1)) as Hy.
  replace (y - 1 + 1) with y in Hy by lia.
  assert (Hc : m = 1 \/ m = 2 \/ m = 3 \/ m = 4 \/ m = 5 \/ m = 6 \/ m = 7
               \/ m = 8 \/ m = 9 \/ m = 10 \/ m = 11 \/ m = 12) by lia.
  destruct Hc as [-> | [-> | [-> | [-> | [-> | [-> | [-> | [-> | [-> | [->
                 | [-> | ->]]]]]]]]]]];
    unfold daysFromCivil, daysInMonth; eval_closed_tests;
    try replace (y + 1 - 1) with y by lia;
    destruct (isLeapYear y); Z.div_mod_to_equations; lia.
Qed.

Lemma firstOfMonth_succ M :
  firstOfMonth (M + 1) = firstOfMonth M + daysInMonth (M / 12) (M mod 12 + 1).
Proof.
  unfold firstOfMonth.
  rewrite <- daysFromCivil_next_month by (Z.div_mod_to_equations; lia).
  destruct (Z.eqb_spec (M mod 12 + 1) 12) as [E | E].
  - replace ((M + 1) / 12) with (M / 12 + 1) by (Z.div_mod_to_equations; lia).
    replace ((M + 1) mod 12 + 1) with 1 by (Z.div_mod_to_equations; lia).
    reflexivity.
  - replace ((M + 1) / 12) with (M / 12) by (Z.div_mod_to_equations; lia).
    replace ((M + 1) mod 12 + 1) with (M mod 12 + 1 + 1)
      by (Z.div_mod_to_equations; lia).
    reflexivity.
Qed.

Lemma firstOfMonth_mono M k : 0 <= k -> firstOfMonth M <= firstOfMonth (M + k).
Proof.
  intros Hk. revert k Hk. apply natlike_ind.
  - rewrite Z.add_0_r. lia.
  - intros k Hk IH. replace (M + Z.succ k) with (M + k + 1) by lia.
    rewrite firstOfMonth_succ.
    pose proof (daysInMonth_bounds ((M + k) / 12) ((M + k) mod 12 + 1)). lia.
Qed.

Lemma year_of_era_bounds doe :
  0 <= doe < 146097 ->
  let yoe := (doe - doe / 1460 + doe / 36524 - doe / 146096) / 365 in
  let doy := doe - (365 * yoe + yoe / 4 - yoe / 100) in
  0 <= yoe < 400 /\ 0 <= doy /\
  doy < 365 + (if isLeapYear (yoe + 1) then 1 else 0).
Proof.
  intros Hdoe yoe doy. subst doy yoe. unfold isLeapYear.
  split_tests; Z.div_mod_to_equations; lia.
Qed.

Lemma month_of_year_bounds doy :
  0 <= doy <= 365 ->
  let mp := (5 * doy + 2) / 153 in
  let d := doy - (153 * mp + 2) / 5 + 1 in
  0 <= mp <= 11 /\ 1 <= d /\
  d <= (if mp =? 11 then doy - 336
        else if (mp =? 1) || (mp =? 3) || (mp =? 6) || (mp =? 8) then 30
        else 31).
Proof.
  intros Hdoy mp d. subst d mp.
  split_tests; Z.div_mod_to_equations; lia.
Qed.

Lemma isLeapYear_era y k : isLeapYear (y + k * 400) = isLeapYear y.
Proof.
  unfold isLeapYear.
  replace ((y + k * 400) mod 4) with (y mod 4)
    by (Z.div_mod_to_equations; lia).
  replace ((y + k * 400) mod 100) with (y mod 100)
    by (Z.div_mod_to_equations; lia).
  replace ((y + k * 400) mod 400) with (y mod 400)
    by (Z.div_mod_to_equations; lia).
  reflexivity.
Qed.

Lemma marchYearDays_era yoe era :
  0 <= yoe < 400 ->
  marchYearDays (yoe + era * 400)
  = era * 146097 + yoe * 365 + yoe / 4 - yoe / 100.
Proof.
  intros H. unfold marchYearDays.
  replace ((yoe + era * 400) / 400) with era by (Z.div_mod_to_equations; lia).
  replace (yoe + era * 400 - era * 400) with yoe by lia. reflexivity.
Qed.

(** [civilFromDays] yields a valid civil date, and [daysFromCivil] maps it
    back to the day number. *)
Lemma civilFromDays_spec z y m d :
  civilFromDays z = (y, m, d) ->
  daysFromCivil y m d = z /\ 1 <= m <= 12 /\ 1 <= d <= daysInMonth y m.
Proof.
  unfold civilFromDays.
  set (era := (z + 719468) / 146097).
  set (doe := z + 719468 - era * 146097).
  assert (Hdoe : 0 <= doe < 146097)
    by (subst doe era; Z.div_mod_to_equations; lia).
  pose proof (year_of_era_bounds doe Hdoe) as Hy. cbv zeta in Hy.
  set (yoe := (doe - doe / 1460 + doe / 36524 - doe / 146096) / 365) in *.
  set (doy := doe - (365 * yoe + yoe / 4 - yoe / 100)) in *.
  destruct Hy as (Hyoe & Hdoy0 & Hdoy1).
  assert (Hdoy : 0 <= doy <= 365) by (destruct (isLeapYear (yoe + 1)); lia).
  pose proof (month_of_year_bounds doy Hdoy) as Hm. cbv zeta in Hm.
  set (mp := (5 * doy + 2) / 153) in *.
  set (dd := doy - (153 * mp + 2) / 5 + 1) in *.
  destruct Hm as (Hmp & Hd1 & Hd2).
  intros E. injection E as <- <- <-.
  assert (Hz : z = era * 146097 + doe - 719468) by (subst doe; lia).
  unfold daysFromCivil, daysInMonth.
  destruct (Z.ltb_spec mp 10) as [Hlt | Hge].
  - (* March to December: the civil year is the March year *)
    replace (mp + 3 <=? 2) with false by (symmetry; apply Z.leb_gt; lia).
    replace (yoe + era * 400 + 0) with (yoe + era * 400) by lia.
    rewrite marchYearDays_era by done.
    replace (mp + 3 - 3) with mp by lia.
    split; [subst dd doy; lia |]. split; [lia |]. split; [lia |].
    revert Hd2. split_tests; lia.
  - (* January and February belong to the next civil year *)
    replace (mp - 9 <=? 2) with true by (symmetry; apply Z.leb_le; lia).
    replace (yoe + era * 400 + 1 - 1) with (yoe + era * 400) by lia.
    rewrite marchYearDays_era by done.
    replace (mp - 9 + 9) with mp by lia.
    split; [subst dd doy; lia |]. split; [lia |]. split; [lia |].
    replace (yoe + era * 400 + 1) with (yoe + 1 + era * 400) by lia.
    rewrite isLeapYear_era.
    revert Hd2. destruct (isLeapYear (yoe + 1)); split_tests; lia.
Qed.

(** Moving [k >= 1] months ahead moves at least one day ahead. *)
Lemma addMonths_progress t k : 1 <= k -> t + msPerDay <= addMonths t k.
Proof.
  intros Hk. unfold addMonths.
  destruct (civilFromDays (t / msPerDay)) as [[y m] d] eqn:E.
  apply civilFromDays_spec in E as (Hday & Hm & Hd).
  set (M0 := 12 * y + (m - 1)).
  assert (Hy : M0 / 12 = y) by (subst M0; Z.div_mod_to_equations; lia).
  assert (Hmm : M0 mod 12 + 1 = m) by (subst M0; Z.div_mod_to_equations; lia).
  pose proof (firstOfMonth_succ M0) as Hs. rewrite Hy, Hmm in Hs.
  pose proof (firstOfMonth_mono (M0 + 1) (k - 1) ltac:(lia)) as Hmono.
  replace (M0 + 1 + (k - 1)) with (M0 + k) in Hmono by lia.
  assert (H0 : firstOfMonth M0 = daysFromCivil y m 1)
    by (unfold firstOfMonth; rewrite Hy, Hmm; reflexivity).
  rewrite (daysFromCivil_day y m d) in Hday.
  rewrite daysFromCivil_day. fold (firstOfMonth (M0 + k)).
  pose proof (daysInMonth_bounds ((M0 + k) / 12) ((M0 + k) mod 12 + 1)) as Hb.
  assert (Hnew : t / msPerDay + 1
                 <= firstOfMonth (M0 + k)
                    + (Z.min d (daysInMonth ((M0 + k) / 12) ((M0 + k) mod 12 + 1)) - 1))
    by lia.
  unfold msPerDay in *. Z.div_mod_to_equations. lia.
Qed.

(** The enum's number of a date's weekday is [getUTCDay], with Sunday
    counted as 7. *)
Lemma dayNumber_weekdayOf t :
  dayNumber (weekdayOf t) = if getUTCDay t =? 0 then 7 else getUTCDay t.
Proof.
  unfold weekdayOf.
  assert (H : 0 <= getUTCDay t < 7)
    by (unfold getUTCDay; apply Z.mod_pos_bound; lia).
  destruct (getUTCDay t) as [| p | p]; [reflexivity | | lia].
  do 3 (destruct p as [p | p |]; try reflexivity; try lia).
Qed.

(** Dates of the README, as time values. *)
Example utc_2024_01_15 : utc 2024 1 15 9 0 0 = 1705309200000.
Proof. reflexivity. Qed.

Example monday_2024_01_15 : weekdayOf (utc 2024 1 15 9 0 0) = MONDAY.
Proof. reflexivity. Qed.

Example civil_2024_02_29 : civilFromDays (daysFromCivil 2024 2 29) = (2024, 2, 29).
Proof. reflexivity. Qed.

(** January 31 plus one month is the last day of February. *)
Example addMonths_clamps :
  addMonths (utc 2024 1 31 10 0 0) 1 = utc 2024 2 29 10 0 0
  /\ addMonths (utc 2023 1 31 10 0 0) 1 = utc 2023 2 28 10 0 0.
Proof. split; reflexivity. Qed.

(** The clamp policy of the monthly helpers: a rule seeded on 31 January
    goes on to 29 February and keeps the 29th from there. *)
Example monthly_rule_keeps_the_clamped_day :
  map (fun k : nat =>
         Nat.iter k
           (fun c => Helpers.getNextOccurrenceDate c Samples.monthlyRule)
           (utc 2024 1 31 10 0 0))
      [0; 1; 2; 3]%nat
  = [ utc 2024 1 31 10 0 0; utc 2024 2 29 10 0 0; utc 2024 3 29 10 0 0;
      utc 2024 4 29 10 0 0 ]
  /\ Forall (fun d => Helpers.shouldCreateOccurrence d Samples.monthlyRule
                      = true)
       [ utc 2024 2 29 10 0 0; utc 2024 3 29 10 0 0 ].
Proof.
  split; [vm_compute; reflexivity |].
  repeat constructor.
Qed.

Lemma effectiveInterval_pos r : 1 <= Helpers.effectiveInterval r.
Proof.
  unfold Helpers.effectiveInterval.
  destruct (interval r) as [n |]; [| lia].
  destruct (Z.ltb_spec 0 n); lia.
Qed.

(** Whatever the rule, the modelled [getNextOccurrenceDate] moves the
    cursor at least one day ahead. *)
Lemma getNextOccurrenceDate_progress d r :
  d + msPerDay <= Helpers.getNextOccurrenceDate d r.
Proof.
  pose proof (effectiveInterval_pos r) as Hn.
  unfold Helpers.getNextOccurrenceDate, addDays.
  destruct (frequency r).
  - unfold msPerDay. nia.
  - destruct (daysOfWeek r) as [[| day days] |];
      try destruct (weekdayOf _); unfold msPerDay; nia.
  - apply addMonths_progress, Hn.
Qed.

(** ** Reasoning about [while] *)

Section While.

Context {S : Type} (cond : S -> bool) (body : S -> S).

(** A property kept by every turn still holds when the loop is left,
    and the loop condition is then false. *)
Lemma while_invariant (Inv : S -> Prop) :
  (forall st, Inv st -> cond st = true -> Inv (body st)) ->
  forall fuel st st',
    Inv st -> while fuel cond body st = Some st' ->
    Inv st' /\ cond st' = false.
Proof.
  intros Hstep fuel. induction fuel as [| fuel IH]; intros st st' Hinv Hrun;
    cbn [while] in Hrun; destruct (cond st) eqn:Hc; try discriminate.
  - injection Hrun as <-. auto.
  - eapply IH; [| exact Hrun]. auto.
  - injection Hrun as <-. auto.
Qed.

(** More fuel does not change a result. *)
Lemma while_fuel_mono fuel fuel' st st' :
  (fuel <= fuel')%nat ->
  while fuel cond body st = Some st' ->
  while fuel' cond body st = Some st'.
Proof.
  revert fuel' st. induction fuel as [| fuel IH]; intros fuel' st Hle Hrun;
    cbn [while] in Hrun; destruct (cond st) eqn:Hc; try discriminate.
  - destruct fuel'; cbn [while]; rewrite Hc; exact Hrun.
  - destruct fuel' as [| fuel']; [lia |].
    cbn [while]. rewrite Hc. apply IH; [lia | exact Hrun].
  - destruct fuel'; cbn [while]; rewrite Hc; exact Hrun.
Qed.

(** The result does not depend on the fuel. *)
Lemma while_deterministic fuel1 fuel2 st st1 st2 :
  while fuel1 cond body st = Some st1 ->
  while fuel2 cond body st = Some st2 ->
  st1 = st2.
Proof.
  intros H1 H2.
  apply (while_fuel_mono _ (Nat.max fuel1 fuel2)) in H1; [| lia].
  apply (while_fuel_mono _ (Nat.max fuel1 fuel2)) in H2; [| lia].
  congruence.
Qed.

(** A measure that every turn decreases bounds the number of turns. *)
Lemma while_terminates (measure : S -> nat) :
  (forall st, cond st = true -> (measure (body st) < measure st)%nat) ->
  forall fuel st, (measure st <= fuel)%nat ->
    exists st', while fuel cond body st = Some st'.
Proof.
  intros Hdec fuel. induction fuel as [| fuel IH]; intros st Hm;
    cbn [while]; destruct (cond st) eqn:Hc; eauto.
  - apply Hdec in Hc. lia.
  - apply IH. apply Hdec in Hc. lia.
Qed.

End While.

(** Two loops whose states stay related turn for turn end in related
    states. *)
Lemma while_related {S T : Type} (R : S -> T -> Prop)
    (cond1 : S -> bool) (body1 : S -> S) (cond2 : T -> bool) (body2 : T -> T) :
  (forall s t, R s t -> cond1 s = cond2 t) ->
  (forall s t, R s t -> cond1 s = true -> R (body1 s) (body2 t)) ->
  forall fuel1 fuel2 s t s' t',
    R s t ->
    while fuel1 cond1 body1 s = Some s' ->
    while fuel2 cond2 body2 t = Some t' ->
    R s' t'.
Proof.
  intros Hcond Hbody fuel1.
  induction fuel1 as [| fuel1 IH]; intros fuel2 s t s' t' HR H1 H2;
    cbn [while] in H1; destruct (cond1 s) eqn:Hc; try discriminate.
  - injection H1 as <-. rewrite (Hcond s t HR) in Hc.
    destruct fuel2; cbn [while] in H2; rewrite Hc in H2;
      injection H2 as <-; exact HR.
  - pose proof Hc as Hc2. rewrite (Hcond s t HR) in Hc2.
    destruct fuel2 as [| fuel2]; cbn [while] in H2; rewrite Hc2 in H2;
      [discriminate |].
    eapply IH; [| exact H1 | exact H2]. auto.
  - injection H1 as <-. rewrite (Hcond s t HR) in Hc.
    destruct fuel2; cbn [while] in H2; rewrite Hc in H2;
      injection H2 as <-; exact HR.
Qed.

(** ** Reasoning about [generateRecurringEvents] *)

Section ExpanderFacts.

Variable shouldCreateOccurrence : Date -> RecurrencePattern -> bool.
Variable getNextOccurrenceDate : Date -> RecurrencePattern -> Date.

Local Abbreviation body := (loopBody shouldCreateOccurrence getNextOccurrenceDate).

(** A call that returns went through the loop. *)
Lemma generate_returned fuel baseEvent r rangeStart rangeEnd g evs g' :
  recurrence baseEvent = Some r ->
  generateRecurringEvents shouldCreateOccurrence getNextOccurrenceDate
    fuel baseEvent rangeStart rangeEnd g = Returned (evs, g') ->
  exists st,
    while fuel (loopCondition (maxDateOf r rangeEnd) rangeEnd (maxOccurrencesOf r))
      (body baseEvent r rangeStart) (initialState baseEvent g) = Some st
    /\ evs = events st /\ g' = idGen st.
Proof.
  intros Hr. unfold generateRecurringEvents. rewrite Hr.
  destruct (while _ _ _ _) as [st |]; [| discriminate].
  intros [= <- <-]. eauto.
Qed.

(** Invariant rule for the whole method. *)
Lemma generate_invariant (Inv : LoopState -> Prop)
    fuel baseEvent r rangeStart rangeEnd g evs g' :
  recurrence baseEvent = Some r ->
  Inv (initialState baseEvent g) ->
  (forall st, Inv st ->
     loopCondition (maxDateOf r rangeEnd) rangeEnd (maxOccurrencesOf r) st = true ->
     Inv (body baseEvent r rangeStart st)) ->
  generateRecurringEvents shouldCreateOccurrence getNextOccurrenceDate
    fuel baseEvent rangeStart rangeEnd g = Returned (evs, g') ->
  exists st, Inv st /\ evs = events st /\ g' = idGen st
    /\ loopCondition (maxDateOf r rangeEnd) rangeEnd (maxOccurrencesOf r) st = false.
Proof.
  intros Hr Hinit Hstep Hrun.
  destruct (generate_returned _ _ _ _ _ _ _ _ Hr Hrun) as (st & Hw & -> & ->).
  destruct (while_invariant _ _ Inv Hstep _ _ _ Hinit Hw) as [Hi Hc].
  eauto.
Qed.

(** The loop condition, spelled out. *)
Lemma loopCondition_true maxDate rangeEnd maxOcc st :
  loopCondition maxDate rangeEnd maxOcc st = true ->
  currentDate st <= maxDate /\ currentDate st <= rangeEnd
  /\ occurrenceCount st < maxOcc.
Proof. unfold loopCondition. lia. Qed.

(** One turn either pushes one occurrence, dated at the cursor, with a
    new id, or leaves the array alone. *)
Lemma createOccurrence_cases baseEvent r rangeStart st :
  let st1 := createOccurrence shouldCreateOccurrence baseEvent r rangeStart st in
  (rangeStart <= currentDate st
   /\ shouldCreateOccurrence (currentDate st) r = true
   /\ st1 = {| currentDate := currentDate st;
               occurrenceCount := occurrenceCount st + 1;
               events := events st
                         ++ [occurrenceEvent baseEvent (idGen st) (currentDate st)];
               idGen := N.succ (idGen st) |})
  \/ ((currentDate st < rangeStart
       \/ shouldCreateOccurrence (currentDate st) r = false)
      /\ st1 = st).
Proof.
  unfold createOccurrence.
  destruct (Z.leb_spec rangeStart (currentDate st)); [| right; auto].
  destruct (shouldCreateOccurrence (currentDate st) r); [left | right]; auto.
Qed.

(** With a helper that moves the cursor ahead by at least [step], the
    loop is left after finitely many turns: the cursor cannot stay at or
    below the earlier of [rangeEnd] and [maxDate] for longer. *)
Lemma generate_terminates baseEvent r rangeStart rangeEnd g step :
  0 < step ->
  recurrence baseEvent = Some r ->
  (forall d, d + step <= getNextOccurrenceDate d r) ->
  forall fuel,
    (Z.to_nat ((Z.min rangeEnd (maxDateOf r rangeEnd) - startDate baseEvent)
               / step + 1) <= fuel)%nat ->
    exists evs g',
      generateRecurringEvents shouldCreateOccurrence getNextOccurrenceDate
        fuel baseEvent rangeStart rangeEnd g = Returned (evs, g').
Proof.
  intros Hstep Hr Hnext fuel Hfuel. unfold generateRecurringEvents. rewrite Hr.
  set (bound := Z.min rangeEnd (maxDateOf r rangeEnd)) in *.
  destruct (while_terminates
              (loopCondition (maxDateOf r rangeEnd) rangeEnd (maxOccurrencesOf r))
              (body baseEvent r rangeStart)
              (fun st => Z.to_nat ((bound - currentDate st) / step + 1)))
    with (fuel := fuel) (st := initialState baseEvent g) as [st Hst].
  - intros st Hc. apply loopCondition_true in Hc as (Hc1 & Hc2 & _).
    cbn [loopBody currentDate].
    pose proof (Hnext (currentDate
      (createOccurrence shouldCreateOccurrence baseEvent r rangeStart st))) as Hn.
    assert (E : currentDate
      (createOccurrence shouldCreateOccurrence baseEvent r rangeStart st)
      = currentDate st).
    { destruct (createOccurrence_cases baseEvent r rangeStart st)
        as [(_ & _ & E) | (_ & E)]; rewrite E; reflexivity. }
    rewrite E in *.
    set (c := currentDate st) in *.
    set (n := getNextOccurrenceDate c r) in *.
    assert ((bound - n) / step + 1 <= (bound - c) / step).
    { replace (bound - c) with ((bound - c - step) + 1 * step) by lia.
      rewrite Z.div_add by lia.
      assert ((bound - n) / step <= (bound - c - step) / step)
        by (apply Z.div_le_mono; lia).
      lia. }
    assert (0 <= (bound - c) / step) by (apply Z.div_pos; lia).
    lia.
  - exact Hfuel.
  - rewrite Hst. eauto.
Qed.

(** The result of a call does not depend on the fuel. *)
Lemma generate_deterministic fuel1 fuel2 baseEvent rangeStart rangeEnd g res1 res2 :
  generateRecurringEvents shouldCreateOccurrence getNextOccurrenceDate
    fuel1 baseEvent rangeStart rangeEnd g = Returned res1 ->
  generateRecurringEvents shouldCreateOccurrence getNextOccurrenceDate
    fuel2 baseEvent rangeStart rangeEnd g = Returned res2 ->
  res1 = res2.
Proof.
  unfold generateRecurringEvents.
  destruct (recurrence baseEvent) as [r |]; [| discriminate].
  destruct (while fuel1 _ _ _) as [st1 |] eqn:H1; [| discriminate].
  destruct (while fuel2 _ _ _) as [st2 |] eqn:H2; [| discriminate].
  intros [= <-] [= <-].
  rewrite (while_deterministic _ _ _ _ _ _ _ H1 H2). reflexivity.
Qed.

Lemma reachedFrom_next r seed d :
  reachedFrom getNextOccurrenceDate r seed d ->
  reachedFrom getNextOccurrenceDate r seed (getNextOccurrenceDate d r).
Proof. intros [k ->]. exists (S k). reflexivity. Qed.

(** The cursor after a turn is the helper's answer on the cursor before. *)
Lemma loopBody_currentDate baseEvent r rangeStart st :
  currentDate (body baseEvent r rangeStart st)
  = getNextOccurrenceDate (currentDate st) r.
Proof.
  cbn [loopBody currentDate].
  destruct (createOccurrence_cases baseEvent r rangeStart st)
    as [(_ & _ & E) | (_ & E)]; rewrite E; reflexivity.
Qed.

(** A candidate before [rangeStart] changes neither the counter nor the
    array: the turn only moves the cursor. *)
Lemma turn_before_rangeStart baseEvent r rangeStart st :
  currentDate st < rangeStart ->
  body baseEvent r rangeStart st
  = {| currentDate := getNextOccurrenceDate (currentDate st) r;
       occurrenceCount := occurrenceCount st;
       events := events st;
       idGen := idGen st |}.
Proof.
  intros Hlt. unfold loopBody, createOccurrence.
  destruct (Z.leb_spec rangeStart (currentDate st)); [lia | reflexivity].
Qed.

(** The counter is the length of the array, and never passes the cap. *)
Lemma generate_count fuel baseEvent r rangeStart rangeEnd g evs g' :
  recurrence baseEvent = Some r ->
  generateRecurringEvents shouldCreateOccurrence getNextOccurrenceDate
    fuel baseEvent rangeStart rangeEnd g = Returned (evs, g') ->
  Z.of_nat (length evs) <= Z.max 0 (maxOccurrencesOf r).
Proof.
  intros Hr Hrun.
  destruct (generate_invariant
    (fun st => Z.of_nat (length (events st)) = occurrenceCount st
               /\ occurrenceCount st <= Z.max 0 (maxOccurrencesOf r))
    fuel baseEvent r rangeStart rangeEnd g evs g' Hr)
    as (st & [Hlen Hcap] & -> & _); [| | exact Hrun |].
  - cbn. lia.
  - intros st [Hlen Hcap] Hc. apply loopCondition_true in Hc as (_ & _ & Hc).
    cbn [loopBody occurrenceCount events].
    destruct (createOccurrence_cases baseEvent r rangeStart st)
      as [(_ & _ & E) | (_ & E)]; rewrite E; cbn [occurrenceCount events].
    + rewrite length_app. cbn [length]. lia.
    + lia.
  - lia.
Qed.

(** A call draws one id for each occurrence it returns, and none
    besides. *)
Lemma generate_supply fuel baseEvent r rangeStart rangeEnd g evs g' :
  recurrence baseEvent = Some r ->
  generateRecurringEvents shouldCreateOccurrence getNextOccurrenceDate
    fuel baseEvent rangeStart rangeEnd g = Returned (evs, g') ->
  g' = (g + N.of_nat (length evs))%N.
Proof.
  intros Hr Hrun.
  destruct (generate_invariant
    (fun st => idGen st = (g + N.of_nat (length (events st)))%N)
    fuel baseEvent r rangeStart rangeEnd g evs g' Hr)
    as (st & Hg & -> & -> & _); [| | exact Hrun | exact Hg].
  - cbn. lia.
  - intros st Hg _. cbn [loopBody idGen events].
    destruct (createOccurrence_cases baseEvent r rangeStart st)
      as [(_ & _ & E) | (_ & E)]; rewrite E; cbn [idGen events]; [| exact Hg].
    rewrite length_app. cbn [length]. lia.
Qed.

(** C10. When the rule has no [maxOccurrences], or has it equal to zero,
    one call returns at most 100 occurrences: the cap put in place of the
    missing one is the constant 100. *)
Theorem default_cap_is_100 fuel baseEvent r rangeStart rangeEnd g evs g' :
  recurrence baseEvent = Some r ->
  maxOccurrences r = None \/ maxOccurrences r = Some 0 ->
  generateRecurringEvents shouldCreateOccurrence getNextOccurrenceDate
    fuel baseEvent rangeStart rangeEnd g = Returned (evs, g') ->
  (length evs <= 100)%nat.
Proof.
  intros Hr Hmax Hrun.
  pose proof (generate_count _ _ _ _ _ _ _ _ Hr Hrun) as Hlen.
  assert (E : maxOccurrencesOf r = 100)
    by (unfold maxOccurrencesOf; destruct Hmax as [-> | ->]; reflexivity).
  rewrite E in Hlen. lia.
Qed.

(** X3. One call never returns more occurrences than a positive
    [maxOccurrences]. *)
Lemma single_call_cap fuel baseEvent r rangeStart rangeEnd g evs g' n :
  recurrence baseEvent = Some r ->
  maxOccurrences r = Some n -> 0 < n ->
  generateRecurringEvents shouldCreateOccurrence getNextOccurrenceDate
    fuel baseEvent rangeStart rangeEnd g = Returned (evs, g') ->
  Z.of_nat (length evs) <= n.
Proof.
  intros Hr Hmax Hn Hrun.
  pose proof (generate_count _ _ _ _ _ _ _ _ Hr Hrun) as Hlen.
  assert (E : maxOccurrencesOf r = n).
  { unfold maxOccurrencesOf. rewrite Hmax.
    destruct (Z.eqb_spec n 0); [lia | reflexivity]. }
  rewrite E in Hlen. lia.
Qed.

(** C2. Every returned occurrence starts inside the query range, not
    before the base event, and not after the rule's [endDate] when there
    is one.  The bound by the base event's start needs a helper that never
    moves the cursor backwards. *)
Theorem occurrences_within_bounds fuel baseEvent r rangeStart rangeEnd g evs g' :
  recurrence baseEvent = Some r ->
  (forall d, d <= getNextOccurrenceDate d r) ->
  generateRecurringEvents shouldCreateOccurrence getNextOccurrenceDate
    fuel baseEvent rangeStart rangeEnd g = Returned (evs, g') ->
  Forall (fun o =>
            rangeStart <= startDate o <= rangeEnd
            /\ startDate baseEvent <= startDate o
            /\ (forall e, endDate r = Some e -> startDate o <= e)) evs.
Proof.
  intros Hr Hnext Hrun.
  destruct (generate_invariant
    (fun st => startDate baseEvent <= currentDate st
               /\ Forall (fun o =>
                            rangeStart <= startDate o <= rangeEnd
                            /\ startDate baseEvent <= startDate o
                            /\ startDate o <= maxDateOf r rangeEnd) (events st))
    fuel baseEvent r rangeStart rangeEnd g evs g' Hr)
    as (st & [_ Hall] & -> & _); [| | exact Hrun |].
  - cbn. split; [lia | constructor].
  - intros st [Hcur Hall] Hc. apply loopCondition_true in Hc as (Hmax & Hend & _).
    split.
    + rewrite loopBody_currentDate. pose proof (Hnext (currentDate st)). lia.
    + cbn [loopBody events].
      destruct (createOccurrence_cases baseEvent r rangeStart st)
        as [(Hrs & _ & E) | (_ & E)]; rewrite E; cbn [events]; [| exact Hall].
      apply Forall_app. split; [exact Hall |].
      constructor; [| constructor]. cbn [occurrenceEvent startDate]. lia.
  - eapply Forall_impl; [exact Hall |].
    intros o (H1 & H2 & H3). repeat split; try lia.
    intros e He. unfold maxDateOf in H3. rewrite He in H3. exact H3.
Qed.

Lemma generate_occurrences fuel baseEvent r rangeStart rangeEnd g evs g' :
  recurrence baseEvent = Some r ->
  generateRecurringEvents shouldCreateOccurrence getNextOccurrenceDate
    fuel baseEvent rangeStart rangeEnd g = Returned (evs, g') ->
  Forall (isOccurrenceOf shouldCreateOccurrence getNextOccurrenceDate baseEvent r g g') evs /\ NoDup (map _id evs).
Proof.
  intros Hr Hrun.
  destruct (generate_invariant
    (fun st => (g <= idGen st)%N
               /\ reachedFrom getNextOccurrenceDate r (startDate baseEvent) (currentDate st)
               /\ Forall (isOccurrenceOf shouldCreateOccurrence getNextOccurrenceDate baseEvent r g (idGen st)) (events st)
               /\ NoDup (map _id (events st)))
    fuel baseEvent r rangeStart rangeEnd g evs g' Hr)
    as (st & (_ & _ & Hall & Hnd) & -> & -> & _); [| | exact Hrun | auto].
  - cbn. repeat split; [lia | exists O; reflexivity | constructor | constructor].
  - intros st (Hg & Hreach & Hall & Hnd) _.
    rewrite loopBody_currentDate. cbn [loopBody idGen events].
    destruct (createOccurrence_cases baseEvent r rangeStart st)
      as [(_ & Hshould & E) | (_ & E)]; rewrite E; cbn [idGen events].
    + split; [lia |]. split; [apply reachedFrom_next, Hreach |]. split.
      * apply Forall_app. split.
        -- eapply Forall_impl; [exact Hall |].
           intros o (H1 & H2 & H3 & H4). repeat split; auto; lia.
        -- constructor; [| constructor].
           unfold isOccurrenceOf. cbn [occurrenceEvent _id startDate].
           repeat split; auto; lia.
      * rewrite map_app. apply NoDup_app. split; [exact Hnd |]. split.
        -- intros x Hx Hx'. apply list_elem_of_fmap in Hx as (o & -> & Ho).
           rewrite Forall_forall in Hall. apply Hall in Ho as (_ & Hlt & _).
           cbn in Hx'. apply list_elem_of_singleton in Hx'. lia.
        -- cbn. apply NoDup_singleton.
    + split; [exact Hg |]. split; [apply reachedFrom_next, Hreach |].
      split; [exact Hall | exact Hnd].
Qed.

(** C3. Every returned occurrence carries the base event's title,
    description, location, category, color, duration, userId (and rule);
    its id is new: different from the base event's id, which the supply
    issued earlier, and from the id of every other returned occurrence;
    its startDate is a cursor position that the candidate test accepted;
    it is flagged as a recurring instance and points to the base event as
    its parent. *)
Theorem occurrences_copy_base_event
    fuel baseEvent r rangeStart rangeEnd g evs g' :
  recurrence baseEvent = Some r ->
  (_id baseEvent < g)%N ->
  generateRecurringEvents shouldCreateOccurrence getNextOccurrenceDate
    fuel baseEvent rangeStart rangeEnd g = Returned (evs, g') ->
  Forall (fun o =>
            title o = title baseEvent
            /\ description o = description baseEvent
            /\ location o = location baseEvent
            /\ category o = category baseEvent
            /\ color o = color baseEvent
            /\ duration o = duration baseEvent
            /\ userId o = userId baseEvent
            /\ recurrence o = recurrence baseEvent
            /\ _id o <> _id baseEvent
            /\ reachedFrom getNextOccurrenceDate r (startDate baseEvent) (startDate o)
            /\ shouldCreateOccurrence (startDate o) r = true
            /\ isRecurringInstance o = true
            /\ parentEventId o = Some (_id baseEvent)) evs
  /\ NoDup (map _id evs).
Proof.
  intros Hr Hid Hrun.
  destruct (generate_occurrences _ _ _ _ _ _ _ _ Hr Hrun) as (Hall & Hnd).
  split; [| exact Hnd].
  eapply Forall_impl; [exact Hall |].
  intros o (Ho & Hrange & Hreach & Hshould).
  repeat split; try (rewrite Ho; reflexivity); auto. lia.
Qed.

(** The occurrences pushed so far are in ascending order and all before
    the cursor, when the helper moves the cursor ahead. *)
Lemma generate_sorted fuel baseEvent r rangeStart rangeEnd g evs g' :
  recurrence baseEvent = Some r ->
  (forall d, d < getNextOccurrenceDate d r) ->
  generateRecurringEvents shouldCreateOccurrence getNextOccurrenceDate
    fuel baseEvent rangeStart rangeEnd g = Returned (evs, g') ->
  StronglySorted (fun a b => startDate a < startDate b) evs.
Proof.
  intros Hr Hnext Hrun.
  destruct (generate_invariant
    (fun st => StronglySorted (fun a b => startDate a < startDate b) (events st)
               /\ Forall (fun o => startDate o < currentDate st) (events st))
    fuel baseEvent r rangeStart rangeEnd g evs g' Hr)
    as (st & (Hs & _) & -> & _); [| | exact Hrun | exact Hs].
  - cbn. split; constructor.
  - intros st (Hs & Hlt) _.
    rewrite loopBody_currentDate. pose proof (Hnext (currentDate st)) as Hn.
    cbn [loopBody events].
    destruct (createOccurrence_cases baseEvent r rangeStart st)
      as [(_ & _ & E) | (_ & E)]; rewrite E; cbn [events].
    + split.
      * clear E. induction (events st) as [| a l IH]; cbn [app].
        -- constructor; constructor.
        -- apply StronglySorted_inv in Hs as [Hs Ha].
           apply Forall_cons in Hlt as [Hlta Hlt].
           constructor; [apply IH; assumption |].
           apply Forall_app. split; [exact Ha |].
           constructor; [exact Hlta | constructor].
      * apply Forall_app. split.
        -- eapply Forall_impl; [exact Hlt |]. intros o Ho. cbn beta in *. lia.
        -- constructor; [cbn; lia | constructor].
    + split; [exact Hs |].
      eapply Forall_impl; [exact Hlt |]. intros o Ho. cbn beta in *. lia.
Qed.

Lemma StronglySorted_lookup {A : Type} (R : A -> A -> Prop) (l : list A) :
  StronglySorted R l ->
  forall (i j : nat) a b, (i < j)%nat -> l !! i = Some a -> l !! j = Some b -> R a b.
Proof.
  induction 1 as [| x l Hs IH Hx]; intros i j a b Hij Hi Hj.
  - rewrite lookup_nil in Hi. discriminate.
  - destruct j as [| j]; [lia |]. cbn in Hj.
    destruct i as [| i]; cbn in Hi.
    + injection Hi as <-. rewrite Forall_forall in Hx. apply Hx.
      eapply list_elem_of_lookup_2, Hj.
    + eapply IH; [| exact Hi | exact Hj]. lia.
Qed.

(** C7. The returned sequence is a finite list in ascending order of
    startDate: of two consecutive occurrences the earlier one starts
    strictly before the later one (and so does any earlier one before any
    later one).  The order rests on the helper moving the cursor ahead. *)
Theorem occurrences_ascending fuel baseEvent r rangeStart rangeEnd g evs g' :
  recurrence baseEvent = Some r ->
  (forall d, d < getNextOccurrenceDate d r) ->
  generateRecurringEvents shouldCreateOccurrence getNextOccurrenceDate
    fuel baseEvent rangeStart rangeEnd g = Returned (evs, g') ->
  (forall (i : nat) a b,
     evs !! i = Some a -> evs !! S i = Some b -> startDate a < startDate b)
  /\ (forall (i j : nat) a b,
        (i < j)%nat -> evs !! i = Some a -> evs !! j = Some b ->
        startDate a < startDate b).
Proof.
  intros Hr Hnext Hrun.
  pose proof (generate_sorted _ _ _ _ _ _ _ _ Hr Hnext Hrun) as Hs.
  split.
  - intros i a b Hi Hj.
    exact (StronglySorted_lookup _ _ Hs i (S i) a b ltac:(lia) Hi Hj).
  - intros i j a b Hij Hi Hj.
    exact (StronglySorted_lookup _ _ Hs i j a b Hij Hi Hj).
Qed.

(** C9 (as amended). With [rangeStart > rangeEnd] the call on a base
    event that has a recurrence rule returns the empty array (and leaves
    the ObjectId supply alone): the loop is left after finitely many turns
    when the helper moves the cursor ahead, and no turn can push an
    occurrence, the cursor of a turn being at most [rangeEnd] and so
    before [rangeStart].  On a base event without a rule the call throws
    a TypeError, at [recurrence.endDate], and returns nothing. *)
Theorem inverted_range_yields_nothing baseEvent rangeStart rangeEnd g :
  rangeEnd < rangeStart ->
  (forall r,
     recurrence baseEvent = Some r ->
     (forall d, d < getNextOccurrenceDate d r) ->
     (exists fuel,
        generateRecurringEvents shouldCreateOccurrence getNextOccurrenceDate
          fuel baseEvent rangeStart rangeEnd g = Returned ([], g))
     /\ (forall fuel evs g',
           generateRecurringEvents shouldCreateOccurrence
             getNextOccurrenceDate fuel baseEvent rangeStart rangeEnd g
           = Returned (evs, g') ->
           evs = [] /\ g' = g))
  /\ (recurrence baseEvent = None ->
      forall fuel,
        generateRecurringEvents shouldCreateOccurrence getNextOccurrenceDate
          fuel baseEvent rangeStart rangeEnd g = TypeError).
Proof.
  intros Hinv. split.
  2: { intros Hnone fuel. unfold generateRecurringEvents. rewrite Hnone.
       reflexivity. }
  intros r Hr Hnext.
  assert (Hnone : forall fuel evs g',
             generateRecurringEvents shouldCreateOccurrence getNextOccurrenceDate
               fuel baseEvent rangeStart rangeEnd g = Returned (evs, g') ->
             evs = [] /\ g' = g).
  { intros fuel evs g' Hrun.
    destruct (generate_invariant
      (fun st => events st = [] /\ idGen st = g)
      fuel baseEvent r rangeStart rangeEnd g evs g' Hr)
      as (st & (He & Hg) & -> & -> & _); [| | exact Hrun | auto].
    - cbn. auto.
    - intros st (He & Hg) Hc. apply loopCondition_true in Hc as (_ & Hc & _).
      rewrite turn_before_rangeStart by lia. cbn. auto. }
  split; [| exact Hnone].
  destruct (generate_terminates baseEvent r rangeStart rangeEnd g 1)
    with (fuel := Z.to_nat ((Z.min rangeEnd (maxDateOf r rangeEnd)
                              - startDate baseEvent) / 1 + 1))
    as (evs & g' & Hrun); [lia | exact Hr | | lia |].
  - intros d. pose proof (Hnext d). lia.
  - destruct (Hnone _ _ _ Hrun) as [-> ->]. eauto.
Qed.


(** The ids of the occurrences a call returns are the ones it drew: they
    lie between the state of the supply at the call and its state
    after. *)
Lemma generate_ids fuel baseEvent rangeStart rangeEnd g evs g' :
  generateRecurringEvents shouldCreateOccurrence getNextOccurrenceDate
    fuel baseEvent rangeStart rangeEnd g = Returned (evs, g') ->
  Forall (fun o => (g <= _id o < g')%N) evs.
Proof.
  intros Hrun.
  destruct (recurrence baseEvent) as [r |] eqn:Hr;
    [| unfold generateRecurringEvents in Hrun; rewrite Hr in Hrun;
       discriminate].
  destruct (generate_occurrences _ _ _ _ _ _ _ _ Hr Hrun) as [Hall _].
  eapply Forall_impl; [exact Hall |]. intros o (_ & Hid & _). exact Hid.
Qed.

(** C5 (as amended). Two calls with the same base event and the same
    range return the same occurrences in the same order, field for field,
    except for the ids, which each call draws anew from the supply: when
    the second call finds the supply as the first left it, or further
    on, no occurrence of the second call has the id of an occurrence of
    the first, position by position and across positions, so that the two
    results differ as soon as there is an occurrence. *)
Theorem repeated_calls_agree_up_to_ids
    fuel1 fuel2 baseEvent rangeStart rangeEnd g1 g2 evs1 evs2 g1' g2' :
  generateRecurringEvents shouldCreateOccurrence getNextOccurrenceDate
    fuel1 baseEvent rangeStart rangeEnd g1 = Returned (evs1, g1') ->
  generateRecurringEvents shouldCreateOccurrence getNextOccurrenceDate
    fuel2 baseEvent rangeStart rangeEnd g2 = Returned (evs2, g2') ->
  map withoutId evs1 = map withoutId evs2
  /\ ((g1' <= g2)%N ->
      Forall (fun o2 => Forall (fun o1 => _id o1 <> _id o2) evs1) evs2
      /\ (evs1 <> [] -> evs1 <> evs2)).
Proof.
  intros H1 H2.
  assert (Hids : (g1' <= g2)%N ->
                 Forall (fun o2 => Forall (fun o1 => _id o1 <> _id o2) evs1)
                   evs2).
  { intros Hlater.
    pose proof (generate_ids _ _ _ _ _ _ _ H1) as Hold.
    pose proof (generate_ids _ _ _ _ _ _ _ H2) as Hnew.
    eapply Forall_impl; [exact Hnew |]. intros o2 Hid2.
    eapply Forall_impl; [exact Hold |]. intros o1 Hid1. cbn in *. lia. }
  split.
  2: { intros Hlater. split; [exact (Hids Hlater) |].
       intros Hsome Heq. subst evs2. specialize (Hids Hlater).
       destruct evs1 as [| o rest]; [congruence |].
       apply Forall_cons in Hids as [Ho _].
       apply Forall_cons in Ho as [Ho _]. congruence. }
  clear Hids.
  destruct (recurrence baseEvent) as [r |] eqn:Hr;
    [| unfold generateRecurringEvents in H1; rewrite Hr in H1; discriminate].
  apply (generate_returned _ _ r) in H1 as (st1 & Hw1 & -> & _); [| exact Hr].
  apply (generate_returned _ _ r) in H2 as (st2 & Hw2 & -> & _); [| exact Hr].
  refine (proj2 (proj2 (while_related
    (fun s t => currentDate s = currentDate t
                /\ occurrenceCount s = occurrenceCount t
                /\ map withoutId (events s) = map withoutId (events t))
    _ _ _ _ _ _ fuel1 fuel2 _ _ st1 st2 _ Hw1 Hw2))).
  - intros s t (Hc & Hn & _). unfold loopCondition. rewrite Hc, Hn. reflexivity.
  - intros s t (Hc & Hn & He) _.
    unfold loopBody, createOccurrence. rewrite <- Hc.
    destruct (rangeStart <=? currentDate s);
      [destruct (shouldCreateOccurrence (currentDate s) r) |];
      cbn [newObjectId currentDate occurrenceCount events];
      rewrite <- ?Hc, ?Hn, ?map_app, ?He; auto.
  - cbn. auto.
Qed.

End ExpanderFacts.

(** ** The expander with the helpers of the specification *)

(** C4. The expander stops on every input.  A missing or non-positive
    [interval] counts as 1, so each turn moves the cursor at least one day
    ahead; the loop is therefore left once the cursor has passed the
    earlier of [rangeEnd] and the rule's [endDate], if the cap on the
    number of occurrences has not ended it before: the number of turns is
    bounded by the number of days between the base event's start and that
    date.  Neither [endDate] nor [maxOccurrences] is needed for this. *)
Theorem expand_terminates :
  (forall r,
     interval r = None \/ (exists n, interval r = Some n /\ n <= 0) ->
     Helpers.effectiveInterval r = 1)
  /\ (forall d r, d + msPerDay <= Helpers.getNextOccurrenceDate d r)
  /\ (forall baseEvent rangeStart rangeEnd g,
        exists turns : nat,
          (forall r, recurrence baseEvent = Some r ->
             turns = Z.to_nat ((Z.min rangeEnd (maxDateOf r rangeEnd)
                                - startDate baseEvent) / msPerDay + 1))
          /\ forall fuel, (turns <= fuel)%nat ->
               expand fuel baseEvent rangeStart rangeEnd g <> OutOfFuel).
Proof.
  split; [| split].
  - intros r [H | (n & H & Hn)]; unfold Helpers.effectiveInterval; rewrite H;
      [reflexivity |].
    destruct (Z.ltb_spec 0 n); [lia | reflexivity].
  - exact getNextOccurrenceDate_progress.
  - intros baseEvent rangeStart rangeEnd g.
    destruct (recurrence baseEvent) as [r |] eqn:Hr.
    + exists (Z.to_nat ((Z.min rangeEnd (maxDateOf r rangeEnd)
                         - startDate baseEvent) / msPerDay + 1)).
      split; [intros r' [= <-]; reflexivity |].
      intros fuel Hfuel.
      pose proof (generate_terminates Helpers.shouldCreateOccurrence
                    Helpers.getNextOccurrenceDate baseEvent r rangeStart rangeEnd
                    g msPerDay) as Hstop.
      destruct Hstop with (fuel := fuel) as (evs & g' & Hrun);
        [reflexivity | exact Hr | intros d; apply getNextOccurrenceDate_progress
        | exact Hfuel |].
      rewrite Hrun. discriminate.
    + exists O. split; [intros r; discriminate |].
      intros fuel _. unfold generateRecurringEvents. rewrite Hr.
      discriminate.
Qed.

(** The monthly meeting of the README, queried for the first quarter:
    January 1, February 1 and March 1 at 16:00:00Z. *)
Example first_quarter_scenario :
  exists evs g',
    expand 64 Samples.monthlyAllHands Samples.january1st (utc 2024 3 31 0 0 0)
      Samples.supply = Returned (evs, g')
    /\ map startDate evs
       = [utc 2024 1 1 16 0 0; utc 2024 2 1 16 0 0; utc 2024 3 1 16 0 0].
Proof.
  eexists. eexists. split.
  - vm_compute. reflexivity.
  - vm_compute. reflexivity.
Qed.

(** A range that ends before the base event starts yields nothing. *)
Example range_before_seed :
  expand 64 Samples.teamMeeting (utc 2023 12 1 0 0 0) (utc 2023 12 31 0 0 0)
    Samples.supply = Returned ([], Samples.supply).
Proof. vm_compute. reflexivity. Qed.

(** C8 (as amended). The weekly meeting of the README, queried from
    [new Date("2024-01-01")] to [new Date("2024-01-31")], yields exactly
    five occurrences, on January 15, 17, 22, 24 and 29 at 09:00:00Z: the
    range ends at midnight, before the meeting of January 31.  Queried to
    2024-01-31T23:59:59Z it yields that sixth occurrence too. *)
Theorem january_scenario :
  (exists evs g',
     expand 64 Samples.teamMeeting Samples.january1st Samples.january31st
       Samples.supply = Returned (evs, g')
     /\ map startDate evs
        = [utc 2024 1 15 9 0 0; utc 2024 1 17 9 0 0; utc 2024 1 22 9 0 0;
           utc 2024 1 24 9 0 0; utc 2024 1 29 9 0 0])
  /\ (exists evs g',
        expand 64 Samples.teamMeeting Samples.january1st Samples.endOfJanuary
          Samples.supply = Returned (evs, g')
        /\ map startDate evs
           = [utc 2024 1 15 9 0 0; utc 2024 1 17 9 0 0; utc 2024 1 22 9 0 0;
              utc 2024 1 24 9 0 0; utc 2024 1 29 9 0 0; utc 2024 1 31 9 0 0]).
Proof.
  split.
  - eexists. eexists. split.
    + vm_compute. reflexivity.
    + vm_compute. reflexivity.
  - eexists. eexists. split.
    + vm_compute. reflexivity.
    + vm_compute. reflexivity.
Qed.

(** C8 as stated fails: no run of the scenario returns the six dates. *)
Lemma january_scenario_not_six :
  ~ exists fuel evs g',
      expand fuel Samples.teamMeeting Samples.january1st Samples.january31st
        Samples.supply = Returned (evs, g')
      /\ map startDate evs
         = [utc 2024 1 15 9 0 0; utc 2024 1 17 9 0 0; utc 2024 1 22 9 0 0;
            utc 2024 1 24 9 0 0; utc 2024 1 29 9 0 0; utc 2024 1 31 9 0 0].
Proof.
  intros (fuel & evs & g' & Hrun & Hdates).
  assert (H64 : exists res,
             expand 64 Samples.teamMeeting Samples.january1st
               Samples.january31st Samples.supply = Returned res
             /\ length (fst res) = 5%nat).
  { eexists. split.
    - vm_compute. reflexivity.
    - reflexivity. }
  destruct H64 as (res & H64 & Hlen).
  pose proof (generate_deterministic
    Helpers.shouldCreateOccurrence Helpers.getNextOccurrenceDate fuel 64
    Samples.teamMeeting Samples.january1st Samples.january31st Samples.supply
    (evs, g') res Hrun H64) as <-.
  cbn [fst] in Hlen.
  assert (Hsix : length (map startDate evs) = 6%nat)
    by (rewrite Hdates; reflexivity).
  rewrite length_map, Hlen in Hsix. discriminate.
Qed.

(** C1, on the code: a daily rule capped at three occurrences, starting
    2024-01-15T09:00:00Z, has two candidates (January 15 and 16) before a
    range that starts on January 17; the call for that range still
    returns three occurrences (January 17, 18, 19), because a turn before
    [rangeStart] does not count.  Together with the call for the range
    before, five occurrences of the rule come out. *)
Theorem maxOccurrences_not_counted_before_range :
  candidatesBefore Helpers.shouldCreateOccurrence Helpers.getNextOccurrenceDate
    64 Samples.dailyRule (startDate Samples.dailyStandup) Samples.january17th
  = [utc 2024 1 15 9 0 0; utc 2024 1 16 9 0 0]
  /\ (exists evs g',
        expand 64 Samples.dailyStandup Samples.january17th Samples.january31st
          Samples.supply = Returned (evs, g')
        /\ map startDate evs
           = [utc 2024 1 17 9 0 0; utc 2024 1 18 9 0 0; utc 2024 1 19 9 0 0])
  /\ (exists evs g',
        expand 64 Samples.dailyStandup Samples.january1st Samples.january17th
          Samples.supply = Returned (evs, g')
        /\ map startDate evs = [utc 2024 1 15 9 0 0; utc 2024 1 16 9 0 0]).
Proof.
  split.
  { vm_compute. reflexivity. }
  split.
  - eexists. eexists. split.
    + vm_compute. reflexivity.
    + vm_compute. reflexivity.
  - eexists. eexists. split.
    + vm_compute. reflexivity.
    + vm_compute. reflexivity.
Qed.

(** C5 as stated fails: the second of two calls with the same arguments
    returns occurrences with other ids than the first. *)
Lemma second_call_differs :
  exists evs1 g1 evs2 g2,
    expand 64 Samples.teamMeeting Samples.january1st Samples.january31st
      Samples.supply = Returned (evs1, g1)
    /\ expand 64 Samples.teamMeeting Samples.january1st Samples.january31st
         g1 = Returned (evs2, g2)
    /\ evs1 <> evs2.
Proof.
  do 4 eexists. split.
  { vm_compute. reflexivity. }
  split.
  { vm_compute. reflexivity. }
  discriminate.
Qed.

(** C9 as stated fails: for a base event without a recurrence rule the
    call with an inverted range does not return the empty array, it
    throws. *)
Lemma inverted_range_without_rule_throws :
  expand 64 Samples.checkup Samples.january31st Samples.january20th
    Samples.supply = TypeError
  /\ expand 64 Samples.checkup Samples.january31st Samples.january20th
       Samples.supply <> Returned ([], Samples.supply).
Proof.
  split.
  - vm_compute. reflexivity.
  - vm_compute. discriminate.
Qed.

(** ** The theorems at sample inputs *)

Lemma helper_never_backwards r d : d <= Helpers.getNextOccurrenceDate d r.
Proof.
  pose proof (getNextOccurrenceDate_progress d r). unfold msPerDay in *. lia.
Qed.

Lemma helper_moves_ahead r d : d < Helpers.getNextOccurrenceDate d r.
Proof.
  pose proof (getNextOccurrenceDate_progress d r). unfold msPerDay in *. lia.
Qed.

(** The monthly meeting, whose rule ends with 2024, queried until the
    middle of 2025. *)
Lemma occurrences_within_bounds_witness :
  exists evs g',
    expand 64 Samples.monthlyAllHands Samples.january1st Samples.midsummer2025
      Samples.supply = Returned (evs, g')
    /\ Forall (fun o =>
                 Samples.january1st <= startDate o <= Samples.midsummer2025
                 /\ startDate Samples.monthlyAllHands <= startDate o
                 /\ (forall e, endDate Samples.monthlyRule = Some e ->
                       startDate o <= e)) evs.
Proof.
  eexists. eexists. split.
  - vm_compute. reflexivity.
  - eapply (occurrences_within_bounds Helpers.shouldCreateOccurrence
              Helpers.getNextOccurrenceDate 64 Samples.monthlyAllHands
              Samples.monthlyRule Samples.january1st Samples.midsummer2025
              Samples.supply).
    + reflexivity.
    + apply helper_never_backwards.
    + vm_compute. reflexivity.
Defined.

Lemma occurrences_copy_base_event_witness :
  exists evs g',
    expand 64 Samples.teamMeeting Samples.january1st Samples.endOfJanuary
      Samples.supply = Returned (evs, g')
    /\ Forall (fun o =>
                 title o = title Samples.teamMeeting
                 /\ description o = description Samples.teamMeeting
                 /\ location o = location Samples.teamMeeting
                 /\ category o = category Samples.teamMeeting
                 /\ color o = color Samples.teamMeeting
                 /\ duration o = duration Samples.teamMeeting
                 /\ userId o = userId Samples.teamMeeting
                 /\ recurrence o = recurrence Samples.teamMeeting
                 /\ _id o <> _id Samples.teamMeeting
                 /\ reachedFrom Helpers.getNextOccurrenceDate Samples.weeklyRule
                      (startDate Samples.teamMeeting) (startDate o)
                 /\ Helpers.shouldCreateOccurrence (startDate o)
                      Samples.weeklyRule = true
                 /\ isRecurringInstance o = true
                 /\ parentEventId o = Some (_id Samples.teamMeeting)) evs
    /\ NoDup (map _id evs).
Proof.
  eexists. eexists. split.
  - vm_compute. reflexivity.
  - eapply (occurrences_copy_base_event Helpers.shouldCreateOccurrence
              Helpers.getNextOccurrenceDate 64 Samples.teamMeeting
              Samples.weeklyRule Samples.january1st Samples.endOfJanuary
              Samples.supply).
    + reflexivity.
    + reflexivity.
    + vm_compute. reflexivity.
Defined.

Lemma occurrences_ascending_witness :
  exists evs g',
    expand 64 Samples.teamMeeting Samples.january1st Samples.endOfJanuary
      Samples.supply = Returned (evs, g')
    /\ (forall (i : nat) a b,
          evs !! i = Some a -> evs !! S i = Some b -> startDate a < startDate b)
    /\ (forall (i j : nat) a b,
          (i < j)%nat -> evs !! i = Some a -> evs !! j = Some b ->
          startDate a < startDate b).
Proof.
  eexists. eexists. split.
  - vm_compute. reflexivity.
  - eapply (occurrences_ascending Helpers.shouldCreateOccurrence
              Helpers.getNextOccurrenceDate 64 Samples.teamMeeting
              Samples.weeklyRule Samples.january1st Samples.endOfJanuary
              Samples.supply).
    + reflexivity.
    + apply helper_moves_ahead.
    + vm_compute. reflexivity.
Defined.

(** The weekly meeting of 15 January, asked for the range from
    31 January back to 20 January: the loop is entered, and its turns
    from the 15th to the 19th push nothing. *)
Lemma inverted_range_yields_nothing_witness :
  loopCondition (maxDateOf Samples.weeklyRule Samples.january20th)
    Samples.january20th (maxOccurrencesOf Samples.weeklyRule)
    (initialState Samples.teamMeeting Samples.supply) = true
  /\ (exists fuel,
        expand fuel Samples.teamMeeting Samples.january31st
          Samples.january20th Samples.supply
        = Returned ([], Samples.supply))
  /\ (forall fuel evs g',
        expand fuel Samples.teamMeeting Samples.january31st
          Samples.january20th Samples.supply = Returned (evs, g') ->
        evs = [] /\ g' = Samples.supply)
  /\ (forall fuel,
        expand fuel Samples.checkup Samples.january31st Samples.january20th
          Samples.supply = TypeError).
Proof.
  assert (H : Samples.january20th < Samples.january31st)
    by (vm_compute; reflexivity).
  split; [vm_compute; reflexivity |].
  destruct (inverted_range_yields_nothing Helpers.shouldCreateOccurrence
              Helpers.getNextOccurrenceDate Samples.teamMeeting
              Samples.january31st Samples.january20th Samples.supply H)
    as [Hrule _].
  destruct (Hrule Samples.weeklyRule eq_refl
              (helper_moves_ahead Samples.weeklyRule)) as [Hends Hnone].
  split; [exact Hends |]. split; [exact Hnone |].
  apply (inverted_range_yields_nothing Helpers.shouldCreateOccurrence
           Helpers.getNextOccurrenceDate Samples.checkup
           Samples.january31st Samples.january20th Samples.supply H).
  reflexivity.
Defined.

(** A daily reminder without [maxOccurrences], queried for a whole year:
    the call returns 100 occurrences. *)
Lemma default_cap_is_100_witness :
  exists evs g',
    expand 400 Samples.dailyReminder Samples.january1st Samples.endOfYear
      Samples.supply = Returned (evs, g')
    /\ length evs = 100%nat /\ (length evs <= 100)%nat.
Proof.
  eexists. eexists. split.
  - vm_compute. reflexivity.
  - split; [reflexivity |].
    eapply (default_cap_is_100 Helpers.shouldCreateOccurrence
              Helpers.getNextOccurrenceDate 400 Samples.dailyReminder
              Samples.uncappedRule Samples.january1st Samples.endOfYear
              Samples.supply).
    + reflexivity.
    + left. reflexivity.
    + vm_compute. reflexivity.
Defined.

(** The weekly meeting, expanded twice for January, the second call
    finding the supply as the first left it. *)
Lemma repeated_calls_agree_up_to_ids_witness :
  exists evs1 g1 evs2 g2,
    expand 64 Samples.teamMeeting Samples.january1st Samples.january31st
      Samples.supply = Returned (evs1, g1)
    /\ expand 64 Samples.teamMeeting Samples.january1st Samples.january31st
         g1 = Returned (evs2, g2)
    /\ map withoutId evs1 = map withoutId evs2
    /\ Forall (fun o2 => Forall (fun o1 => _id o1 <> _id o2) evs1) evs2
    /\ evs1 <> evs2.
Proof.
  do 4 eexists. split.
  { vm_compute. reflexivity. }
  split.
  { vm_compute. reflexivity. }
  destruct (repeated_calls_agree_up_to_ids Helpers.shouldCreateOccurrence
              Helpers.getNextOccurrenceDate 64 64 Samples.teamMeeting
              Samples.january1st Samples.january31st Samples.supply 14%N
              _ _ _ _
              ltac:(vm_compute; reflexivity) ltac:(vm_compute; reflexivity))
    as [Hsame Hids].
  destruct (Hids ltac:(vm_compute; discriminate)) as [Hfresh Hdiffer].
  split; [exact Hsame |]. split; [exact Hfresh |].
  apply Hdiffer. discriminate.
Defined.

(** ** What a call leaves alone *)

Section Frame.

Import OnHeap.

Variable n : nat.
Variable h0 : list Cell.

Lemma bind_returned {A B : Type} (m : Js A) (k : A -> Js B) rt b rt' :
  bind m k rt = Returned (b, rt') ->
  exists a rt1, m rt = Returned (a, rt1) /\ k a rt1 = Returned (b, rt').
Proof.
  unfold bind. destruct (m rt) as [[a rt1] | |]; try discriminate. eauto.
Qed.





Lemma readEvent_returned l rt e rt' :
  readEvent l rt = Returned (e, rt') ->
  rt' = rt /\ heap rt !! l = Some (Event e).
Proof.
  unfold readEvent. destruct (heap rt !! l) as [[t | r | e' | items] |]; try discriminate.
  intros [= <- <-]. auto.
Qed.

Lemma readRule_returned l rt r rt' :
  readRule l rt = Returned (r, rt') ->
  rt' = rt /\ heap rt !! l = Some (Rule r).
Proof.
  unfold readRule. destruct (heap rt !! l) as [[t | r' | e | items] |]; try discriminate.
  intros [= <- <-]. auto.
Qed.




Variable shouldCreateOccurrence : loc -> loc -> Js bool.
Variable getNextOccurrenceDate : loc -> loc -> Js loc.

Hypothesis should_footprint :
  forall cursor rule, touchesOnly cursor (shouldCreateOccurrence cursor rule).
Hypothesis next_footprint :
  forall cursor rule,
    touchesOnly cursor (getNextOccurrenceDate cursor rule)
    /\ returnsCursorOrNew cursor (getNextOccurrenceDate cursor rule).




End Frame.

Lemma timeOf_kept rt rt' l t :
  OnHeap.keepsObjects rt rt' ->
  OnHeap.timeOf rt l = Some t -> OnHeap.timeOf rt' l = Some t.
Proof.
  intros Hkeep. unfold OnHeap.timeOf.
  destruct (OnHeap.heap rt !! l) as [[t0 | ro | e | items] |] eqn:E;
    try discriminate.
  rewrite (Hkeep _ _ E) by discriminate. auto.
Qed.

Lemma loadRule_kept rt rt' l r :
  OnHeap.keepsObjects rt rt' ->
  OnHeap.loadRule rt l = Some r -> OnHeap.loadRule rt' l = Some r.
Proof.
  intros Hkeep. unfold OnHeap.loadRule.
  destruct (OnHeap.heap rt !! l) as [[t0 | ro | e | items] |] eqn:E;
    try discriminate.
  rewrite (Hkeep _ _ E) by discriminate.
  destruct (OnHeap.ruleEndDate ro) as [e |]; [| auto].
  destruct (OnHeap.timeOf rt e) as [t |] eqn:Et; [| discriminate].
  rewrite (timeOf_kept _ _ _ _ Hkeep Et). auto.
Qed.

Lemma loadEvent_kept rt rt' l ev :
  OnHeap.keepsObjects rt rt' ->
  OnHeap.loadEvent rt l = Some ev -> OnHeap.loadEvent rt' l = Some ev.
Proof.
  intros Hkeep. unfold OnHeap.loadEvent.
  destruct (OnHeap.heap rt !! l) as [[t0 | ro | e | items] |] eqn:E;
    try discriminate.
  rewrite (Hkeep _ _ E) by discriminate.
  destruct (OnHeap.timeOf rt (OnHeap.objStartDate e)) as [t |] eqn:Et;
    [| discriminate].
  rewrite (timeOf_kept _ _ _ _ Hkeep Et).
  destruct (OnHeap.objRecurrence e) as [rl |]; [| auto].
  destruct (OnHeap.loadRule rt rl) as [r |] eqn:Er; [| discriminate].
  rewrite (loadRule_kept _ _ _ _ Hkeep Er). auto.
Qed.



Lemma getNextOccurrenceDateRef_footprint cursor rule :
  OnHeap.touchesOnly cursor (OnHeap.getNextOccurrenceDateRef cursor rule)
  /\ OnHeap.returnsCursorOrNew cursor (OnHeap.getNextOccurrenceDateRef cursor rule).
Proof.
  split; intros rt a rt';
    unfold OnHeap.getNextOccurrenceDateRef, OnHeap.liftNext;
    destruct (OnHeap.timeOf rt cursor), (OnHeap.loadRule rt rule);
    try discriminate; intros [= <- <-]; cbn [OnHeap.heap].
  - split; [rewrite length_app; lia |].
    intros l Hl _. apply lookup_app_l, Hl.
  - right. lia.
Qed.


(** The weekly meeting on the sample heap is the sample event. *)
Example sampleHeap_holds_teamMeeting :
  OnHeap.loadEvent OnHeap.sampleRuntime 2 = Some Samples.teamMeeting.
Proof. vm_compute. reflexivity. Qed.



(** ** The method on the heap computes what the method on values does *)

Section Refinement.

Local Abbreviation valueLoopCondition := loopCondition.
Local Abbreviation valueLoopBody := loopBody.

Import OnHeap.

Lemma keepsObjects_refl rt : keepsObjects rt rt.
Proof. intros l c Hl _. exact Hl. Qed.

Lemma keepsObjects_trans rt1 rt2 rt3 :
  keepsObjects rt1 rt2 -> keepsObjects rt2 rt3 -> keepsObjects rt1 rt3.
Proof. intros H12 H23 l c Hl Hc. apply H23, Hc. apply H12, Hc. exact Hl. Qed.

Lemma alloc_returned c rt l rt' :
  alloc c rt = Returned (l, rt') ->
  l = length (heap rt) /\ heap rt' = heap rt ++ [c]
  /\ objectIds rt' = objectIds rt.
Proof. intros [= <- <-]. auto. Qed.

Lemma alloc_keeps c rt l rt' :
  alloc c rt = Returned (l, rt') ->
  keepsObjects rt rt' /\ heap rt' !! l = Some c
  /\ objectIds rt' = objectIds rt
  /\ forall l' c', heap rt !! l' = Some c' -> heap rt' !! l' = Some c'.
Proof.
  intros H. apply alloc_returned in H as (-> & Hh & Hg).
  unfold keepsObjects. rewrite Hh.
  assert (Hall : forall l' c',
             heap rt !! l' = Some c' -> (heap rt ++ [c]) !! l' = Some c').
  { intros l' c' Hl. rewrite lookup_app_l; [exact Hl |].
    eapply lookup_lt_Some, Hl. }
  split; [intros l' c' Hl _; auto |].
  split; [apply list_lookup_middle; reflexivity |]. auto.
Qed.

Lemma push_keeps array x rt u rt' :
  push array x rt = Returned (u, rt') ->
  keepsObjects rt rt' /\ objectIds rt' = objectIds rt
  /\ exists items, heap rt !! array = Some (Array items)
                   /\ heap rt' !! array = Some (Array (items ++ [x])).
Proof.
  unfold push.
  destruct (heap rt !! array) as [[t | r | e | items] |] eqn:E;
    try discriminate.
  intros [= <- <-]. unfold keepsObjects. cbn [heap objectIds].
  split; [| split; [reflexivity |]].
  - intros l c Hl Hc. destruct (decide (l = array)) as [-> | Hne].
    + rewrite E in Hl. injection Hl as <-. destruct (Hc items). reflexivity.
    + rewrite list_lookup_insert_ne by auto. exact Hl.
  - exists items. split; [reflexivity |].
    apply list_lookup_insert_eq. eapply lookup_lt_Some, E.
Qed.

Lemma holdsEvents_kept rt rt' array evs :
  keepsObjects rt rt' -> heap rt' !! array = heap rt !! array ->
  holdsEvents rt array evs -> holdsEvents rt' array evs.
Proof.
  intros Hkeep Harr (items & Hitems & Hall). exists items.
  split; [rewrite Harr; exact Hitems |].
  eapply Forall2_impl; [exact Hall |].
  intros l o. apply loadEvent_kept, Hkeep.
Qed.

(** The loop on the heap goes turn for turn with a loop on values whose
    states correspond to its own. *)
Lemma whileJs_simulates {L S : Type} (R : L -> Runtime -> S -> Prop)
    (condJ : L -> Runtime -> bool) (bodyJ : L -> Js L)
    (cond : S -> bool) (body : S -> S) :
  (forall locals rt st, R locals rt st -> condJ locals rt = cond st) ->
  (forall locals rt st locals' rt',
     R locals rt st -> cond st = true ->
     bodyJ locals rt = Returned (locals', rt') -> R locals' rt' (body st)) ->
  forall fuel locals rt st locals' rt',
    R locals rt st ->
    whileJs fuel condJ bodyJ locals rt = Returned (locals', rt') ->
    exists st', while fuel cond body st = Some st' /\ R locals' rt' st'.
Proof.
  intros Hcond Hbody fuel.
  induction fuel as [| fuel IH]; intros locals rt st locals' rt' HR Hrun;
    cbn [whileJs] in Hrun; cbn [while];
    rewrite (Hcond _ _ _ HR) in Hrun; destruct (cond st) eqn:Hc;
    try discriminate.
  - injection Hrun as <- <-. eauto.
  - destruct (bodyJ locals rt) as [[l1 rt1] | |] eqn:Hb; try discriminate.
    eapply IH; [| exact Hrun]. eapply Hbody; eassumption.
  - injection Hrun as <- <-. eauto.
Qed.

Variable shouldCreateOccurrence : Date -> RecurrencePattern -> bool.
Variable getNextOccurrenceDate : Date -> RecurrencePattern -> Date.

Variables array baseEvent recurrence rangeStart rangeEnd maxDate : loc.
Variable ev : EventsCalendar.
Variable r : RecurrencePattern.
Variables tStart tEnd : Date.

Local Abbreviation related :=
  (corresponds array baseEvent recurrence rangeStart rangeEnd maxDate
     ev r tStart tEnd).

Lemma corresponds_kept locals rt st rt' :
  related locals rt st ->
  keepsObjects rt rt' -> heap rt' !! array = heap rt !! array ->
  objectIds rt' = objectIds rt ->
  related locals rt' st.
Proof.
  intros (H1 & (e & H2 & H2') & H3 & H4 & H5 & H6 & H7 & H8 & H9 & H10)
    Hkeep Harr Hids.
  unfold corresponds.
  split; [eapply loadEvent_kept; eassumption |].
  split.
  { exists e. split; [| exact H2']. apply Hkeep; [exact H2 | discriminate]. }
  split; [eapply loadRule_kept; eassumption |].
  do 4 (split; [eapply timeOf_kept; eassumption |]).
  split; [exact H8 |]. split; [congruence |].
  eapply holdsEvents_kept; eassumption.
Qed.

Lemma loopCondition_corresponds locals rt st :
  related locals rt st ->
  loopCondition maxDate rangeEnd (maxOccurrencesOf r) locals rt
  = valueLoopCondition (maxDateOf r tEnd) tEnd (maxOccurrencesOf r) st.
Proof.
  intros (_ & _ & _ & _ & H5 & H6 & H7 & H8 & _).
  unfold loopCondition, valueLoopCondition.
  rewrite H5, H6, H7, H8. reflexivity.
Qed.

Lemma pushOccurrence_corresponds locals rt st locals' rt' :
  related locals rt st ->
  pushOccurrence array baseEvent locals rt = Returned (locals', rt') ->
  related locals' rt'
    {| currentDate := currentDate st;
       occurrenceCount := occurrenceCount st + 1;
       events := events st
                 ++ [occurrenceEvent ev (idGen st) (currentDate st)];
       idGen := N.succ (idGen st) |}.
Proof.
  intros HR Hrun.
  destruct HR as (H1 & (e & H2 & H2') & H3 & H4 & H5 & H6 & H7 & H8 & H9 & H10).
  unfold pushOccurrence in Hrun.
  apply bind_returned in Hrun as (fields & rt1 & Hr1 & Hrun).
  apply readEvent_returned in Hr1 as [-> Hfields].
  rewrite H2 in Hfields. injection Hfields as <-.
  apply bind_returned in Hrun as (id & rt2 & Hr2 & Hrun).
  injection Hr2 as <- <-.
  set (rt2 := {| heap := heap rt; objectIds := N.succ (objectIds rt) |}) in *.
  apply bind_returned in Hrun as (start & rt3 & Hr3 & Hrun).
  unfold newDate in Hr3.
  replace (timeOf rt2 (currentDateRef locals))
    with (Some (currentDate st)) in Hr3 by (symmetry; exact H7).
  apply alloc_keeps in Hr3 as (K3 & Hstart & G3 & A3).
  apply bind_returned in Hrun as (base & rt4 & Hr4 & Hrun).
  apply readEvent_returned in Hr4 as [-> Hbase].
  rewrite (A3 _ _ H2) in Hbase. injection Hbase as <-.
  apply bind_returned in Hrun as (occ & rt5 & Hr5 & Hrun).
  apply alloc_keeps in Hr5 as (K5 & Hocc & G5 & A5).
  apply bind_returned in Hrun as (u & rt6 & Hr6 & Hrun).
  apply push_keeps in Hr6 as (K6 & G6 & items' & Hbefore & Hafter).
  unfold ret in Hrun. injection Hrun as <- <-.
  assert (K : keepsObjects rt rt6).
  { apply (keepsObjects_trans _ rt3); [exact K3 |].
    apply (keepsObjects_trans _ rt5); assumption. }
  destruct H10 as (items & Hitems & Hall).
  assert (items' = items) as ->.
  { rewrite (A5 _ _ (A3 _ _ Hitems)) in Hbefore. congruence. }
  unfold corresponds.
  cbn [currentDateRef count currentDate occurrenceCount idGen events].
  split; [eapply loadEvent_kept; eassumption |].
  split.
  { exists e. split; [| exact H2']. apply K; [exact H2 | discriminate]. }
  split; [eapply loadRule_kept; eassumption |].
  do 4 (split; [eapply timeOf_kept; eassumption |]).
  split; [congruence |].
  split; [rewrite G6, G5, G3; cbn; rewrite H9; reflexivity |].
  { exists (items ++ [occ]). split; [exact Hafter |].
    apply Forall2_app.
    + eapply Forall2_impl; [exact Hall |]. intros l o. apply loadEvent_kept, K.
    + constructor; [| constructor].
      unfold loadEvent.
      rewrite (K6 _ _ Hocc) by discriminate. cbn [objStartDate objRecurrence].
      assert (Hs : timeOf rt6 start = Some (currentDate st)).
      { unfold timeOf. rewrite (K6 _ _ (A5 _ _ Hstart)) by discriminate.
        reflexivity. }
      rewrite Hs, H2', (loadRule_kept _ _ _ _ K H3).
      unfold loadEvent in H1. rewrite H2, H2', H3 in H1.
      destruct (timeOf rt (objStartDate e)) as [t0 |]; [| discriminate].
      injection H1 as <-. rewrite <- H9. reflexivity. }
Qed.

Lemma loopBody_corresponds locals rt st locals' rt' :
  related locals rt st ->
  loopBody (liftShould shouldCreateOccurrence)
    (liftNext getNextOccurrenceDate) array baseEvent recurrence rangeStart
    locals rt = Returned (locals', rt') ->
  related locals' rt'
    (valueLoopBody shouldCreateOccurrence getNextOccurrenceDate ev r tStart st).
Proof.
  intros HR Hrun. unfold loopBody in Hrun.
  apply bind_returned in Hrun as (locals1 & rt1 & Hr1 & Hrun).
  assert (Hmid : related locals1 rt1
                   (createOccurrence shouldCreateOccurrence ev r tStart st)
                 /\ currentDateRef locals1 = currentDateRef locals).
  { pose proof HR as (_ & _ & H3 & H4 & _ & _ & H7 & _).
    rewrite H4, H7 in Hr1. unfold leqTime in Hr1. unfold createOccurrence.
    destruct (tStart <=? currentDate st).
    - apply bind_returned in Hr1 as (should & rt0 & Hs & Hr1).
      unfold liftShould in Hs. rewrite H7, H3 in Hs. injection Hs as <- <-.
      destruct (shouldCreateOccurrence (currentDate st) r).
      + split.
        * exact (pushOccurrence_corresponds _ _ _ _ _ HR Hr1).
        * unfold pushOccurrence in Hr1.
          repeat (apply bind_returned in Hr1 as (? & ? & _ & Hr1)).
          unfold ret in Hr1. injection Hr1 as <- _. reflexivity.
      + unfold ret in Hr1. injection Hr1 as <- <-. auto.
    - unfold ret in Hr1. injection Hr1 as <- <-. auto. }
  destruct Hmid as [HR1 Hcur].
  apply bind_returned in Hrun as (next & rt2 & Hr2 & Hrun).
  unfold ret in Hrun. injection Hrun as <- <-.
  pose proof HR1 as (H1 & (e & H2 & H2') & H3 & H4 & H5 & H6 & H7 & H8 & H9 & H10).
  unfold liftNext in Hr2. rewrite H7, H3 in Hr2.
  apply alloc_keeps in Hr2 as (K & Hnext & G & A).
  destruct H10 as (items & Hitems & Hall).
  unfold valueLoopBody, corresponds.
  cbn [currentDateRef count currentDate occurrenceCount idGen events].
  split; [eapply loadEvent_kept; eassumption |].
  split.
  { exists e. split; [| exact H2']. apply K; [exact H2 | discriminate]. }
  split; [eapply loadRule_kept; eassumption |].
  do 3 (split; [eapply timeOf_kept; eassumption |]).
  split.
  { unfold timeOf. rewrite Hnext. reflexivity. }
  split; [exact H8 |]. split; [congruence |].
  exists items. split; [apply A, Hitems |].
  eapply Forall2_impl; [exact Hall |]. intros l o. apply loadEvent_kept, K.
Qed.

End Refinement.

(** X4. The method on the heap, run with helpers that read the cursor and
    the rule off the heap, returns an array of the occurrences that the
    method on values returns for the base event and the range read off
    the heap, and draws the same ids. *)
Theorem heap_method_refines
    shouldCreateOccurrence getNextOccurrenceDate
    fuel baseEvent rangeStart rangeEnd rt ev tStart tEnd array rt' :
  OnHeap.loadEvent rt baseEvent = Some ev ->
  OnHeap.timeOf rt rangeStart = Some tStart ->
  OnHeap.timeOf rt rangeEnd = Some tEnd ->
  OnHeap.generateRecurringEvents
    (OnHeap.liftShould shouldCreateOccurrence)
    (OnHeap.liftNext getNextOccurrenceDate)
    fuel baseEvent rangeStart rangeEnd rt = Returned (array, rt') ->
  exists evs,
    OnHeap.holdsEvents rt' array evs
    /\ generateRecurringEvents shouldCreateOccurrence getNextOccurrenceDate
         fuel ev tStart tEnd (OnHeap.objectIds rt)
       = Returned (evs, OnHeap.objectIds rt').
Proof.
  intros Hev Hts Hte Hrun. unfold OnHeap.generateRecurringEvents in Hrun.
  apply bind_returned in Hrun as (arr & rt1 & H1 & Hrun).
  apply alloc_keeps in H1 as (K1 & Harr & G1 & A1).
  apply bind_returned in Hrun as (e & rt2 & H2 & Hrun).
  apply readEvent_returned in H2 as [-> He].
  apply bind_returned in Hrun as (cur & rt3 & H3 & Hrun).
  unfold OnHeap.newDate in H3.
  apply alloc_keeps in H3 as (K3 & Hcur & G3 & A3).
  assert (K : OnHeap.keepsObjects rt rt3)
    by (eapply keepsObjects_trans; eassumption).
  pose proof (loadEvent_kept _ _ _ _ K Hev) as Hev3.
  pose proof (loadEvent_kept _ _ _ _ K1 Hev) as Hev1.
  unfold OnHeap.loadEvent in Hev1. rewrite He in Hev1.
  destruct (OnHeap.timeOf rt1 (OnHeap.objStartDate e)) as [t0 |] eqn:Et0;
    [| discriminate].
  destruct (OnHeap.objRecurrence e) as [ruleRef |] eqn:Erec;
    [| discriminate].
  destruct (OnHeap.loadRule rt1 ruleRef) as [r |] eqn:Er; [| discriminate].
  injection Hev1 as <-.
  apply bind_returned in Hrun as (ro & rt4 & H4 & Hrun).
  apply readRule_returned in H4 as [-> Hro].
  apply bind_returned in Hrun as (locals & rt5 & H5 & Hrun).
  unfold OnHeap.ret in Hrun. injection Hrun as <- <-.
  pose proof (loadRule_kept _ _ _ _ K3 Er) as Er3.
  assert (Hmax : OnHeap.timeOf rt3
                   match OnHeap.ruleEndDate ro with
                   | Some e0 => e0
                   | None => rangeEnd
                   end = Some (maxDateOf r tEnd)
                 /\ maxOccurrencesOf r
                    = match OnHeap.ruleMaxOccurrences ro with
                      | Some n => if n =? 0 then 100 else n
                      | None => 100
                      end).
  { unfold OnHeap.loadRule in Er3. rewrite Hro in Er3.
    unfold maxDateOf, maxOccurrencesOf.
    destruct (OnHeap.ruleEndDate ro) as [e0 |].
    - destruct (OnHeap.timeOf rt3 e0) as [t |]; [| discriminate].
      injection Er3 as <-. cbn. auto.
    - injection Er3 as <-. cbn. split; [| reflexivity].
      eapply timeOf_kept; eassumption. }
  destruct Hmax as [Hmax Hocc]. rewrite <- Hocc in H5.
  apply (whileJs_simulates
           (OnHeap.corresponds arr baseEvent ruleRef rangeStart rangeEnd
              match OnHeap.ruleEndDate ro with
              | Some e0 => e0
              | None => rangeEnd
              end
              (OnHeap.eventValue e t0 (Some r)) r tStart tEnd)
           _ _
           (loopCondition (maxDateOf r tEnd) tEnd (maxOccurrencesOf r))
           (loopBody shouldCreateOccurrence getNextOccurrenceDate
              (OnHeap.eventValue e t0 (Some r)) r tStart)
           (loopCondition_corresponds _ _ _ _ _ _ _ _ _ _)
           (fun locals rt st locals' rt' HR _ Hb =>
              loopBody_corresponds _ _ _ _ _ _ _ _ _ _ _ _ _ _ _ _ _ HR Hb)
           fuel _ _ (initialState (OnHeap.eventValue e t0 (Some r))
                       (OnHeap.objectIds rt)))
    in H5 as (st' & Hw & HR').
  - destruct HR' as (_ & _ & _ & _ & _ & _ & _ & _ & Hids & Hholds).
    exists (events st'). split; [exact Hholds |].
    unfold generateRecurringEvents. cbn [recurrence OnHeap.eventValue].
    rewrite Hw, Hids. reflexivity.
  - unfold OnHeap.corresponds.
    cbn [OnHeap.currentDateRef OnHeap.count initialState currentDate
         occurrenceCount idGen events].
    split; [exact Hev3 |].
    split; [exists e; split; [apply A3, He | exact Erec] |].
    split; [exact Er3 |].
    split; [eapply timeOf_kept; eassumption |].
    split; [eapply timeOf_kept; eassumption |].
    split; [exact Hmax |].
    split; [unfold OnHeap.timeOf; rewrite Hcur; reflexivity |].
    split; [reflexivity |].
    split; [congruence |].
    exists []. split; [apply A3, Harr | constructor].
Qed.

(** ** More on [generateRecurringEvents] *)

Section MoreExpanderFacts.

Variable shouldCreateOccurrence : Date -> RecurrencePattern -> bool.
Variable getNextOccurrenceDate : Date -> RecurrencePattern -> Date.

Local Abbreviation turn := (loopBody shouldCreateOccurrence getNextOccurrenceDate).

(** More fuel does not change what a call returns. *)
Lemma generate_fuel_mono fuel fuel' baseEvent rangeStart rangeEnd g res :
  (fuel <= fuel')%nat ->
  generateRecurringEvents shouldCreateOccurrence getNextOccurrenceDate
    fuel baseEvent rangeStart rangeEnd g = Returned res ->
  generateRecurringEvents shouldCreateOccurrence getNextOccurrenceDate
    fuel' baseEvent rangeStart rangeEnd g = Returned res.
Proof.
  intros Hle. unfold generateRecurringEvents.
  destruct (recurrence baseEvent) as [r |]; [| discriminate].
  destruct (while fuel _ _ _) as [st |] eqn:Hw; [| discriminate].
  rewrite (while_fuel_mono _ _ _ _ _ _ Hle Hw). auto.
Qed.

(** Whatever the helpers do, an occurrence starts inside the range. *)
Lemma generate_in_range fuel baseEvent rangeStart rangeEnd g evs g' :
  generateRecurringEvents shouldCreateOccurrence getNextOccurrenceDate
    fuel baseEvent rangeStart rangeEnd g = Returned (evs, g') ->
  Forall (fun o => rangeStart <= startDate o <= rangeEnd) evs.
Proof.
  intros Hrun.
  destruct (recurrence baseEvent) as [r |] eqn:Hr;
    [| unfold generateRecurringEvents in Hrun; rewrite Hr in Hrun;
       discriminate].
  destruct (generate_invariant shouldCreateOccurrence getNextOccurrenceDate
    (fun st => Forall (fun o => rangeStart <= startDate o <= rangeEnd)
                 (events st))
    fuel baseEvent r rangeStart rangeEnd g evs g' Hr)
    as (st & Hall & -> & _); [| | exact Hrun | exact Hall].
  - constructor.
  - intros st Hall Hc. apply loopCondition_true in Hc as (_ & Hend & _).
    cbn [loopBody events].
    destruct (createOccurrence_cases shouldCreateOccurrence baseEvent r
                rangeStart st) as [(Hrs & _ & E) | (_ & E)];
      rewrite E; cbn [events]; [| exact Hall].
    apply Forall_app. split; [exact Hall |].
    constructor; [| constructor]. cbn [occurrenceEvent startDate]. lia.
Qed.

(** With a helper that moves the cursor ahead, later cursor positions are
    later dates. *)
Lemma cursor_positions_ascend r seed (j k : nat) :
  (forall d, d < getNextOccurrenceDate d r) ->
  (j <= k)%nat ->
  Nat.iter j (fun c => getNextOccurrenceDate c r) seed
  <= Nat.iter k (fun c => getNextOccurrenceDate c r) seed.
Proof.
  intros Hnext Hjk. induction Hjk as [| k Hjk IH]; [lia |].
  rewrite Nat.iter_succ.
  pose proof (Hnext (Nat.iter k (fun c => getNextOccurrenceDate c r) seed)).
  lia.
Qed.

(** X1. Completeness. When a call returns fewer occurrences than the cap
    allows, it has missed nothing: every cursor position that lies in the
    range, not after the rule's end date, and that the candidate test
    accepts, is the start of a returned occurrence.  (The helper is
    assumed to move the cursor ahead.) *)
Theorem candidates_in_range_are_returned
    fuel baseEvent r rangeStart rangeEnd g evs g' (k : nat) :
  recurrence baseEvent = Some r ->
  (forall d, d < getNextOccurrenceDate d r) ->
  generateRecurringEvents shouldCreateOccurrence getNextOccurrenceDate
    fuel baseEvent rangeStart rangeEnd g = Returned (evs, g') ->
  Z.of_nat (length evs) < maxOccurrencesOf r ->
  let d := Nat.iter k (fun c => getNextOccurrenceDate c r)
             (startDate baseEvent) in
  rangeStart <= d <= rangeEnd ->
  d <= maxDateOf r rangeEnd ->
  shouldCreateOccurrence d r = true ->
  In d (map startDate evs).
Proof.
  intros Hr Hnext Hrun Hcap d Hrange Hmax Hshould.
  set (pos := fun j : nat =>
                Nat.iter j (fun c => getNextOccurrenceDate c r)
                  (startDate baseEvent)).
  destruct (generate_invariant shouldCreateOccurrence getNextOccurrenceDate
    (fun st =>
       Z.of_nat (length (events st)) = occurrenceCount st
       /\ exists K : nat,
            currentDate st = pos K
            /\ forall j : nat,
                 (j < K)%nat -> rangeStart <= pos j ->
                 shouldCreateOccurrence (pos j) r = true ->
                 In (pos j) (map startDate (events st)))
    fuel baseEvent r rangeStart rangeEnd g evs g' Hr)
    as (st & (Hlen & K & Hcur & Hseen) & -> & _ & Hexit);
    [| | exact Hrun |].
  - split; [reflexivity |]. exists O. split; [reflexivity |].
    intros j Hj. lia.
  - intros st (Hlen & K & Hcur & Hseen) _. split.
    + cbn [loopBody occurrenceCount events].
      destruct (createOccurrence_cases shouldCreateOccurrence baseEvent r
                  rangeStart st) as [(_ & _ & E) | (_ & E)];
        rewrite E; cbn [occurrenceCount events]; [| exact Hlen].
      rewrite length_app. cbn [length]. lia.
    + exists (S K). split.
      * rewrite loopBody_currentDate, Hcur. reflexivity.
      * intros j Hj Hrs Hs. cbn [loopBody events].
        destruct (createOccurrence_cases shouldCreateOccurrence baseEvent r
                    rangeStart st) as [(_ & _ & E) | ([Hlt | Hno] & E)];
          rewrite E; cbn [events].
        -- rewrite map_app. apply in_or_app.
           destruct (decide (j = K)) as [-> | Hne].
           ++ right. cbn. left. exact Hcur.
           ++ left. apply Hseen; [lia | assumption | assumption].
        -- destruct (decide (j = K)) as [-> | Hne];
             [rewrite Hcur in Hlt; lia |].
           apply Hseen; [lia | assumption | assumption].
        -- destruct (decide (j = K)) as [-> | Hne];
             [rewrite Hcur in Hno; congruence |].
           apply Hseen; [lia | assumption | assumption].
  - (* the loop was left because the cursor passed the bound *)
    assert (Hpast : d < pos K).
    { unfold loopCondition in Hexit. rewrite <- Hcur.
      destruct (Z.leb_spec (currentDate st) (maxDateOf r rangeEnd));
        [| lia].
      destruct (Z.leb_spec (currentDate st) rangeEnd); [| lia].
      destruct (Z.ltb_spec (occurrenceCount st) (maxOccurrencesOf r));
        [discriminate | lia]. }
    assert (Hk : (k < K)%nat).
    { destruct (le_lt_dec K k) as [Hle | Hlt]; [| exact Hlt].
      pose proof (cursor_positions_ascend r (startDate baseEvent) K k
                    Hnext Hle) as Hasc.
      fold (pos K) in Hasc. fold (pos k) in Hasc. subst d. fold (pos k) in Hpast.
      lia. }
    apply (Hseen k Hk); [apply Hrange | exact Hshould].
Qed.

(** X2. The loop is not entered when the range ends before the base event
    starts, when the rule's end date lies before its start, or when
    [maxOccurrences] is negative: the call returns the empty array at
    once, whatever the helpers and without drawing an id. *)
Theorem nothing_when_loop_not_entered
    fuel baseEvent r rangeStart rangeEnd g :
  recurrence baseEvent = Some r ->
  rangeEnd < startDate baseEvent
  \/ (exists e, endDate r = Some e /\ e < startDate baseEvent)
  \/ (exists n, maxOccurrences r = Some n /\ n < 0) ->
  generateRecurringEvents shouldCreateOccurrence getNextOccurrenceDate
    fuel baseEvent rangeStart rangeEnd g = Returned ([], g).
Proof.
  intros Hr Hcase. unfold generateRecurringEvents. rewrite Hr.
  assert (Hc : loopCondition (maxDateOf r rangeEnd) rangeEnd
                 (maxOccurrencesOf r) (initialState baseEvent g) = false).
  { unfold loopCondition, initialState. cbn [currentDate occurrenceCount].
    destruct Hcase as [Hre | [(e & He & Hlt) | (n & Hn & Hneg)]].
    - destruct (Z.leb_spec (startDate baseEvent) rangeEnd); [lia |].
      apply andb_false_iff. left. apply andb_false_iff. right. reflexivity.
    - unfold maxDateOf. rewrite He.
      destruct (Z.leb_spec (startDate baseEvent) e); [lia | reflexivity].
    - unfold maxOccurrencesOf. rewrite Hn.
      destruct (Z.eqb_spec n 0); [lia |].
      destruct (Z.ltb_spec 0 n); [lia |]. apply andb_false_r. }
  destruct fuel; cbn [while]; rewrite Hc; reflexivity.
Qed.

End MoreExpanderFacts.

(** ** The range query *)

Lemma findBaseEvents_spec collection user event :
  In event (findBaseEvents collection user)
  <-> In event collection /\ userId event = user
      /\ isRecurringInstance event = false.
Proof.
  unfold findBaseEvents. rewrite filter_In, andb_true_iff, negb_true_iff.
  rewrite N.eqb_eq. tauto.
Qed.

Lemma startsInRange_spec event rangeStart rangeEnd :
  startsInRange event rangeStart rangeEnd = true
  <-> rangeStart <= startDate event <= rangeEnd.
Proof. unfold startsInRange. lia. Qed.

Lemma NoDup_map_filter {A B : Type} (f : A -> B) (p : A -> bool) (l : list A) :
  NoDup (map f l) -> NoDup (map f (List.filter p l)).
Proof.
  rewrite !NoDup_ListNoDup.
  induction l as [| a l IH]; cbn; [auto |].
  intros Hnd. apply List.NoDup_cons_iff in Hnd as [Hnot Hnd].
  destruct (p a); cbn; [| auto].
  apply List.NoDup_cons; [| auto].
  intros Hin. apply Hnot. apply in_map_iff in Hin as (x & Hx & Hin).
  apply in_map_iff. exists x. split; [exact Hx |].
  apply filter_In in Hin. tauto.
Qed.

Section QueryFacts.

Variable shouldCreateOccurrence : Date -> RecurrencePattern -> bool.
Variable getNextOccurrenceDate : Date -> RecurrencePattern -> Date.

Local Abbreviation generate :=
  (generateRecurringEvents shouldCreateOccurrence getNextOccurrenceDate).
Local Abbreviation forEach :=
  (forEachBaseEvent shouldCreateOccurrence getNextOccurrenceDate).

(** A property that holds of the single events in range and of every
    instance made from a base event holds of all that is gathered. *)
Lemma forEachBaseEvent_Forall (P : EventsCalendar -> Prop)
    fuel rangeStart rangeEnd baseEvents :
  forall allEvents g evs g',
    (forall event,
       In event baseEvents -> recurrence event = None ->
       rangeStart <= startDate event <= rangeEnd -> P event) ->
    (forall event r g1 occs g2,
       In event baseEvents -> recurrence event = Some r ->
       generate fuel event rangeStart rangeEnd g1 = Returned (occs, g2) ->
       Forall P occs) ->
    Forall P allEvents ->
    forEach fuel baseEvents rangeStart rangeEnd allEvents g
    = Returned (evs, g') ->
    Forall P evs.
Proof.
  induction baseEvents as [| event rest IH];
    intros allEvents g evs g' Hsingle Hrec Hacc Hrun; cbn in Hrun.
  - injection Hrun as <- <-. exact Hacc.
  - assert (Hsingle' : forall e, In e rest -> recurrence e = None ->
                         rangeStart <= startDate e <= rangeEnd -> P e)
      by (intros e He; apply Hsingle; right; exact He).
    assert (Hrec' : forall e r g1 occs g2, In e rest ->
                      recurrence e = Some r ->
                      generate fuel e rangeStart rangeEnd g1
                      = Returned (occs, g2) -> Forall P occs)
      by (intros e r g1 occs g2 He; apply Hrec; right; exact He).
    destruct (recurrence event) as [r |] eqn:Hr.
    + destruct (generate fuel event rangeStart rangeEnd g)
        as [[occs g2] | |] eqn:Hg; try discriminate.
      apply (IH _ _ _ _ Hsingle' Hrec') in Hrun; [exact Hrun |].
      apply Forall_app. split; [exact Hacc |].
      eapply Hrec; [left; reflexivity | exact Hr | exact Hg].
    + destruct (startsInRange event rangeStart rangeEnd) eqn:Hin.
      * apply (IH _ _ _ _ Hsingle' Hrec') in Hrun; [exact Hrun |].
        apply Forall_app. split; [exact Hacc |].
        constructor; [| constructor].
        apply Hsingle; [left; reflexivity | exact Hr |].
        apply startsInRange_spec, Hin.
      * apply (IH _ _ _ _ Hsingle' Hrec') in Hrun; [exact Hrun | exact Hacc].
Qed.

(** Where the results of the query come from. *)
Lemma query_results_fromCalendar
    fuel collection user rangeStart rangeEnd g evs g' :
  findEventsInRange shouldCreateOccurrence getNextOccurrenceDate
    fuel collection user rangeStart rangeEnd g = Returned (evs, g') ->
  Forall (fromCalendar collection user rangeStart rangeEnd) evs.
Proof.
  intros Hrun. unfold findEventsInRange in Hrun.
  eapply forEachBaseEvent_Forall; [| | constructor | exact Hrun].
  - intros event Hin Hr Hrange.
    apply findBaseEvents_spec in Hin as (Hin & Hu & Hi).
    left. auto.
  - intros event r g1 occs g2 Hin Hr Hg.
    apply findBaseEvents_spec in Hin as (Hin & Hu & Hi).
    pose proof (generate_in_range _ _ _ _ _ _ _ _ _ Hg) as Hrange.
    destruct (generate_occurrences _ _ _ _ _ _ _ _ _ _ Hr Hg) as [Hocc _].
    rewrite Forall_forall in Hrange, Hocc. apply Forall_forall.
    intros o Ho. right. exists event, r.
    destruct (Hocc o Ho) as (Heq & _). auto 7.
Qed.

(** X5. Every event the query returns starts inside the queried range,
    the single events and the instances alike, whatever the helpers. *)
Theorem query_results_in_range
    fuel collection user rangeStart rangeEnd g evs g' :
  findEventsInRange shouldCreateOccurrence getNextOccurrenceDate
    fuel collection user rangeStart rangeEnd g = Returned (evs, g') ->
  Forall (fun o => rangeStart <= startDate o <= rangeEnd) evs.
Proof.
  intros Hrun. apply query_results_fromCalendar in Hrun.
  eapply Forall_impl; [exact Hrun |].
  intros o [(_ & _ & _ & _ & H) | (base & r & _ & _ & _ & _ & _ & H)]; exact H.
Qed.

(** X6. Every event the query returns belongs to the user it was asked
    for. *)
Theorem query_results_belong_to_user
    fuel collection user rangeStart rangeEnd g evs g' :
  findEventsInRange shouldCreateOccurrence getNextOccurrenceDate
    fuel collection user rangeStart rangeEnd g = Returned (evs, g') ->
  Forall (fun o => userId o = user) evs.
Proof.
  intros Hrun. apply query_results_fromCalendar in Hrun.
  eapply Forall_impl; [exact Hrun |].
  intros o [(_ & H & _) | (base & r & _ & H & _ & _ & Ho & _)]; [exact H |].
  rewrite Ho. exact H.
Qed.

(** X7. A recurring base event is never returned as it is stored: what
    comes back for it are instances, flagged as such and pointing to it
    as their parent.  What is returned unflagged is a single event of the
    user, as stored. *)
Theorem query_returns_instances_not_base_events
    fuel collection user rangeStart rangeEnd g evs g' :
  findEventsInRange shouldCreateOccurrence getNextOccurrenceDate
    fuel collection user rangeStart rangeEnd g = Returned (evs, g') ->
  Forall (fun o =>
            if isRecurringInstance o then
              exists base,
                In base collection /\ recurrence base <> None
                /\ isRecurringInstance base = false
                /\ parentEventId o = Some (_id base)
                /\ title o = title base /\ duration o = duration base
            else
              In o collection /\ recurrence o = None) evs
  /\ forall base,
       In base (findBaseEvents collection user) ->
       recurrence base <> None -> ~ In base evs.
Proof.
  intros Hrun. apply query_results_fromCalendar in Hrun.
  split.
  - eapply Forall_impl; [exact Hrun |].
    intros o [(Hin & _ & Hi & Hr & _) | (base & r & Hin & _ & Hi & Hr & Ho & _)].
    + rewrite Hi. auto.
    + rewrite Ho. cbn [isRecurringInstance occurrenceEvent parentEventId
                        title duration].
      exists base. rewrite Hr. repeat split; auto; discriminate.
  - intros base Hbase Hrec Hin.
    apply findBaseEvents_spec in Hbase as (_ & _ & Hflag).
    rewrite List.Forall_forall in Hrun.
    destruct (Hrun base Hin)
      as [(_ & _ & _ & Hr & _) | (b & r & _ & _ & _ & _ & Ho & _)].
    + contradiction.
    + rewrite Ho in Hflag. discriminate.
Qed.

(** What is gathered so far stays in the result, and a single event in
    range among the base events gets into it. *)
Lemma forEachBaseEvent_includes fuel rangeStart rangeEnd baseEvents :
  forall allEvents g evs g',
    forEach fuel baseEvents rangeStart rangeEnd allEvents g
    = Returned (evs, g') ->
    (forall o, In o allEvents -> In o evs)
    /\ (forall event,
          In event baseEvents -> recurrence event = None ->
          rangeStart <= startDate event <= rangeEnd -> In event evs).
Proof.
  induction baseEvents as [| event rest IH];
    intros allEvents g evs g' Hrun; cbn in Hrun.
  - injection Hrun as <- <-. split; [auto | intros e []].
  - destruct (recurrence event) as [r |] eqn:Hr.
    + destruct (generate fuel event rangeStart rangeEnd g)
        as [[occs g2] | |] eqn:Hg; try discriminate.
      apply IH in Hrun as [Hacc Hrest]. split.
      * intros o Ho. apply Hacc, in_or_app. left. exact Ho.
      * intros e [<- | He] Hnone; [congruence | auto].
    + destruct (startsInRange event rangeStart rangeEnd) eqn:Hin;
        apply IH in Hrun as [Hacc Hrest]; split.
      * intros o Ho. apply Hacc, in_or_app. left. exact Ho.
      * intros e [<- | He] Hnone Hrange; [| auto].
        apply Hacc, in_or_app. right. left. reflexivity.
      * exact Hacc.
      * intros e [<- | He] Hnone Hrange; [| auto].
        apply startsInRange_spec in Hrange. congruence.
Qed.

(** X8. A single (non-recurring) event of the user is returned exactly when
    it starts inside the range, both ends included. *)
Theorem single_event_returned_iff_in_range
    fuel collection user rangeStart rangeEnd g evs g' event :
  findEventsInRange shouldCreateOccurrence getNextOccurrenceDate
    fuel collection user rangeStart rangeEnd g = Returned (evs, g') ->
  In event collection -> userId event = user ->
  isRecurringInstance event = false -> recurrence event = None ->
  (In event evs <-> rangeStart <= startDate event <= rangeEnd).
Proof.
  intros Hrun Hin Hu Hflag Hnone. split.
  - intros Hev. apply query_results_fromCalendar in Hrun.
    rewrite List.Forall_forall in Hrun.
    destruct (Hrun event Hev)
      as [(_ & _ & _ & _ & H) | (b & r & _ & _ & _ & _ & Ho & _)];
      [exact H |].
    rewrite Ho in Hflag. discriminate.
  - intros Hrange. unfold findEventsInRange in Hrun.
    apply forEachBaseEvent_includes in Hrun as [_ Hrest].
    apply Hrest; [| exact Hnone | exact Hrange].
    apply findBaseEvents_spec. auto.
Qed.

Lemma forEachBaseEvent_ids fuel rangeStart rangeEnd g0 baseEvents :
  forall allEvents g evs g',
    (g0 <= g)%N ->
    NoDup (map _id baseEvents) ->
    Forall (fun e => (_id e < g0)%N) baseEvents ->
    NoDup (map _id allEvents) ->
    Forall (fun o => (_id o < g)%N) allEvents ->
    (forall o e, In o allEvents -> In e baseEvents -> _id o <> _id e) ->
    forEach fuel baseEvents rangeStart rangeEnd allEvents g
    = Returned (evs, g') ->
    NoDup (map _id evs).
Proof.
  induction baseEvents as [| event rest IH];
    intros allEvents g evs g' Hg Hnd Hold Hacc Hbelow Hdisj Hrun;
    cbn in Hrun.
  - injection Hrun as <- <-. exact Hacc.
  - cbn in Hnd. apply NoDup_cons in Hnd as [Hnot Hnd].
    apply List.Forall_cons_iff in Hold as [Hevent Hold].
    destruct (recurrence event) as [r |] eqn:Hr.
    + destruct (generate fuel event rangeStart rangeEnd g)
        as [[occs g2] | |] eqn:Hgen; try discriminate.
      destruct (generate_occurrences _ _ _ _ _ _ _ _ _ _ Hr Hgen)
        as [Hocc Hndo].
      pose proof (generate_supply _ _ _ _ _ _ _ _ _ _ Hr Hgen) as Hsup.
      rewrite List.Forall_forall in Hocc, Hbelow, Hold.
      apply (IH _ _ _ _) in Hrun; [exact Hrun | lia | exact Hnd | | | |].
      * apply List.Forall_forall. exact Hold.
      * rewrite map_app. apply NoDup_app. split; [exact Hacc |].
        split; [| exact Hndo].
        intros x Hx Hx'. apply list_elem_of_In, in_map_iff in Hx as (o & <- & Ho).
        apply list_elem_of_In, in_map_iff in Hx' as (o' & Heq & Ho').
        specialize (Hbelow o Ho). destruct (Hocc o' Ho') as (_ & Hr' & _). lia.
      * apply List.Forall_forall. intros o Ho.
        apply in_app_or in Ho as [Ho | Ho].
        -- specialize (Hbelow o Ho). lia.
        -- destruct (Hocc o Ho) as (_ & Hr' & _). lia.
      * intros o e Ho He. apply in_app_or in Ho as [Ho | Ho].
        -- apply Hdisj; [exact Ho | right; exact He].
        -- destruct (Hocc o Ho) as (_ & Hr' & _). specialize (Hold e He). lia.
    + assert (Hrest : forall o e,
                 In o (allEvents ++ [event]) -> In e rest -> _id o <> _id e).
      { intros o e Ho He. apply in_app_or in Ho as [Ho | [<- | []]].
        - apply Hdisj; [exact Ho | right; exact He].
        - intros Heq. apply Hnot. rewrite Heq.
          apply list_elem_of_In, in_map. exact He. }
      destruct (startsInRange event rangeStart rangeEnd).
      * apply (IH _ _ _ _) in Hrun; [exact Hrun | exact Hg | exact Hnd
                                    | exact Hold | | | exact Hrest].
        -- rewrite map_app. apply NoDup_app. split; [exact Hacc |].
           split; [| apply NoDup_singleton].
           intros x Hx Hx'. apply list_elem_of_In, in_map_iff in Hx as (o & <- & Ho).
           cbn in Hx'. apply list_elem_of_singleton in Hx'.
           exact (Hdisj o event Ho (or_introl eq_refl) Hx').
        -- apply Forall_app. split; [exact Hbelow |].
           constructor; [lia | constructor].
      * apply (IH _ _ _ _) in Hrun; [exact Hrun | exact Hg | exact Hnd
                                    | exact Hold | exact Hacc | exact Hbelow |].
        intros o e Ho He. apply Hdisj; [exact Ho | right; exact He].
Qed.

Lemma forEachBaseEvent_fresh fuel rangeStart rangeEnd g0 baseEvents :
  forall allEvents g evs g',
    (g0 <= g)%N ->
    Forall (fun e => isRecurringInstance e = false) baseEvents ->
    Forall (fun o => isRecurringInstance o = true -> (g0 <= _id o)%N)
      allEvents ->
    forEach fuel baseEvents rangeStart rangeEnd allEvents g
    = Returned (evs, g') ->
    Forall (fun o => isRecurringInstance o = true -> (g0 <= _id o)%N) evs.
Proof.
  induction baseEvents as [| event rest IH];
    intros allEvents g evs g' Hg Hflags Hacc Hrun; cbn in Hrun.
  - injection Hrun as <- <-. exact Hacc.
  - apply List.Forall_cons_iff in Hflags as [Hflag Hflags].
    destruct (recurrence event) as [r |] eqn:Hr.
    + destruct (generate fuel event rangeStart rangeEnd g)
        as [[occs g2] | |] eqn:Hgen; try discriminate.
      destruct (generate_occurrences _ _ _ _ _ _ _ _ _ _ Hr Hgen)
        as [Hocc _].
      pose proof (generate_supply _ _ _ _ _ _ _ _ _ _ Hr Hgen) as Hsup.
      apply (IH _ _ _ _) in Hrun; [exact Hrun | lia | exact Hflags |].
      apply Forall_app. split; [exact Hacc |].
      eapply Forall_impl; [exact Hocc |].
      intros o (_ & Hrange & _) _. lia.
    + destruct (startsInRange event rangeStart rangeEnd).
      * apply (IH _ _ _ _) in Hrun; [exact Hrun | exact Hg | exact Hflags |].
        apply Forall_app. split; [exact Hacc |].
        constructor; [congruence | constructor].
      * apply (IH _ _ _ _) in Hrun; [exact Hrun | exact Hg | exact Hflags
                                    | exact Hacc].
Qed.

(** X9. When the stored events have distinct ids, all issued before the
    query, no two returned events share an id: the instances made for
    different base events differ from one another and from everything
    stored. *)
Theorem query_results_have_distinct_ids
    fuel collection user rangeStart rangeEnd g evs g' :
  NoDup (map _id collection) ->
  Forall (fun e => (_id e < g)%N) collection ->
  findEventsInRange shouldCreateOccurrence getNextOccurrenceDate
    fuel collection user rangeStart rangeEnd g = Returned (evs, g') ->
  NoDup (map _id evs)
  /\ Forall (fun o =>
               isRecurringInstance o = true ->
               Forall (fun e => _id e <> _id o) collection) evs.
Proof.
  intros Hnd Hold Hrun. split.
  - unfold findEventsInRange in Hrun.
    eapply (forEachBaseEvent_ids fuel rangeStart rangeEnd g);
      [| | | | | | exact Hrun].
    + lia.
    + apply NoDup_map_filter, Hnd.
    + rewrite List.Forall_forall in Hold. apply List.Forall_forall.
      intros e He. apply Hold. apply filter_In in He. tauto.
    + constructor.
    + constructor.
    + intros o e [].
  - unfold findEventsInRange in Hrun.
    apply (forEachBaseEvent_fresh fuel rangeStart rangeEnd g) in Hrun;
      [| lia | | constructor].
    + eapply Forall_impl; [exact Hrun |].
      intros o Ho Hflag. specialize (Ho Hflag).
      eapply Forall_impl; [exact Hold |]. intros e He. cbn beta in He. lia.
    + apply List.Forall_forall. intros e He.
      apply findBaseEvents_spec in He. tauto.
Qed.

(** X10. If every turn of the helper moves the cursor at least [step] ahead,
    the query returns as soon as the fuel covers, for each recurring base
    event, the steps from its start to the end of the range or of its
    rule. *)
Theorem query_terminates
    fuel collection user rangeStart rangeEnd g step :
  0 < step ->
  (forall d r, d + step <= getNextOccurrenceDate d r) ->
  Forall (fun event => (turnsFor step rangeEnd event <= fuel)%nat)
    (findBaseEvents collection user) ->
  exists evs g',
    findEventsInRange shouldCreateOccurrence getNextOccurrenceDate
      fuel collection user rangeStart rangeEnd g = Returned (evs, g').
Proof.
  intros Hstep Hnext. unfold findEventsInRange.
  generalize (@nil EventsCalendar) g.
  induction (findBaseEvents collection user) as [| event rest IH];
    intros allEvents g0 Hfuel; cbn.
  - eauto.
  - apply List.Forall_cons_iff in Hfuel as [Hevent Hfuel].
    destruct (recurrence event) as [r |] eqn:Hr.
    + destruct (generate_terminates shouldCreateOccurrence
                  getNextOccurrenceDate event r rangeStart rangeEnd g0 step
                  Hstep Hr (fun d => Hnext d r) fuel) as (occs & g2 & Hgen).
      { unfold turnsFor in Hevent. rewrite Hr in Hevent. exact Hevent. }
      rewrite Hgen. apply IH, Hfuel.
    + destruct (startsInRange event rangeStart rangeEnd); apply IH, Hfuel.
Qed.

(** X11. The query returns at most one event per single base event and, per
    recurring base event, at most its [maxOccurrences] (100 when it has
    none). *)
Theorem query_size_bound
    fuel collection user rangeStart rangeEnd g evs g' :
  findEventsInRange shouldCreateOccurrence getNextOccurrenceDate
    fuel collection user rangeStart rangeEnd g = Returned (evs, g') ->
  Z.of_nat (length evs)
  <= fold_right Z.add 0
       (map contributionBound (findBaseEvents collection user)).
Proof.
  unfold findEventsInRange.
  assert (H : forall baseEvents allEvents g0,
             forEach fuel baseEvents rangeStart rangeEnd allEvents g0
             = Returned (evs, g') ->
             Z.of_nat (length evs)
             <= Z.of_nat (length allEvents)
                + fold_right Z.add 0 (map contributionBound baseEvents)).
  { induction baseEvents as [| event rest IH]; intros allEvents g0 Hrun;
      cbn in Hrun.
    - injection Hrun as <- <-. cbn. lia.
    - cbn [map fold_right]. unfold contributionBound at 1.
      destruct (recurrence event) as [r |] eqn:Hr.
      + destruct (generate fuel event rangeStart rangeEnd g0)
          as [[occs g2] | |] eqn:Hgen; try discriminate.
        pose proof (generate_count _ _ _ _ _ _ _ _ _ _ Hr Hgen) as Hc.
        apply IH in Hrun. rewrite length_app in Hrun. lia.
      + destruct (startsInRange event rangeStart rangeEnd);
          apply IH in Hrun; rewrite ?length_app in Hrun; cbn in Hrun; lia. }
  intros Hrun. apply H in Hrun. cbn in Hrun. lia.
Qed.

(** X12. Asked for a range whose start lies after its end, the query returns
    nothing and draws no id. *)
Theorem inverted_query_yields_nothing
    fuel collection user rangeStart rangeEnd g evs g' :
  rangeEnd < rangeStart ->
  findEventsInRange shouldCreateOccurrence getNextOccurrenceDate
    fuel collection user rangeStart rangeEnd g = Returned (evs, g') ->
  evs = [] /\ g' = g.
Proof.
  intros Hinv. unfold findEventsInRange.
  generalize (findBaseEvents collection user).
  induction l as [| event rest IH]; intros Hrun; cbn in Hrun.
  - injection Hrun as <- <-. auto.
  - destruct (recurrence event) as [r |] eqn:Hr.
    + destruct (generate fuel event rangeStart rangeEnd g)
        as [[occs g2] | |] eqn:Hgen; try discriminate.
      pose proof (generate_in_range _ _ _ _ _ _ _ _ _ Hgen) as Hrange.
      pose proof (generate_supply _ _ _ _ _ _ _ _ _ _ Hr Hgen) as Hsup.
      destruct occs as [| o occs].
      * cbn in Hsup. replace g2 with g in Hrun by lia. apply IH, Hrun.
      * apply List.Forall_cons_iff in Hrange as [Ho _]. lia.
    + unfold startsInRange in Hrun.
      destruct (Z.leb_spec rangeStart (startDate event));
        destruct (Z.leb_spec (startDate event) rangeEnd);
        try lia; cbn [andb] in Hrun; apply IH, Hrun.
Qed.

End QueryFacts.

(** ** The further theorems at sample inputs *)

(** The daily stand-up, capped at three occurrences. *)
Lemma single_call_cap_witness :
  exists evs g',
    expand 64 Samples.dailyStandup Samples.january1st Samples.endOfJanuary
      Samples.supply = Returned (evs, g')
    /\ Z.of_nat (length evs) <= 3.
Proof.
  eexists. eexists. split.
  - vm_compute. reflexivity.
  - eapply (single_call_cap Helpers.shouldCreateOccurrence
              Helpers.getNextOccurrenceDate 64 Samples.dailyStandup
              Samples.dailyRule Samples.january1st Samples.endOfJanuary
              Samples.supply).
    + reflexivity.
    + reflexivity.
    + lia.
    + vm_compute. reflexivity.
Defined.

(** The weekly meeting in January: the cursor position after two turns
    is a meeting day in the range, and is found among the results. *)
Lemma candidates_in_range_are_returned_witness :
  exists evs g',
    expand 64 Samples.teamMeeting Samples.january1st Samples.endOfJanuary
      Samples.supply = Returned (evs, g')
    /\ In (Nat.iter 2
             (fun c => Helpers.getNextOccurrenceDate c Samples.weeklyRule)
             (startDate Samples.teamMeeting))
          (map startDate evs).
Proof.
  eexists. eexists. split.
  - vm_compute. reflexivity.
  - eapply (candidates_in_range_are_returned Helpers.shouldCreateOccurrence
             Helpers.getNextOccurrenceDate 64 Samples.teamMeeting
             Samples.weeklyRule Samples.january1st Samples.endOfJanuary
             Samples.supply _ _ 2).
    + reflexivity.
    + apply helper_moves_ahead.
    + vm_compute. reflexivity.
    + vm_compute. reflexivity.
    + vm_compute. split; discriminate.
    + vm_compute. discriminate.
    + vm_compute. reflexivity.
Defined.

(** The weekly meeting, asked for a range that ends before it starts. *)
Lemma nothing_when_loop_not_entered_witness :
  expand 0 Samples.teamMeeting (utc 2023 12 1 0 0 0) (utc 2023 12 31 0 0 0)
    Samples.supply
  = Returned ([], Samples.supply).
Proof.
  apply (nothing_when_loop_not_entered Helpers.shouldCreateOccurrence
           Helpers.getNextOccurrenceDate 0 Samples.teamMeeting
           Samples.weeklyRule (utc 2023 12 1 0 0 0) (utc 2023 12 31 0 0 0)
           Samples.supply).
  - reflexivity.
  - left. vm_compute. reflexivity.
Defined.

Local Abbreviation januaryQuery :=
  (findEventsInRange Helpers.shouldCreateOccurrence
     Helpers.getNextOccurrenceDate 64 Calendar.collection 1%N
     Samples.january1st Samples.endOfJanuary Samples.supply).

Lemma query_results_in_range_witness :
  exists evs g',
    januaryQuery = Returned (evs, g')
    /\ Forall (fun o =>
                 Samples.january1st <= startDate o <= Samples.endOfJanuary)
         evs.
Proof.
  eexists. eexists. split.
  - vm_compute. reflexivity.
  - eapply (query_results_in_range Helpers.shouldCreateOccurrence
             Helpers.getNextOccurrenceDate 64 Calendar.collection 1%N
             Samples.january1st Samples.endOfJanuary Samples.supply).
    vm_compute. reflexivity.
Defined.

Lemma query_results_belong_to_user_witness :
  exists evs g',
    januaryQuery = Returned (evs, g')
    /\ Forall (fun o => userId o = 1%N) evs.
Proof.
  eexists. eexists. split.
  - vm_compute. reflexivity.
  - eapply (query_results_belong_to_user Helpers.shouldCreateOccurrence
             Helpers.getNextOccurrenceDate 64 Calendar.collection 1%N
             Samples.january1st Samples.endOfJanuary Samples.supply).
    vm_compute. reflexivity.
Defined.

Lemma query_returns_instances_not_base_events_witness :
  exists evs g',
    januaryQuery = Returned (evs, g')
    /\ ~ In Samples.teamMeeting evs.
Proof.
  eexists. eexists. split.
  - vm_compute. reflexivity.
  - eapply (query_returns_instances_not_base_events
             Helpers.shouldCreateOccurrence Helpers.getNextOccurrenceDate 64
             Calendar.collection 1%N Samples.january1st Samples.endOfJanuary
             Samples.supply).
    + vm_compute. reflexivity.
    + vm_compute. auto 10.
    + discriminate.
Defined.

(** The dentist's appointment of 18 January is returned; the conference
    in March is not. *)
Lemma single_event_returned_iff_in_range_witness :
  exists evs g',
    januaryQuery = Returned (evs, g')
    /\ (In Calendar.dentist evs <->
        Samples.january1st <= startDate Calendar.dentist
        <= Samples.endOfJanuary)
    /\ (In Calendar.conference evs <->
        Samples.january1st <= startDate Calendar.conference
        <= Samples.endOfJanuary).
Proof.
  eexists. eexists. split; [| split].
  - vm_compute. reflexivity.
  - eapply (single_event_returned_iff_in_range Helpers.shouldCreateOccurrence
             Helpers.getNextOccurrenceDate 64 Calendar.collection 1%N
             Samples.january1st Samples.endOfJanuary Samples.supply).
    + vm_compute. reflexivity.
    + cbn. auto 10.
    + reflexivity.
    + reflexivity.
    + reflexivity.
  - eapply (single_event_returned_iff_in_range Helpers.shouldCreateOccurrence
             Helpers.getNextOccurrenceDate 64 Calendar.collection 1%N
             Samples.january1st Samples.endOfJanuary Samples.supply).
    + vm_compute. reflexivity.
    + cbn. auto 10.
    + reflexivity.
    + reflexivity.
    + reflexivity.
Defined.

Lemma query_results_have_distinct_ids_witness :
  exists evs g',
    januaryQuery = Returned (evs, g')
    /\ NoDup (map _id evs)
    /\ Forall (fun o =>
                 isRecurringInstance o = true ->
                 Forall (fun e => _id e <> _id o) Calendar.collection) evs.
Proof.
  eexists. eexists. split.
  - vm_compute. reflexivity.
  - eapply (query_results_have_distinct_ids Helpers.shouldCreateOccurrence
             Helpers.getNextOccurrenceDate 64 Calendar.collection 1%N
             Samples.january1st Samples.endOfJanuary Samples.supply).
    + apply (bool_decide_unpack _). vm_compute. exact I.
    + repeat (constructor; [vm_compute; reflexivity |]). constructor.
    + vm_compute. reflexivity.
Defined.

(** The sample helper moves the cursor at least a day ahead, and 64
    turns cover January for each of the user's base events. *)
Lemma query_terminates_witness :
  exists evs g', januaryQuery = Returned (evs, g').
Proof.
  apply (query_terminates Helpers.shouldCreateOccurrence
           Helpers.getNextOccurrenceDate 64 Calendar.collection 1%N
           Samples.january1st Samples.endOfJanuary Samples.supply msPerDay).
  - reflexivity.
  - intros d r. apply getNextOccurrenceDate_progress.
  - repeat (constructor; [vm_compute; lia |]). constructor.
Defined.

Lemma query_size_bound_witness :
  exists evs g',
    januaryQuery = Returned (evs, g')
    /\ Z.of_nat (length evs)
       <= fold_right Z.add 0
            (map contributionBound (findBaseEvents Calendar.collection 1%N)).
Proof.
  eexists. eexists. split.
  - vm_compute. reflexivity.
  - eapply (query_size_bound Helpers.shouldCreateOccurrence
             Helpers.getNextOccurrenceDate 64 Calendar.collection 1%N
             Samples.january1st Samples.endOfJanuary Samples.supply).
    vm_compute. reflexivity.
Defined.

Lemma inverted_query_yields_nothing_witness :
  exists evs g',
    findEventsInRange Helpers.shouldCreateOccurrence
      Helpers.getNextOccurrenceDate 64 Calendar.collection 1%N
      Samples.endOfJanuary Samples.january1st Samples.supply
    = Returned (evs, g')
    /\ evs = [] /\ g' = Samples.supply.
Proof.
  eexists. eexists. split.
  - vm_compute. reflexivity.
  - eapply (inverted_query_yields_nothing Helpers.shouldCreateOccurrence
             Helpers.getNextOccurrenceDate 64 Calendar.collection 1%N
             Samples.endOfJanuary Samples.january1st Samples.supply).
    + vm_compute. reflexivity.
    + vm_compute. reflexivity.
Defined.

(** The weekly meeting on the sample heap, with the helpers reading the
    heap. *)
Lemma heap_method_refines_witness :
  exists array rt' evs,
    OnHeap.generateRecurringEvents OnHeap.shouldCreateOccurrenceRef
      OnHeap.getNextOccurrenceDateRef 64 2 3 4 OnHeap.sampleRuntime
    = Returned (array, rt')
    /\ OnHeap.holdsEvents rt' array evs
    /\ expand 64 Samples.teamMeeting Samples.january1st Samples.endOfJanuary
         (OnHeap.objectIds OnHeap.sampleRuntime)
       = Returned (evs, OnHeap.objectIds rt').
Proof.
  eexists. eexists.
  assert (Hrun : OnHeap.generateRecurringEvents
                   OnHeap.shouldCreateOccurrenceRef
                   OnHeap.getNextOccurrenceDateRef 64 2 3 4
                   OnHeap.sampleRuntime
                 = Returned (_, _)) by (vm_compute; reflexivity).
  destruct (heap_method_refines Helpers.shouldCreateOccurrence
              Helpers.getNextOccurrenceDate 64 2 3 4 OnHeap.sampleRuntime
              Samples.teamMeeting Samples.january1st Samples.endOfJanuary
              _ _ ltac:(vm_compute; reflexivity) ltac:(vm_compute; reflexivity)
              ltac:(vm_compute; reflexivity) Hrun) as (evs & Hholds & Hval).
  exists evs. split; [exact Hrun |]. split; [exact Hholds | exact Hval].
Defined.

(** * Countdown timers: what the service keeps and what it never does *)

Section ServiceFacts.

Import Timers.

Variable Registry : Type.
Variable addTimeout : ObjectId -> Z -> Registry -> option Registry.
Variable deleteTimeout : ObjectId -> Registry -> option Registry.

Local Abbreviation World := (Timers.World Registry).
Local Abbreviation handle := (Timers.handle addTimeout deleteTimeout).
Local Abbreviation handleAll := (Timers.handleAll addTimeout deleteTimeout).

Lemma findOne_Some (user id : ObjectId) (w : World) (c : Countdown) :
  findOne user id w = Some c <->
  countdowns w !! id = Some c /\ userId c = user.
Proof.
  unfold findOne. destruct (countdowns w !! id) as [c'|]; [|split; [discriminate | intros [? _]; discriminate]].
  destruct (decide (userId c' = user)) as [Hu|Hu]; split.
  - intros [= <-]. auto.
  - intros [[= <-] _]. reflexivity.
  - discriminate.
  - intros [[= <-] ?]. contradiction.
Qed.

Lemma findOne_None (user id : ObjectId) (w : World) :
  findOne user id w = None <->
  forall c, countdowns w !! id = Some c -> userId c <> user.
Proof.
  unfold findOne. destruct (countdowns w !! id) as [c'|].
  - destruct (decide (userId c' = user)) as [Hu|Hu]; split; try discriminate.
    + intros H. exfalso. exact (H c' eq_refl Hu).
    + intros _ c [= <-]. exact Hu.
    + reflexivity.
  - split; [intros _ c; discriminate | reflexivity].
Qed.

Lemma consistent_started (c : Countdown) (now : Date) :
  consistent (started c now).
Proof. repeat split; cbn; discriminate. Qed.

Lemma consistent_resumed (c : Countdown) (now : Date) :
  consistent (resumed c now).
Proof. repeat split; cbn; discriminate. Qed.

Lemma consistent_paused (c : Countdown) (remaining : Z) :
  consistent (paused c remaining).
Proof. repeat split; cbn; first [discriminate | reflexivity]. Qed.

Lemma consistent_stopped (c : Countdown) : consistent (stopped c).
Proof. repeat split; cbn; discriminate. Qed.

Lemma consistent_created (id user : ObjectId) (dto : CreateCountdownDto) :
  consistent (created id user dto).
Proof. repeat split; cbn; discriminate. Qed.

(** Saving an update of a stored document, under its own id. *)
Lemma wellFormed_save (w : World) (c c' : Countdown) :
  wellFormed w ->
  countdowns w !! _id c = Some c ->
  _id c' = _id c ->
  consistent c' ->
  wellFormed (save c' w).
Proof.
  intros Hw Hc Hid Hcons id d. cbn. rewrite Hid.
  destruct (decide (id = _id c)) as [->|Hne].
  - rewrite lookup_insert_eq. intros [= <-].
    destruct (Hw _ _ Hc) as (_ & Hlt & _). auto.
  - rewrite lookup_insert_ne by congruence. apply Hw.
Qed.

Lemma wellFormed_ext (w w' : World) :
  countdowns w' = countdowns w ->
  objectIds w' = objectIds w ->
  wellFormed w -> wellFormed w'.
Proof. intros Hc Hg Hw id c. rewrite Hc, Hg. apply Hw. Qed.

Lemma wellFormed_scheduleAndEmit (c : Countdown) (w : World) :
  wellFormed w ->
  wellFormed (snd (scheduleAndEmit addTimeout c w)).
Proof.
  intros Hw. unfold scheduleAndEmit.
  destruct (addTimeout _ _ _); cbn; [|exact Hw].
  eapply wellFormed_ext; [| |exact Hw]; reflexivity.
Qed.

Lemma wellFormed_unscheduleAndEmit (c : Countdown) (w : World) :
  wellFormed w ->
  wellFormed (snd (unscheduleAndEmit deleteTimeout c w)).
Proof.
  intros Hw. unfold unscheduleAndEmit.
  destruct (deleteTimeout _ _); cbn; [|exact Hw].
  eapply wellFormed_ext; [| |exact Hw]; reflexivity.
Qed.

Lemma wellFormed_create (user : ObjectId) (dto : CreateCountdownDto)
    (w : World) :
  wellFormed w -> wellFormed (snd (create user dto w)).
Proof.
  intros Hw id c. unfold create. cbn.
  destruct (decide (id = objectIds w)) as [->|Hne].
  - rewrite lookup_insert_eq. intros [= <-]. cbn.
    split; [reflexivity|]. split; [lia|]. apply consistent_created.
  - rewrite lookup_insert_ne by congruence. intros Hc.
    destruct (Hw _ _ Hc) as (? & ? & ?). split; [assumption|].
    split; [lia | assumption].
Qed.

Lemma wellFormed_delete (user id : ObjectId) (w : World) :
  wellFormed w -> wellFormed (snd (delete user id w)).
Proof.
  intros Hw. unfold delete. destruct (findOne user id w) as [found|]; [|exact Hw].
  intros k c. cbn. intros Hc. apply lookup_delete_Some in Hc as [_ Hc].
  exact (Hw _ _ Hc).
Qed.

Lemma wellFormed_start (user id : ObjectId) (now : Date) (w : World) :
  wellFormed w -> wellFormed (snd (start addTimeout user id now w)).
Proof.
  intros Hw. unfold start.
  destruct (findOne user id w) as [c|] eqn:Hfind; [|exact Hw].
  destruct (decide (status c = RUNNING)); [exact Hw|].
  apply findOne_Some in Hfind as [Hc _].
  destruct (Hw _ _ Hc) as (Hid & _ & _).
  apply wellFormed_scheduleAndEmit.
  apply (wellFormed_save _ c); auto using consistent_started.
  rewrite Hid. exact Hc.
Qed.

Lemma wellFormed_resume (user id : ObjectId) (now : Date) (w : World) :
  wellFormed w -> wellFormed (snd (resume addTimeout user id now w)).
Proof.
  intros Hw. unfold resume.
  destruct (findOne user id w) as [c|] eqn:Hfind; [|exact Hw].
  destruct (decide (status c = PAUSED)); [|exact Hw].
  apply findOne_Some in Hfind as [Hc _].
  destruct (Hw _ _ Hc) as (Hid & _ & _).
  apply wellFormed_scheduleAndEmit.
  apply (wellFormed_save _ c); auto using consistent_resumed.
  rewrite Hid. exact Hc.
Qed.

Lemma wellFormed_pause (user id : ObjectId) (now : Date) (w : World) :
  wellFormed w -> wellFormed (snd (pause deleteTimeout user id now w)).
Proof.
  intros Hw. unfold pause.
  destruct (findOne user id w) as [c|] eqn:Hfind; [|exact Hw].
  destruct (decide (status c = RUNNING)); [|exact Hw].
  destruct (startedAt c); [|exact Hw].
  apply findOne_Some in Hfind as [Hc _].
  destruct (Hw _ _ Hc) as (Hid & _ & _).
  apply wellFormed_unscheduleAndEmit.
  apply (wellFormed_save _ c); auto using consistent_paused.
  rewrite Hid. exact Hc.
Qed.

Lemma wellFormed_stop (user id : ObjectId) (w : World) :
  wellFormed w -> wellFormed (snd (stop deleteTimeout user id w)).
Proof.
  intros Hw. unfold stop.
  destruct (findOne user id w) as [c|] eqn:Hfind; [|exact Hw].
  destruct (decide (status c = STOPPED)); [exact Hw|].
  apply findOne_Some in Hfind as [Hc _].
  destruct (Hw _ _ Hc) as (Hid & _ & _).
  apply wellFormed_unscheduleAndEmit.
  apply (wellFormed_save _ c); auto using consistent_stopped.
  rewrite Hid. exact Hc.
Qed.

Lemma wellFormed_handle (q : Request) (w : World) :
  wellFormed w -> wellFormed (snd (handle q w)).
Proof.
  intros Hw. destruct q; cbn.
  - apply wellFormed_create, Hw.
  - exact Hw.
  - destruct (findOne user id w); exact Hw.
  - apply wellFormed_start, Hw.
  - apply wellFormed_pause, Hw.
  - apply wellFormed_resume, Hw.
  - apply wellFormed_stop, Hw.
  - apply wellFormed_delete, Hw.
Qed.

Lemma handleAll_cons (q : Request) (qs : list Request) (w : World) :
  handleAll (q :: qs) w
  = (fst (handle q w) :: fst (handleAll qs (snd (handle q w))),
     snd (handleAll qs (snd (handle q w)))).
Proof.
  cbn [Timers.handleAll]. destruct (handle q w) as [r w1].
  cbn [fst snd]. destruct (Timers.handleAll _ _ qs w1). reflexivity.
Qed.

Lemma wellFormed_handleAll (qs : list Request) (w : World) :
  wellFormed w -> wellFormed (snd (handleAll qs w)).
Proof.
  revert w. induction qs as [|q qs IH]; intros w Hw; [exact Hw|].
  rewrite handleAll_cons. cbn [snd]. apply IH, wellFormed_handle, Hw.
Qed.

Lemma wellFormed_empty (r : Registry) :
  wellFormed {| countdowns := ∅; registry := r; emitted := [];
                objectIds := 0%N |}.
Proof. intros id c. cbn. rewrite lookup_empty. discriminate. Qed.

(** The collection after the scheduler call and the emit is the one that
    was saved. *)
Lemma countdowns_scheduleAndEmit (c : Countdown) (w : World) :
  countdowns (snd (scheduleAndEmit addTimeout c w)) = countdowns w.
Proof. unfold scheduleAndEmit. destruct (addTimeout _ _ _); reflexivity. Qed.

Lemma countdowns_unscheduleAndEmit (c : Countdown) (w : World) :
  countdowns (snd (unscheduleAndEmit deleteTimeout c w)) = countdowns w.
Proof.
  unfold unscheduleAndEmit. destruct (deleteTimeout _ _); reflexivity.
Qed.

Lemma findOne_ext (user id : ObjectId) (w w' : World) :
  countdowns w' = countdowns w -> findOne user id w' = findOne user id w.
Proof. unfold findOne. intros ->. reflexivity. Qed.

Lemma findOne_save (user id : ObjectId) (c : Countdown) (w : World) :
  _id c = id -> userId c = user -> findOne user id (save c w) = Some c.
Proof.
  intros <- <-. unfold findOne. cbn. rewrite lookup_insert_eq.
  destruct (decide (userId c = userId c)); [reflexivity | contradiction].
Qed.

Lemma findOne_stored (user id : ObjectId) (w : World) (c : Countdown) :
  wellFormed w -> findOne user id w = Some c ->
  _id c = id /\ userId c = user /\ consistent c
  /\ countdowns w !! id = Some c.
Proof.
  intros Hw Hfind. apply findOne_Some in Hfind as [Hc Hu].
  destruct (Hw _ _ Hc) as (Hid & _ & Hcons). auto.
Qed.

Lemma Updated_same (c c' : Countdown) :
  Updated c c' ->
  _id c' = _id c /\ userId c' = userId c /\ duration c' = duration c
  /\ status c' <> status c /\ status c' <> FINISHED /\ consistent c'.
Proof.
  intros [now Hs|since now Hs Hsince|now Hs|Hs]; cbn;
    repeat split; try reflexivity; try discriminate; congruence.
Qed.

Lemma start_served (user id : ObjectId) (now : Date) (w : World) :
  Served user id w (start addTimeout user id now w).
Proof.
  unfold start. destruct (findOne user id w) as [c|] eqn:Hfind.
  - destruct (decide (status c = RUNNING)) as [Hs|Hs].
    + exact (ServedAsIs _ _ _ _ c Hfind).
    + unfold scheduleAndEmit. cbn.
      destruct (addTimeout _ _ _) as [r|].
      * apply (ServedDone _ _ _ _ c); [exact Hfind|]. apply UpdatedByStart, Hs.
      * apply (ServedThrew _ _ _ _ c); [exact Hfind|]. apply UpdatedByStart, Hs.
  - exact (ServedNotFound _ _ _ _ Hfind).
Qed.

Lemma resume_served (user id : ObjectId) (now : Date) (w : World) :
  Served user id w (resume addTimeout user id now w).
Proof.
  unfold resume. destruct (findOne user id w) as [c|] eqn:Hfind.
  - destruct (decide (status c = PAUSED)) as [Hs|Hs].
    + unfold scheduleAndEmit. cbn.
      destruct (addTimeout _ _ _) as [r|].
      * apply (ServedDone _ _ _ _ c); [exact Hfind|]. apply UpdatedByResume, Hs.
      * apply (ServedThrew _ _ _ _ c); [exact Hfind|]. apply UpdatedByResume, Hs.
    + exact (ServedAsIs _ _ _ _ c Hfind).
  - exact (ServedNotFound _ _ _ _ Hfind).
Qed.

Lemma pause_served (user id : ObjectId) (now : Date) (w : World) :
  Served user id w (pause deleteTimeout user id now w).
Proof.
  unfold pause. destruct (findOne user id w) as [c|] eqn:Hfind.
  - destruct (decide (status c = RUNNING)) as [Hs|Hs].
    + destruct (startedAt c) as [since|] eqn:Hsince.
      * unfold unscheduleAndEmit. cbn.
        destruct (deleteTimeout _ _) as [r|].
        -- apply (ServedDone _ _ _ _ c); [exact Hfind|]. apply UpdatedByPause; assumption.
        -- apply (ServedThrew _ _ _ _ c); [exact Hfind|]. apply UpdatedByPause; assumption.
      * exact (ServedNull _ _ _ _ c Hfind Hs Hsince).
    + exact (ServedAsIs _ _ _ _ c Hfind).
  - exact (ServedNotFound _ _ _ _ Hfind).
Qed.

Lemma stop_served (user id : ObjectId) (w : World) :
  Served user id w (stop deleteTimeout user id w).
Proof.
  unfold stop. destruct (findOne user id w) as [c|] eqn:Hfind.
  - destruct (decide (status c = STOPPED)) as [Hs|Hs].
    + exact (ServedAsIs _ _ _ _ c Hfind).
    + unfold unscheduleAndEmit. cbn.
      destruct (deleteTimeout _ _) as [r|].
      * apply (ServedDone _ _ _ _ c); [exact Hfind|]. apply UpdatedByStop, Hs.
      * apply (ServedThrew _ _ _ _ c); [exact Hfind|]. apply UpdatedByStop, Hs.
  - exact (ServedNotFound _ _ _ _ Hfind).
Qed.


Lemma Served_effect (user id : ObjectId) (w : World)
    (result : Response Countdown * World) :
  wellFormed w ->
  Served user id w result ->
  snd result = w
  \/ exists c c',
       findOne user id w = Some c
       /\ _id c' = id /\ userId c' = user /\ status c' <> status c
       /\ countdowns (snd result) = <[id := c']> (countdowns w)
       /\ objectIds (snd result) = objectIds w
       /\ ((fst result = SchedulerThrew
            /\ emitted (snd result) = emitted w
            /\ registry (snd result) = registry w)
           \/ (fst result = Done c'
               /\ emitted (snd result)
                  = emitted w ++ [{| roomType := "countdown"; roomId := id;
                                     payload := c' |}])).
Proof.
  intros Hw [Hfind|c Hfind|c Hfind Hs Hsince|c c' Hfind Hup
            |c c' r Hfind Hup]; cbn [fst snd]; auto; right.
  - destruct (findOne_stored _ _ _ _ Hw Hfind) as (Hid' & Hu' & _ & _).
    destruct (Updated_same _ _ Hup) as (Hid & Hu & _ & Hs & _).
    exists c, c'. cbn. rewrite Hid, Hid'. repeat split; auto; try congruence.
  - destruct (findOne_stored _ _ _ _ Hw Hfind) as (Hid' & Hu' & _ & _).
    destruct (Updated_same _ _ Hup) as (Hid & Hu & _ & Hs & _).
    exists c, c'. cbn. rewrite Hid, Hid'. repeat split; auto; try congruence.
Qed.

Lemma handle_served (q : Request) (w : World) :
  match q with
  | PostCreate _ _ | GetAll _ | GetOne _ _ | DeleteOne _ _ => True
  | PostStart user id _ | PostPause user id _ | PostResume user id _
  | PostStop user id =>
      exists result,
        Served user id w result
        /\ snd (handle q w) = snd result
        /\ fst (handle q w)
           = fst (respond (Registry := Registry) OneCountdown result)
  end.
Proof.
  destruct q; cbn; auto; eexists; (split; [|split; reflexivity]).
  - apply start_served.
  - apply pause_served.
  - apply resume_served.
  - apply stop_served.
Qed.

Lemma handle_keeps_others (q : Request) (w : World) (id : ObjectId)
    (c : Countdown) :
  wellFormed w ->
  countdowns w !! id = Some c ->
  userId c <> requester q ->
  countdowns (snd (handle q w)) !! id = Some c.
Proof.
  intros Hw Hc Hu.
  assert (Hop : forall user id' result,
             user = requester q -> Served user id' w result ->
             countdowns (snd result) !! id = Some c).
  { intros user id' result -> Hserved.
    destruct (Served_effect _ _ _ _ Hw Hserved)
      as [->|(c0 & c' & Hfind & _ & _ & _ & -> & _)]; [exact Hc|].
    apply findOne_Some in Hfind as [Hc0 Hu0].
    rewrite lookup_insert_ne; [exact Hc|].
    intros ->. congruence. }
  pose proof (handle_served q w) as Hq.
  destruct q; cbn [requester] in *.
  - cbn. rewrite lookup_insert_ne; [exact Hc|].
    destruct (Hw _ _ Hc) as (_ & Hlt & _). lia.
  - exact Hc.
  - cbn. destruct (findOne user id0 w); exact Hc.
  - destruct Hq as (result & Hserved & -> & _). eauto.
  - destruct Hq as (result & Hserved & -> & _). eauto.
  - destruct Hq as (result & Hserved & -> & _). eauto.
  - destruct Hq as (result & Hserved & -> & _). eauto.
  - cbn. unfold delete.
    destruct (findOne user id0 w) as [c0|] eqn:Hfind; [|exact Hc].
    cbn. destruct (findOne_stored _ _ _ _ Hw Hfind) as (Hid & Hu0 & _ & Hc0).
    rewrite lookup_delete_ne; [exact Hc|]. rewrite Hid. intros ->. congruence.
Qed.

(** ** Ownership *)

Lemma handle_not_found (q : Request) (id : ObjectId) (w : World) :
  target q = Some id ->
  (forall c, countdowns w !! id = Some c -> userId c <> requester q) ->
  handle q w = (NotFoundException, w).
Proof.
  intros Htarget Hnone.
  destruct q; cbn in Htarget; try discriminate;
    injection Htarget as ->; cbn [requester] in Hnone;
    apply findOne_None in Hnone; cbn;
    unfold start, pause, resume, stop, delete; rewrite Hnone; reflexivity.
Qed.

(** X14. Requests of other users never change or delete a user's
    countdown, whatever ids they name. *)
Theorem other_users_requests_leave_countdown (qs : list Request)
    (w : World) (id : ObjectId) (c : Countdown) :
  wellFormed w ->
  countdowns w !! id = Some c ->
  Forall (fun q => requester q <> userId c) qs ->
  countdowns (snd (Timers.handleAll addTimeout deleteTimeout qs w)) !! id
  = Some c.
Proof.
  revert w. induction qs as [|q qs IH]; intros w Hw Hc Hqs; [exact Hc|].
  rewrite handleAll_cons. cbn [snd].
  apply Forall_cons in Hqs as [Hq Hqs].
  apply IH; [apply wellFormed_handle, Hw | | exact Hqs].
  apply handle_keeps_others; auto.
Qed.

(** ** Invariants *)

(** X15. Every request keeps the collection well formed: each document
    is stored under its own id, ids come from the supply, a running
    countdown has a start time, a paused one is marked as paused, and a
    stopped one has no start time and its whole duration left. *)
Theorem requests_keep_collection_well_formed (qs : list Request)
    (w : World) :
  wellFormed w ->
  wellFormed (snd (Timers.handleAll addTimeout deleteTimeout qs w)).
Proof.
  revert w. induction qs as [|q qs IH]; intros w Hw; [exact Hw|].
  rewrite handleAll_cons. cbn [snd]. apply IH.
  destruct q; cbn.
  - apply wellFormed_create, Hw.
  - exact Hw.
  - destruct (findOne user id w); exact Hw.
  - apply wellFormed_start, Hw.
  - apply wellFormed_pause, Hw.
  - apply wellFormed_resume, Hw.
  - apply wellFormed_stop, Hw.
  - apply wellFormed_delete, Hw.
Qed.

Lemma handle_no_null (q : Request) (w : World) :
  wellFormed w -> fst (handle q w) <> NullDereference.
Proof.
  intros Hw. destruct q; cbn; try discriminate.
  - destruct (findOne user id w); discriminate.
  - unfold start. destruct (findOne user id w) as [c|]; [|discriminate].
    destruct (decide (status c = RUNNING)); [discriminate|].
    unfold scheduleAndEmit. destruct (addTimeout _ _ _); discriminate.
  - unfold pause. destruct (findOne user id w) as [c|] eqn:Hfind;
      [|discriminate].
    destruct (decide (status c = RUNNING)) as [Hs|]; [|discriminate].
    destruct (findOne_stored _ _ _ _ Hw Hfind) as (_ & _ & Hcons & _).
    destruct Hcons as (Hrun & _). specialize (Hrun Hs).
    destruct (startedAt c); [|contradiction].
    unfold unscheduleAndEmit. destruct (deleteTimeout _ _); discriminate.
  - unfold resume. destruct (findOne user id w) as [c|]; [|discriminate].
    destruct (decide (status c = PAUSED)); [|discriminate].
    unfold scheduleAndEmit. destruct (addTimeout _ _ _); discriminate.
  - unfold stop. destruct (findOne user id w) as [c|]; [|discriminate].
    destruct (decide (status c = STOPPED)); [discriminate|].
    unfold unscheduleAndEmit. destruct (deleteTimeout _ _); discriminate.
  - unfold delete. destruct (findOne user id w); discriminate.
Qed.

(** X16. [pause] never reads the start time of a countdown that has
    none: no sequence of requests is answered with the null
    dereference of [countdown.startedAt.getTime()]. *)
Theorem pause_never_dereferences_null (qs : list Request) (w : World) :
  wellFormed w ->
  Forall (fun r => r <> NullDereference)
    (fst (Timers.handleAll addTimeout deleteTimeout qs w)).
Proof.
  revert w. induction qs as [|q qs IH]; intros w Hw; [constructor|].
  rewrite handleAll_cons. cbn [fst]. constructor.
  - apply handle_no_null, Hw.
  - apply IH, wellFormed_handle, Hw.
Qed.


(** ** Stopping, pausing and resuming *)

Lemma stopped_fixed (c : Countdown) :
  consistent c -> status c = STOPPED -> stopped c = c.
Proof.
  intros (_ & _ & Hstop) Hs. destruct (Hstop Hs) as (Hat & Hps & Hrem).
  destruct c. cbn in *. subst. reflexivity.
Qed.

(** X17. After [stop] by its owner a countdown is stored as stopped, with
    no start time, no paused state and its whole duration left, even
    when the scheduler call throws. *)
Theorem stop_always_resets (user id : ObjectId) (w : World)
    (c : Countdown) :
  wellFormed w ->
  findOne user id w = Some c ->
  findOne user id (snd (stop deleteTimeout user id w)) = Some (stopped c).
Proof.
  intros Hw Hfind.
  destruct (findOne_stored _ _ _ _ Hw Hfind) as (Hid & Hu & Hcons & _).
  unfold stop. rewrite Hfind.
  destruct (decide (status c = STOPPED)) as [Hs|Hs].
  - cbn. rewrite stopped_fixed by assumption. exact Hfind.
  - rewrite (findOne_ext _ _ (save (stopped c) w))
      by apply countdowns_unscheduleAndEmit.
    apply findOne_save; assumption.
Qed.

(** X18. A pause that follows a resume leaves the whole duration minus
    the time since that resume: what had run before the earlier pause is
    not subtracted, and the remaining time stored by the earlier pause
    plays no part. *)
Theorem pause_after_resume_forgets_earlier_run (user id : ObjectId)
    (resumedAt pausedAt : Date) (w w1 w2 : World) (c c1 c2 : Countdown) :
  wellFormed w ->
  findOne user id w = Some c ->
  status c = PAUSED ->
  resume addTimeout user id resumedAt w = (Done c1, w1) ->
  pause deleteTimeout user id pausedAt w1 = (Done c2, w2) ->
  remainingTime c2 = duration c - (pausedAt - resumedAt)
  /\ status c2 = PAUSED
  /\ findOne user id w2 = Some c2.
Proof.
  intros Hw Hfind Hs Hresume Hpause.
  destruct (findOne_stored _ _ _ _ Hw Hfind) as (Hid & Hu & _ & _).
  unfold resume in Hresume. rewrite Hfind in Hresume.
  destruct (decide (status c = PAUSED)); [|contradiction].
  unfold scheduleAndEmit in Hresume.
  destruct (addTimeout _ _ _) as [r|]; [|discriminate].
  injection Hresume as <- <-.
  unfold pause in Hpause.
  rewrite (findOne_ext _ _ (save (resumed c resumedAt) w)) in Hpause
    by reflexivity.
  rewrite (findOne_save user id) in Hpause by assumption.
  cbn in Hpause.
  unfold unscheduleAndEmit in Hpause.
  destruct (deleteTimeout _ _) as [r'|]; [|discriminate].
  injection Hpause as <- <-. cbn [remainingTime paused status duration resumed].
  split; [reflexivity|]. split; [reflexivity|].
  rewrite (findOne_ext _ _ (save (paused (resumed c resumedAt)
             (duration c - (pausedAt - resumedAt)))
             (emitStatus (resumed c resumedAt)
                (withRegistry r (save (resumed c resumedAt) w)))))
    by reflexivity.
  apply findOne_save; assumption.
Qed.

(** ** What is emitted and what a scheduler failure leaves behind *)

(** X19. A request emits at most one status message; the message goes to
    the room of the countdown, and carries the document as it is now
    stored and as it is returned. *)
Theorem status_message_carries_stored_document (q : Request) (w : World) :
  wellFormed w ->
  let after := snd (Timers.handle addTimeout deleteTimeout q w) in
  emitted after = emitted w
  \/ exists m,
       emitted after = emitted w ++ [m]
       /\ roomType m = "countdown"
       /\ countdowns after !! roomId m = Some (payload m)
       /\ fst (Timers.handle addTimeout deleteTimeout q w)
          = Done (OneCountdown (payload m)).
Proof.
  intros Hw after. subst after.
  assert (Hop : forall result : Response Countdown * World,
             (exists user id, Served user id w result) ->
             emitted (snd result) = emitted w
             \/ exists m,
                  emitted (snd result) = emitted w ++ [m]
                  /\ roomType m = "countdown"
                  /\ countdowns (snd result) !! roomId m = Some (payload m)
                  /\ fst (respond (Registry := Registry) OneCountdown result)
                     = Done (OneCountdown (payload m))).
  { intros result (user & id & Hserved).
    destruct (Served_effect _ _ _ _ Hw Hserved)
      as [->|(c0 & c' & _ & _ & _ & _ & Hcs & _ & [(_ & He & _)|(Hr & He)])];
      auto.
    right. eexists. split; [exact He|]. cbn [roomType roomId payload].
    split; [reflexivity|]. rewrite Hcs, lookup_insert_eq.
    split; [reflexivity|]. cbn. rewrite Hr. reflexivity. }
  pose proof (handle_served q w) as Hq.
  destruct q.
  - right. eexists. cbn. split; [reflexivity|]. cbn.
    rewrite lookup_insert_eq. auto.
  - left. reflexivity.
  - left. cbn. destruct (findOne user id w); reflexivity.
  - destruct Hq as (result & Hserved & -> & ->). eauto.
  - destruct Hq as (result & Hserved & -> & ->). eauto.
  - destruct Hq as (result & Hserved & -> & ->). eauto.
  - destruct Hq as (result & Hserved & -> & ->). eauto.
  - left. cbn. unfold delete. destruct (findOne user id w); reflexivity.
Qed.

(** X20. When the scheduler call throws, the change of status has already
    been saved, and no status message tells of it; the registry is as
    before. *)
Theorem scheduler_failure_leaves_saved_change_unannounced (q : Request)
    (w : World) :
  wellFormed w ->
  fst (Timers.handle addTimeout deleteTimeout q w) = SchedulerThrew ->
  let after := snd (Timers.handle addTimeout deleteTimeout q w) in
  emitted after = emitted w
  /\ registry after = registry w
  /\ exists id c c',
       target q = Some id
       /\ countdowns w !! id = Some c
       /\ countdowns after !! id = Some c'
       /\ status c' <> status c.
Proof.
  intros Hw Hthrew after. subst after.
  assert (Hop : forall user id (result : Response Countdown * World),
             Served user id w result ->
             fst (respond (Registry := Registry) OneCountdown result)
             = SchedulerThrew ->
             emitted (snd result) = emitted w
             /\ registry (snd result) = registry w
             /\ exists c c',
                  countdowns w !! id = Some c
                  /\ countdowns (snd result) !! id = Some c'
                  /\ status c' <> status c).
  { intros user id result Hserved Hr.
    destruct Hserved as [Hfind|c Hfind|c Hfind Hs Hsince|c c' Hfind Hup
                        |c c' r Hfind Hup]; try discriminate.
    destruct (findOne_stored _ _ _ _ Hw Hfind) as (Hid' & _ & _ & Hc).
    destruct (Updated_same _ _ Hup) as (Hid & _ & _ & Hs & _).
    cbn. split; [reflexivity|]. split; [reflexivity|].
    exists c, c'. rewrite Hid, Hid', lookup_insert_eq. auto. }
  pose proof (handle_served q w) as Hq.
  destruct q; cbn [target].
  - discriminate.
  - discriminate.
  - cbn in Hthrew. destruct (findOne user id w); discriminate.
  - destruct Hq as (result & Hserved & Hw' & Hr). rewrite Hw'.
    rewrite Hr in Hthrew.
    destruct (Hop _ _ _ Hserved Hthrew) as (? & ? & c & c' & ?). eauto 10.
  - destruct Hq as (result & Hserved & Hw' & Hr). rewrite Hw'.
    rewrite Hr in Hthrew.
    destruct (Hop _ _ _ Hserved Hthrew) as (? & ? & c & c' & ?). eauto 10.
  - destruct Hq as (result & Hserved & Hw' & Hr). rewrite Hw'.
    rewrite Hr in Hthrew.
    destruct (Hop _ _ _ Hserved Hthrew) as (? & ? & c & c' & ?). eauto 10.
  - destruct Hq as (result & Hserved & Hw' & Hr). rewrite Hw'.
    rewrite Hr in Hthrew.
    destruct (Hop _ _ _ Hserved Hthrew) as (? & ? & c & c' & ?). eauto 10.
  - cbn in Hthrew. unfold delete in Hthrew.
    destruct (findOne user id w); discriminate.
Qed.


(** ** What never happens, and what repeating a request does *)

Lemma handle_never_finishes (q : Request) (w : World) :
  wellFormed w ->
  (forall id c, countdowns w !! id = Some c -> status c <> FINISHED) ->
  forall id c,
    countdowns (snd (handle q w)) !! id = Some c -> status c <> FINISHED.
Proof.
  intros Hw Hnone.
  assert (Hop : forall user id' (result : Response Countdown * World),
             Served user id' w result ->
             forall id c,
               countdowns (snd result) !! id = Some c ->
               status c <> FINISHED).
  { intros user id' result
      [Hfind|c Hfind|c Hfind Hs Hsince|c c' Hfind Hup|c c' r Hfind Hup];
      cbn [snd]; auto; intros id d; cbn;
      destruct (Updated_same _ _ Hup) as (_ & _ & _ & _ & Hfin & _);
      (destruct (decide (id = _id c')) as [->|Hne];
       [rewrite lookup_insert_eq; intros [= <-]; exact Hfin
       |rewrite lookup_insert_ne by congruence; apply Hnone]). }
  pose proof (handle_served q w) as Hq.
  destruct q.
  - intros id c. cbn.
    destruct (decide (id = objectIds w)) as [->|Hne].
    + rewrite lookup_insert_eq. intros [= <-]. discriminate.
    + rewrite lookup_insert_ne by congruence. apply Hnone.
  - exact Hnone.
  - cbn. destruct (findOne user id w); exact Hnone.
  - destruct Hq as (result & Hserved & -> & _). eauto.
  - destruct Hq as (result & Hserved & -> & _). eauto.
  - destruct Hq as (result & Hserved & -> & _). eauto.
  - destruct Hq as (result & Hserved & -> & _). eauto.
  - cbn. unfold delete. destruct (findOne user id w) as [found|];
      [|exact Hnone].
    intros k c. cbn. intros Hc. apply lookup_delete_Some in Hc as [_ Hc].
    exact (Hnone _ _ Hc).
Qed.

(** X21. No request ever gives a countdown the status FINISHED: a
    collection without finished countdowns has none after any sequence
    of requests, however much time has passed. *)
Theorem no_request_finishes_a_countdown (qs : list Request) (w : World) :
  wellFormed w ->
  (forall id c, countdowns w !! id = Some c -> status c <> FINISHED) ->
  forall id c,
    countdowns (snd (Timers.handleAll addTimeout deleteTimeout qs w)) !! id
    = Some c ->
    status c <> FINISHED.
Proof.
  revert w. induction qs as [|q qs IH]; intros w Hw Hnone; [exact Hnone|].
  rewrite handleAll_cons. cbn [snd].
  apply IH; [apply wellFormed_handle, Hw|].
  apply handle_never_finishes; assumption.
Qed.

Lemma findOne_after_update (user id : ObjectId) (w w' : World)
    (c c' : Countdown) :
  wellFormed w ->
  findOne user id w = Some c ->
  Updated c c' ->
  countdowns w' = countdowns (save c' w) ->
  findOne user id w' = Some c'.
Proof.
  intros Hw Hfind Hup Hcs.
  destruct (findOne_stored _ _ _ _ Hw Hfind) as (Hid & Hu & _ & _).
  destruct (Updated_same _ _ Hup) as (Hid' & Hu' & _).
  rewrite (findOne_ext _ _ _ _ Hcs). apply findOne_save; congruence.
Qed.

Lemma findOne_deleted (user user' id : ObjectId) (w : World)
    (c : Countdown) :
  wellFormed w ->
  findOne user id w = Some c ->
  findOne user' id (snd (delete user id w)) = None.
Proof.
  intros Hw Hfind.
  destruct (findOne_stored _ _ _ _ Hw Hfind) as (Hid & _ & _ & _).
  unfold delete. rewrite Hfind. unfold findOne. cbn.
  rewrite Hid, lookup_delete_eq. reflexivity.
Qed.

Lemma start_again (user id : ObjectId) (now again : Date) (w : World) :
  wellFormed w ->
  snd (start addTimeout user id again
         (snd (start addTimeout user id now w)))
  = snd (start addTimeout user id now w).
Proof.
  intros Hw. unfold start at 2 3.
  destruct (findOne user id w) as [c|] eqn:Hfind.
  - destruct (decide (status c = RUNNING)) as [Hs|Hs].
    + cbn [snd]. unfold start. rewrite Hfind.
      destruct (decide (status c = RUNNING)); [reflexivity | contradiction].
    + assert (Hup : Updated c (started c now)) by (constructor; exact Hs).
      unfold scheduleAndEmit.
      destruct (addTimeout _ _ _) as [r|]; cbn [snd]; unfold start;
        (erewrite findOne_after_update;
           [|exact Hw|exact Hfind|exact Hup|reflexivity]);
        reflexivity.
  - cbn [snd]. unfold start. rewrite Hfind. reflexivity.
Qed.

Lemma resume_again (user id : ObjectId) (now again : Date) (w : World) :
  wellFormed w ->
  snd (resume addTimeout user id again
         (snd (resume addTimeout user id now w)))
  = snd (resume addTimeout user id now w).
Proof.
  intros Hw. unfold resume at 2 3.
  destruct (findOne user id w) as [c|] eqn:Hfind.
  - destruct (decide (status c = PAUSED)) as [Hs|Hs].
    + assert (Hup : Updated c (resumed c now)) by (constructor; exact Hs).
      unfold scheduleAndEmit.
      destruct (addTimeout _ _ _) as [r|]; cbn [snd]; unfold resume;
        (erewrite findOne_after_update;
           [|exact Hw|exact Hfind|exact Hup|reflexivity]);
        reflexivity.
    + cbn [snd]. unfold resume. rewrite Hfind.
      destruct (decide (status c = PAUSED)); [contradiction | reflexivity].
  - cbn [snd]. unfold resume. rewrite Hfind. reflexivity.
Qed.

Lemma pause_again (user id : ObjectId) (now again : Date) (w : World) :
  wellFormed w ->
  snd (pause deleteTimeout user id again
         (snd (pause deleteTimeout user id now w)))
  = snd (pause deleteTimeout user id now w).
Proof.
  intros Hw. unfold pause at 2 3.
  destruct (findOne user id w) as [c|] eqn:Hfind.
  - destruct (decide (status c = RUNNING)) as [Hs|Hs].
    + destruct (startedAt c) as [since|] eqn:Hsince.
      * assert (Hup : Updated c (paused c (duration c - (now - since))))
          by (econstructor; eassumption).
        unfold unscheduleAndEmit.
        destruct (deleteTimeout _ _) as [r|]; cbn [snd]; unfold pause;
          (erewrite findOne_after_update;
             [|exact Hw|exact Hfind|exact Hup|reflexivity]);
          reflexivity.
      * cbn [snd]. unfold pause. rewrite Hfind, Hsince.
        destruct (decide (status c = RUNNING)); reflexivity.
    + cbn [snd]. unfold pause. rewrite Hfind.
      destruct (decide (status c = RUNNING)); [contradiction | reflexivity].
  - cbn [snd]. unfold pause. rewrite Hfind. reflexivity.
Qed.

Lemma stop_again (user id : ObjectId) (w : World) :
  wellFormed w ->
  snd (stop deleteTimeout user id (snd (stop deleteTimeout user id w)))
  = snd (stop deleteTimeout user id w).
Proof.
  intros Hw. unfold stop at 2 3.
  destruct (findOne user id w) as [c|] eqn:Hfind.
  - destruct (decide (status c = STOPPED)) as [Hs|Hs].
    + cbn [snd]. unfold stop. rewrite Hfind.
      destruct (decide (status c = STOPPED)); [reflexivity | contradiction].
    + assert (Hup : Updated c (stopped c)) by (constructor; exact Hs).
      unfold unscheduleAndEmit.
      destruct (deleteTimeout _ _) as [r|]; cbn [snd]; unfold stop;
        (erewrite findOne_after_update;
           [|exact Hw|exact Hfind|exact Hup|reflexivity]);
        reflexivity.
  - cbn [snd]. unfold stop. rewrite Hfind. reflexivity.
Qed.

(** X22. A start, pause, resume, stop or delete request that is sent
    again, at whatever time, changes nothing the second time. *)
Theorem repeated_request_changes_nothing (q : Request) (again : Date)
    (w : World) :
  wellFormed w ->
  (forall user dto, q <> PostCreate user dto) ->
  let after := snd (Timers.handle addTimeout deleteTimeout q w) in
  snd (Timers.handle addTimeout deleteTimeout (atTime again q) after)
  = after.
Proof.
  intros Hw Hq after. subst after.
  destruct q; cbn [atTime].
  - exfalso. exact (Hq _ _ eq_refl).
  - reflexivity.
  - cbn. destruct (findOne user id w) eqn:Hfind; cbn; rewrite Hfind;
      reflexivity.
  - apply start_again, Hw.
  - apply pause_again, Hw.
  - apply resume_again, Hw.
  - apply stop_again, Hw.
  - cbn [Timers.handle respond snd].
    destruct (findOne user id w) as [c|] eqn:Hfind.
    + unfold delete at 1.
      rewrite (findOne_deleted user user id w c Hw Hfind). reflexivity.
    + unfold delete. rewrite Hfind. cbn. rewrite Hfind. reflexivity.
Qed.

(** X23. Once its owner has deleted a countdown, every request that
    names its id, from any user, is answered with [NotFoundException]. *)
Theorem deleted_countdown_is_gone (user id : ObjectId) (q : Request)
    (w : World) (c : Countdown) :
  wellFormed w ->
  findOne user id w = Some c ->
  target q = Some id ->
  let after := snd (delete user id w) in
  Timers.handle addTimeout deleteTimeout q after
  = (NotFoundException, after).
Proof.
  intros Hw Hfind Htarget after. apply (handle_not_found q id); auto.
  apply findOne_None. exact (findOne_deleted _ _ _ _ _ Hw Hfind).
Qed.

(** X24. [create] never overwrites: the new countdown gets an id under
    which nothing was stored, every other document stays as it was, and
    its owner finds it, stopped, with its whole duration left. *)
Theorem create_adds_fresh_countdown (user : ObjectId)
    (dto : CreateCountdownDto) (w : World) :
  wellFormed w ->
  exists c,
    fst (create user dto w) = Done c
    /\ countdowns w !! _id c = None
    /\ countdowns (snd (create user dto w)) = <[_id c := c]> (countdowns w)
    /\ findOne user (_id c) (snd (create user dto w)) = Some c
    /\ status c = STOPPED
    /\ remainingTime c = dtoDuration dto.
Proof.
  intros Hw. eexists. split; [reflexivity|]. cbn.
  split; [|split; [reflexivity|split; [|auto]]].
  - destruct (countdowns w !! objectIds w) as [c|] eqn:Hc; [|exact Hc].
    destruct (Hw _ _ Hc) as (_ & Hlt & _). lia.
  - unfold findOne. cbn. rewrite lookup_insert_eq. cbn.
    destruct (decide (user = user)); [reflexivity | contradiction].
Qed.

(** X25. [findAll] lists exactly the countdowns that [findOne] gives the
    same user, one by one. *)
Theorem findAll_lists_what_findOne_finds (user : ObjectId) (w : World)
    (c : Countdown) :
  wellFormed w ->
  c ∈ findAll user w <-> findOne user (_id c) w = Some c.
Proof.
  intros Hw. unfold findAll.
  rewrite list_elem_of_filter, list_elem_of_fmap, findOne_Some.
  split.
  - intros [Hu ([id d] & -> & Hin)]. cbn in *.
    apply elem_of_map_to_list in Hin.
    destruct (Hw _ _ Hin) as (-> & _). auto.
  - intros [Hc Hu]. split; [exact Hu|].
    exists (_id c, c). split; [reflexivity|].
    apply elem_of_map_to_list. exact Hc.
Qed.

End ServiceFacts.

(** ** The ids as strings *)

Section StringFacts.

Import Timers.

Variable Registry : Type.
Variable addTimeout : ObjectId -> Z -> Registry -> option Registry.
Variable deleteTimeout : ObjectId -> Registry -> option Registry.
Variable parseObjectId : string -> option ObjectId.

(** X13. A request that names an id (get, start, pause, resume, stop,
    delete) under which the requester owns no countdown changes nothing.
    When the id and the user id are strings of which
    [new Types.ObjectId] makes ObjectIds, it is answered with
    [NotFoundException], whether no countdown has that id or the countdown
    belongs to someone else; when the constructor throws on one of them,
    the request ends with its [BSONError], before any query. *)
Theorem unknown_or_foreign_id_is_not_found (q : OnStrings.Request)
    (idString : string) (w : World Registry) :
  OnStrings.target q = Some idString ->
  (forall user id c,
     parseObjectId (OnStrings.requester q) = Some user ->
     parseObjectId idString = Some id ->
     countdowns w !! id = Some c ->
     userId c <> user) ->
  OnStrings.handle addTimeout deleteTimeout parseObjectId q w
  = (match parseObjectId idString, parseObjectId (OnStrings.requester q) with
     | Some _, Some _ => OnStrings.Responded NotFoundException
     | _, _ => OnStrings.BSONError
     end, w).
Proof.
  intros Htarget Hnone.
  assert (Hfind : forall user id,
             parseObjectId (OnStrings.requester q) = Some user ->
             parseObjectId idString = Some id ->
             findOne user id w = None).
  { intros user id Hu Hid. apply findOne_None. intros c Hc.
    exact (Hnone user id c Hu Hid Hc). }
  clear Hnone.
  destruct q as [user dto | user | user id | user id now | user id now
                | user id now | user id | user id];
    cbn in Htarget; try discriminate;
    injection Htarget as ->; cbn [OnStrings.requester] in *;
    cbn [OnStrings.handle];
    unfold OnStrings.findOne, OnStrings.start, OnStrings.pause,
      OnStrings.resume, OnStrings.stop, OnStrings.delete,
      OnStrings.afterFindOne, OnStrings.filterOf, OnStrings.answer;
    (destruct (parseObjectId idString) as [idParsed |]; [| reflexivity]);
    (destruct (parseObjectId user) as [userParsed |]; [| reflexivity]);
    cbn [fst snd];
    unfold start, pause, resume, stop, delete;
    rewrite (Hfind userParsed idParsed eq_refl eq_refl); reflexivity.
Qed.

End StringFacts.

(** ** The countdown theorems at a sample session *)

Lemma pausedWorkout_wellFormed : Timers.wellFormed Timers.pausedWorkout.
Proof.
  apply (wellFormed_handleAll (gset N) Timers.namesAdd Timers.namesDelete
           Timers.session Timers.emptyWorld).
  apply wellFormed_empty.
Qed.

Lemma pausedWorkout_holds :
  Timers.countdowns Timers.pausedWorkout !! 0%N = Some Timers.pausedCountdown.
Proof. vm_compute. reflexivity. Qed.

Lemma pausedWorkout_found :
  Timers.findOne 1%N 0%N Timers.pausedWorkout = Some Timers.pausedCountdown.
Proof. vm_compute. reflexivity. Qed.

(** User 2 asks to stop the countdown of user 1, and user 1 asks for a
    countdown by an id that is no ObjectId. *)
Lemma unknown_or_foreign_id_is_not_found_witness :
  Timers.OnStrings.handle Timers.namesAdd Timers.namesDelete
    Timers.OnStrings.hexObjectId
    (Timers.OnStrings.PostStop "000000000000000000000002"
       "000000000000000000000000")
    Timers.pausedWorkout
  = (Timers.OnStrings.Responded Timers.NotFoundException,
     Timers.pausedWorkout)
  /\ Timers.OnStrings.handle Timers.namesAdd Timers.namesDelete
       Timers.OnStrings.hexObjectId
       (Timers.OnStrings.GetOne "000000000000000000000001" "42")
       Timers.pausedWorkout
     = (Timers.OnStrings.BSONError, Timers.pausedWorkout).
Proof.
  split.
  - apply (unknown_or_foreign_id_is_not_found (gset N) Timers.namesAdd
             Timers.namesDelete Timers.OnStrings.hexObjectId
             (Timers.OnStrings.PostStop "000000000000000000000002"
                "000000000000000000000000")
             "000000000000000000000000" Timers.pausedWorkout).
    + reflexivity.
    + intros user id c Hu Hid Hc.
      vm_compute in Hu. injection Hu as <-.
      vm_compute in Hid. injection Hid as <-.
      pose proof (eq_trans (eq_sym Hc) pausedWorkout_holds) as E.
      injection E as ->. discriminate.
  - apply (unknown_or_foreign_id_is_not_found (gset N) Timers.namesAdd
             Timers.namesDelete Timers.OnStrings.hexObjectId
             (Timers.OnStrings.GetOne "000000000000000000000001" "42")
             "42" Timers.pausedWorkout).
    + reflexivity.
    + intros user id c Hu Hid Hc. vm_compute in Hid. discriminate.
Defined.

(** Users 2 and 3 try everything on the id of user 1's countdown. *)
Lemma other_users_requests_leave_countdown_witness :
  Timers.countdowns
    (snd (Timers.handleAll Timers.namesAdd Timers.namesDelete
            [ Timers.PostStop 2%N 0%N; Timers.DeleteOne 2%N 0%N;
              Timers.PostCreate 2%N Timers.workout;
              Timers.PostStart 3%N 0%N 70000 ]
            Timers.pausedWorkout)) !! 0%N
  = Some Timers.pausedCountdown.
Proof.
  apply (other_users_requests_leave_countdown (gset N) Timers.namesAdd
           Timers.namesDelete).
  - exact pausedWorkout_wellFormed.
  - exact pausedWorkout_holds.
  - repeat (constructor; [discriminate |]). constructor.
Defined.

Lemma requests_keep_collection_well_formed_witness :
  Timers.wellFormed
    (snd (Timers.handleAll Timers.namesAdd Timers.namesDelete
            [ Timers.PostResume 1%N 0%N 100000; Timers.PostStop 1%N 0%N;
              Timers.DeleteOne 1%N 0%N ]
            Timers.pausedWorkout)).
Proof.
  apply (requests_keep_collection_well_formed (gset N) Timers.namesAdd
           Timers.namesDelete).
  exact pausedWorkout_wellFormed.
Defined.

Lemma pause_never_dereferences_null_witness :
  Forall (fun r => r <> Timers.NullDereference)
    (fst (Timers.handleAll Timers.namesAdd Timers.namesDelete
            [ Timers.PostPause 1%N 0%N 62000; Timers.PostStop 1%N 0%N;
              Timers.PostPause 1%N 0%N 63000 ]
            Timers.pausedWorkout)).
Proof.
  apply (pause_never_dereferences_null (gset N) Timers.namesAdd
           Timers.namesDelete).
  exact pausedWorkout_wellFormed.
Defined.

(** The paused countdown is stopped; the sample registry holds no
    timeout for it any more and throws. *)
Lemma stop_always_resets_witness :
  fst (Timers.stop Timers.namesDelete 1%N 0%N Timers.pausedWorkout)
  = Timers.SchedulerThrew
  /\ Timers.findOne 1%N 0%N
       (snd (Timers.stop Timers.namesDelete 1%N 0%N Timers.pausedWorkout))
     = Some (Timers.stopped Timers.pausedCountdown).
Proof.
  split.
  - vm_compute. reflexivity.
  - apply (stop_always_resets (gset N) Timers.namesDelete 1%N 0%N
             Timers.pausedWorkout Timers.pausedCountdown).
    + exact pausedWorkout_wellFormed.
    + exact pausedWorkout_found.
Defined.

(** Paused after a minute with four minutes left, resumed, and paused
    again half a minute later, the countdown has four and a half minutes
    left. *)
Lemma pause_after_resume_forgets_earlier_run_witness :
  Timers.remainingTime Timers.pausedCountdown = 240000
  /\ exists c2 w2,
       Timers.pause Timers.namesDelete 1%N 0%N 130000
         (snd (Timers.resume Timers.namesAdd 1%N 0%N 100000
                 Timers.pausedWorkout))
       = (Timers.Done c2, w2)
       /\ Timers.remainingTime c2 = 300000 - (130000 - 100000).
Proof.
  split; [reflexivity |].
  eexists. eexists. split.
  - vm_compute. reflexivity.
  - eapply (pause_after_resume_forgets_earlier_run (gset N) Timers.namesAdd
              Timers.namesDelete 1%N 0%N 100000 130000 Timers.pausedWorkout
              _ _ Timers.pausedCountdown).
    + exact pausedWorkout_wellFormed.
    + exact pausedWorkout_found.
    + reflexivity.
    + vm_compute. reflexivity.
    + vm_compute. reflexivity.
Defined.

Lemma status_message_carries_stored_document_witness :
  let after :=
    snd (Timers.handle Timers.namesAdd Timers.namesDelete
           (Timers.PostResume 1%N 0%N 100000) Timers.pausedWorkout) in
  Timers.emitted after = Timers.emitted Timers.pausedWorkout
  \/ exists m,
       Timers.emitted after = Timers.emitted Timers.pausedWorkout ++ [m]
       /\ Timers.roomType m = "countdown"
       /\ Timers.countdowns after !! Timers.roomId m
          = Some (Timers.payload m)
       /\ fst (Timers.handle Timers.namesAdd Timers.namesDelete
                 (Timers.PostResume 1%N 0%N 100000) Timers.pausedWorkout)
          = Timers.Done (Timers.OneCountdown (Timers.payload m)).
Proof.
  apply (status_message_carries_stored_document (gset N) Timers.namesAdd
           Timers.namesDelete (Timers.PostResume 1%N 0%N 100000)
           Timers.pausedWorkout).
  exact pausedWorkout_wellFormed.
Defined.

Lemma scheduler_failure_leaves_saved_change_unannounced_witness :
  let after :=
    snd (Timers.handle Timers.namesAdd Timers.namesDelete
           (Timers.PostStop 1%N 0%N) Timers.pausedWorkout) in
  Timers.emitted after = Timers.emitted Timers.pausedWorkout
  /\ Timers.registry after = Timers.registry Timers.pausedWorkout
  /\ exists id c c',
       Timers.target (Timers.PostStop 1%N 0%N) = Some id
       /\ Timers.countdowns Timers.pausedWorkout !! id = Some c
       /\ Timers.countdowns after !! id = Some c'
       /\ Timers.status c' <> Timers.status c.
Proof.
  apply (scheduler_failure_leaves_saved_change_unannounced (gset N)
           Timers.namesAdd Timers.namesDelete (Timers.PostStop 1%N 0%N)
           Timers.pausedWorkout).
  - exact pausedWorkout_wellFormed.
  - vm_compute. reflexivity.
Defined.

(** Ten hours after a five-minute countdown was started, it is still
    not finished. *)
Lemma no_request_finishes_a_countdown_witness :
  exists c,
    Timers.countdowns
      (snd (Timers.handleAll Timers.namesAdd Timers.namesDelete
              [ Timers.PostCreate 1%N Timers.workout;
                Timers.PostStart 1%N 0%N 1000; Timers.GetOne 1%N 0%N;
                Timers.PostPause 1%N 0%N 36000000 ]
              Timers.emptyWorld)) !! 0%N = Some c
    /\ Timers.status c <> Timers.FINISHED.
Proof.
  assert (Hnone : forall id c,
             Timers.countdowns Timers.emptyWorld !! id = Some c ->
             Timers.status c <> Timers.FINISHED).
  { intros id c Hc. cbn in Hc. rewrite lookup_empty in Hc. discriminate. }
  eexists. split.
  - vm_compute. reflexivity.
  - eapply (no_request_finishes_a_countdown (gset N) Timers.namesAdd
              Timers.namesDelete
              [ Timers.PostCreate 1%N Timers.workout;
                Timers.PostStart 1%N 0%N 1000; Timers.GetOne 1%N 0%N;
                Timers.PostPause 1%N 0%N 36000000 ]
              Timers.emptyWorld (wellFormed_empty _ _) Hnone 0%N).
    + vm_compute. reflexivity.
Defined.

Lemma repeated_request_changes_nothing_witness :
  let after :=
    snd (Timers.handle Timers.namesAdd Timers.namesDelete
           (Timers.PostResume 1%N 0%N 100000) Timers.pausedWorkout) in
  snd (Timers.handle Timers.namesAdd Timers.namesDelete
         (Timers.atTime 200000 (Timers.PostResume 1%N 0%N 100000)) after)
  = after.
Proof.
  apply (repeated_request_changes_nothing (gset N) Timers.namesAdd
           Timers.namesDelete (Timers.PostResume 1%N 0%N 100000) 200000
           Timers.pausedWorkout).
  - exact pausedWorkout_wellFormed.
  - discriminate.
Defined.

Lemma deleted_countdown_is_gone_witness :
  let after := snd (Timers.delete 1%N 0%N Timers.pausedWorkout) in
  Timers.handle Timers.namesAdd Timers.namesDelete
    (Timers.PostStart 1%N 0%N 70000) after
  = (Timers.NotFoundException, after).
Proof.
  apply (deleted_countdown_is_gone (gset N) Timers.namesAdd
           Timers.namesDelete 1%N 0%N (Timers.PostStart 1%N 0%N 70000)
           Timers.pausedWorkout Timers.pausedCountdown).
  - exact pausedWorkout_wellFormed.
  - exact pausedWorkout_found.
  - reflexivity.
Defined.

Lemma create_adds_fresh_countdown_witness :
  exists c,
    fst (Timers.create 2%N Timers.workout Timers.pausedWorkout)
    = Timers.Done c
    /\ Timers.countdowns Timers.pausedWorkout !! Timers._id c = None
    /\ Timers.countdowns
         (snd (Timers.create 2%N Timers.workout Timers.pausedWorkout))
       = <[Timers._id c := c]> (Timers.countdowns Timers.pausedWorkout)
    /\ Timers.findOne 2%N (Timers._id c)
         (snd (Timers.create 2%N Timers.workout Timers.pausedWorkout))
       = Some c
    /\ Timers.status c = Timers.STOPPED
    /\ Timers.remainingTime c = Timers.dtoDuration Timers.workout.
Proof.
  apply (create_adds_fresh_countdown (gset N) 2%N Timers.workout
           Timers.pausedWorkout).
  exact pausedWorkout_wellFormed.
Defined.

Lemma findAll_lists_what_findOne_finds_witness :
  Timers.pausedCountdown ∈ Timers.findAll 1%N Timers.pausedWorkout
  <-> Timers.findOne 1%N (Timers._id Timers.pausedCountdown)
        Timers.pausedWorkout
      = Some Timers.pausedCountdown.
Proof.
  apply (findAll_lists_what_findOne_finds (gset N) 1%N Timers.pausedWorkout
           Timers.pausedCountdown).
  exact pausedWorkout_wellFormed.
Defined.
